(** * NYC Smart Parking frontend: the geospatial helpers, validation and
      storage utilities of [src/lib/api.ts] and [src/lib/utils.ts]

    The TypeScript sources compute on JavaScript [number]s, which are IEEE-754
    binary64 values.  They are embedded here as Rocq's primitive [float]s
    (binary64, round to nearest even), so that comparisons with [NaN], signed
    zeros and infinities behave exactly as in the source, and decimal literals
    such as [40.7589] denote the same double as in JavaScript. *)

From Stdlib Require Import ZArith Floats List Bool String Lia.
From Stdlib Require Import Permutation Sorted.
From Stdlib Require Reals Lra.
Import ListNotations.

Set Warnings "-inexact-float,-register-all".
Local Open Scope float_scope.

(* ================================================================== *)
(** * Part I. The embedding                                            *)
(* ================================================================== *)

(** ** JavaScript numbers *)

Module Js.

(** [number] is binary64. *)
Definition number := float.

(** The global [isNaN] on a value that already is a number. *)
Definition isNaN (x : number) : bool := is_nan x.

(** [a > b] and [a >= b] are [b < a] and [b <= a]. *)
Definition gtb (a b : number) : bool := b <? a.
Definition geb (a b : number) : bool := b <=? a.

(** [Array.prototype.filter(callbackfn)]: the elements for which the callback
    answers true, in a new array. *)
Definition filter {T} (callbackfn : T -> bool) (arr : list T) : list T :=
  List.filter callbackfn arr.

(** [Array.prototype.sort(comparefn)].  ECMAScript leaves the algorithm to the
    engine and fixes its outcome for a consistent comparator: the sort is
    stable, and [x] is placed after [y] only when [comparefn(x, y) > 0] (a
    [NaN] answer counts as [+0], "equal").  The reference model is the stable
    insertion sort driven by that test. *)
Fixpoint sort_insert {T} (comparefn : T -> T -> number) (x : T) (l : list T)
  : list T :=
  match l with
  | [] => [x]
  | y :: l' =>
      if 0 <? comparefn x y then y :: sort_insert comparefn x l'
      else x :: y :: l'
  end.

Definition sort {T} (comparefn : T -> T -> number) (arr : list T) : list T :=
  fold_right (sort_insert comparefn) [] arr.

(** The spread copy [[...arr]]: a new array with the same elements. *)
Definition spread {T} (arr : list T) : list T := arr.

End Js.

Infix ">?" := Js.gtb (at level 70) : float_scope.
Infix ">=?" := Js.geb (at level 70) : float_scope.

(** ** [apiUtils] of [src/lib/api.ts] *)

(** The bound [T extends { distance: number }] of the generic helpers. *)
Class HasDistance (T : Type) := distance : T -> Js.number.

Module apiUtils.

(** [getBoroughFromCoordinates(lat, lon)]: an ordered chain of rectangle
    tests, the first matching rule wins, ['unknown'] otherwise. *)
Definition getBoroughFromCoordinates (lat lon : Js.number) : string :=
  if (lat >? 40.7589) && (lon >? -73.9441) then "manhattan"%string
  else if (lat >? 40.6892) && (lat <=? 40.7394) && (lon <=? -73.8648)
    then "queens"%string
  else if (lat >? 40.5706) && (lat <=? 40.7394) && (lon <=? -73.8648)
    then "brooklyn"%string
  else if (lat >? 40.7896) && (lon <=? -73.8648) then "bronx"%string
  else if lat <=? 40.5706 then "staten_island"%string
  else "unknown"%string.

Section Haversine.

(** [Math.sin], [Math.cos], [Math.atan2] and [Math.sqrt] are the host's
    approximations; the language fixes no exact result for them. *)
Variables Math_sin Math_cos Math_sqrt : Js.number -> Js.number.
Variable Math_atan2 : Js.number -> Js.number -> Js.number.

Definition Math_PI : Js.number := 3.141592653589793.

(** [calculateDistance(lat1, lon1, lat2, lon2)]: the haversine formula. *)
Definition calculateDistance (lat1 lon1 lat2 lon2 : Js.number) : Js.number :=
  let R := 6371e3 in (* Earth's radius in meters *)
  let phi1 := (lat1 * Math_PI) / 180 in
  let phi2 := (lat2 * Math_PI) / 180 in
  let dphi := ((lat2 - lat1) * Math_PI) / 180 in
  let dlambda := ((lon2 - lon1) * Math_PI) / 180 in
  let a :=
    Math_sin (dphi / 2) * Math_sin (dphi / 2) +
    Math_cos phi1 * Math_cos phi2 *
      Math_sin (dlambda / 2) * Math_sin (dlambda / 2) in
  let c := 2 * Math_atan2 (Math_sqrt a) (Math_sqrt (1 - a)) in
  R * c.

End Haversine.

(** [sortByDistance(items)]:
    [[...items].sort((a, b) => a.distance - b.distance)]. *)
Definition sortByDistance {T} `{HasDistance T} (items : list T) : list T :=
  Js.sort (fun a b => distance a - distance b) (Js.spread items).

(** [filterByRadius(items, maxRadius)]:
    [items.filter(item => item.distance <= maxRadius)]. *)
Definition filterByRadius {T} `{HasDistance T}
    (items : list T) (maxRadius : Js.number) : list T :=
  Js.filter (fun item => distance item <=? maxRadius) items.

(** [isValidCoordinate(lat, lon)]. *)
Definition isValidCoordinate (lat lon : Js.number) : bool :=
  (lat >=? -90) && (lat <=? 90) && (lon >=? -180) && (lon <=? 180).

(** [isWithinNYC(lat, lon)]: the approximate bounding box of the city
    ([south], [north], [west], [east] of [nycBounds]). *)
Definition isWithinNYC (lat lon : Js.number) : bool :=
  (lat >=? 40.4774) && (lat <=? 40.9176) &&
  (lon >=? -74.2591) && (lon <=? -73.7004).

End apiUtils.

(** ** Arrays as objects: references into a store

    JavaScript arrays are mutable objects handled by reference.  To say which
    operations write to an existing array and which allocate, the array
    helpers are also embedded over a store of arrays, in a state monad that
    fails on a dangling reference. *)

Module Heap.

Definition ref := nat.

Section Store.

Context {T : Type}.

(** Cell [r] of the store holds the elements of the array at reference [r]. *)
Definition store := list (list T).

Definition M (A : Type) : Type := store -> option (A * store).

Definition ret {A} (a : A) : M A := fun h => Some (a, h).

Definition bind {A B} (m : M A) (k : A -> M B) : M B :=
  fun h => match m h with
           | Some (a, h') => k a h'
           | None => None
           end.

Definition lookup (h : store) (r : ref) : option (list T) := nth_error h r.

Fixpoint update (h : store) (r : ref) (a : list T) : store :=
  match h, r with
  | [], _ => []
  | _ :: h', O => a :: h'
  | c :: h', S r' => c :: update h' r' a
  end.

(** Reading the elements of an array. *)
Definition read (r : ref) : M (list T) :=
  fun h => match lookup h r with
           | Some a => Some (a, h)
           | None => None
           end.

(** Allocating a new array: a reference no array had before. *)
Definition alloc (a : list T) : M ref :=
  fun h => Some (List.length h, h ++ [a]).

(** Overwriting the elements of an existing array, in place. *)
Definition write (r : ref) (a : list T) : M unit :=
  fun h => match lookup h r with
           | Some _ => Some (tt, update h r a)
           | None => None
           end.

End Store.

Arguments store : clear implicits.
Arguments M : clear implicits.

Declare Scope heap_scope.
Delimit Scope heap_scope with heap.
Notation "x <- m ;; k" := (bind m (fun x => k))
  (at level 61, m at next level, right associativity) : heap_scope.
Notation "m ;; k" := (bind m (fun _ => k))
  (at level 61, right associativity) : heap_scope.

Local Open Scope heap_scope.

(** [arr.filter(callbackfn)] builds its result in a new array. *)
Definition Array_filter {T} (callbackfn : T -> bool) (arr : ref) : M T ref :=
  a <- read arr ;; alloc (Js.filter callbackfn a).

(** [[...arr]] copies the elements into a new array. *)
Definition Array_spread {T} (arr : ref) : M T ref :=
  a <- read arr ;; alloc (Js.spread a).

(** [arr.sort(comparefn)] sorts [arr] in place and returns [arr] itself. *)
Definition Array_sort {T} (comparefn : T -> T -> Js.number) (arr : ref)
  : M T ref :=
  a <- read arr ;; write arr (Js.sort comparefn a) ;; ret arr.

(** [apiUtils.sortByDistance] and [apiUtils.filterByRadius] on references. *)
Definition sortByDistance {T} `{HasDistance T} (items : ref) : M T ref :=
  copy <- Array_spread items ;;
  Array_sort (fun a b => distance a - distance b) copy.

Definition filterByRadius {T} `{HasDistance T}
    (items : ref) (maxRadius : Js.number) : M T ref :=
  Array_filter (fun item => distance item <=? maxRadius) items.

End Heap.

(** ** Exceptions *)

(** A call either returns a value or throws. *)
Inductive completion (A : Type) : Type :=
| Return (a : A)
| Throw (message : string).

Arguments Return {A} a.
Arguments Throw {A} message.

(** Sequencing: the first step that throws ends the evaluation. *)
Definition and_then {A B} (c : completion A) (k : A -> completion B)
  : completion B :=
  match c with
  | Return a => k a
  | Throw message => Throw message
  end.

Notation "'do' x <- c ; k" := (and_then c (fun x => k))
  (at level 10, x name, c at level 100, k at level 200).

(** ** The client-only [api] shim ([src/lib/api.ts], static-data variant) *)

Module apiShim.

(** [MeterRateRequest]. *)
Record MeterRateRequest := {
  lat : Js.number;
  lon : Js.number
}.

(** A row of [loadMeterZonesRaw()].  The provider module is not part of the
    sources at hand; the row type lists the fields [getMeterRate] reads. *)
Record MeterZone := {
  zone_lat : Js.number;          (* lat *)
  zone_long : Js.number;         (* long *)
  meter_number : string;
  meter_hours : string;
  zone_status : option string;   (* status, possibly undefined *)
  on_street : string;
  zone_borough : option string   (* borough, possibly undefined *)
}.

Record RateScheduleEntry := {
  hours : string;
  rate : string;
  rate_type : string
}.

(** [MeterRate], with the fields [getMeterRate] fills in. *)
Record MeterRate := {
  id : string;
  latitude : Js.number;
  longitude : Js.number;
  distance : Js.number;
  rate_schedule : list RateScheduleEntry;
  status : string;
  street_name : string;
  borough : option string
}.

(** The running best of the scan: [{ item, distance }]. *)
Record Best := {
  item : MeterZone;
  best_distance : Js.number      (* distance *)
}.

Section GetMeterRate.

(** [calculateDistance] of [./utils/geospatial] (not part of the sources at
    hand) takes two [[lat, lon]] pairs; [String.prototype.toLowerCase] is the
    built-in. *)
Variable calculateDistance :
  Js.number * Js.number -> Js.number * Js.number -> Js.number.
Variable toLowerCase : string -> string.

(** [const d = calculateDistance([params.lat, params.lon], [item.lat, item.long])]. *)
Definition distanceTo (params : MeterRateRequest) (item : MeterZone)
  : Js.number :=
  calculateDistance (lat params, lon params) (zone_lat item, zone_long item).

(** One turn of the loop:
    [if (!best || d < best.distance) best = { item, distance: d }]. *)
Definition scan_step (params : MeterRateRequest)
    (best : option Best) (item : MeterZone) : option Best :=
  let d := distanceTo params item in
  match best with
  | None => Some {| item := item; best_distance := d |}
  | Some b =>
      if d <? best_distance b
      then Some {| item := item; best_distance := d |}
      else best
  end.

(** [let best = null; for (const item of raw) { ... }]. *)
Definition scan (params : MeterRateRequest) (raw : list MeterZone)
  : option Best :=
  fold_left (scan_step params) raw None.

(** [z.status || 'unknown']: the empty string is falsy too. *)
Definition status_or_unknown (s : option string) : string :=
  match s with
  | None | Some EmptyString => "unknown"%string
  | Some s' => s'
  end.

(** The [MeterRate] built from the best row. *)
Definition toMeterRate (best : Best) : MeterRate :=
  let z := item best in
  {| id := meter_number z;
     latitude := zone_lat z;
     longitude := zone_long z;
     distance := best_distance best;
     rate_schedule :=
       [ {| hours := meter_hours z; rate := "0"; rate_type := "hourly" |} ];
     status := toLowerCase (status_or_unknown (zone_status z));
     street_name := on_street z;
     borough := option_map toLowerCase (zone_borough z) |}.

(** [getMeterRate(params)], given the rows [raw] that
    [await loadMeterZonesRaw()] produced. *)
Definition getMeterRate (params : MeterRateRequest) (raw : list MeterZone)
  : completion MeterRate :=
  match scan params raw with
  | None => Throw "No meter found"
  | Some best => Return (toMeterRate best)
  end.

End GetMeterRate.

End apiShim.

(** ** [validation] of [src/lib/utils.ts] *)

(** An argument of type [string | number]. *)
Inductive string_or_number : Type :=
| Str (s : string)
| Num (n : Js.number).

Module validation.

Section Validation.

(** The built-in [parseFloat]. *)
Variable parseFloat : string -> Js.number.

(** [typeof x === 'string' ? parseFloat(x) : x]. *)
Definition toNum (x : string_or_number) : Js.number :=
  match x with
  | Str s => parseFloat s
  | Num n => n
  end.

Definition isValidLatitude (lat : string_or_number) : bool :=
  let num := toNum lat in
  negb (Js.isNaN num) && (num >=? -90) && (num <=? 90).

Definition isValidLongitude (lon : string_or_number) : bool :=
  let num := toNum lon in
  negb (Js.isNaN num) && (num >=? -180) && (num <=? 180).

(** [!isNaN(num) && num > 0 && num <= 5000]  (max 5km radius). *)
Definition isValidRadius (radius : string_or_number) : bool :=
  let num := toNum radius in
  negb (Js.isNaN num) && (num >? 0) && (num <=? 5000).

(** The built-in [parseInt] and the year of [new Date()]. *)
Variable parseInt : string -> Js.number.

(** [isValidYear(year)], with [currentYear = new Date().getFullYear()]. *)
Definition isValidYear (currentYear : Js.number) (year : string_or_number)
  : bool :=
  let num := match year with Str s => parseInt s | Num n => n end in
  negb (Js.isNaN num) && (num >=? 2018) && (num <=? currentYear).

End Validation.

End validation.

(** ** The coordinate form ([src/components/forms/coordinate-input.tsx]) *)

Module CoordinateInput.

Record MapLocation := {
  latitude : Js.number;
  longitude : Js.number;
  address : option string
}.

(** The component's state and props, as far as submission reads them. *)
Record form := {
  latitude_input : string;       (* latitude *)
  longitude_input : string;      (* longitude *)
  radius_input : string;         (* radius *)
  showRadius : bool;
  hasOnRadiusChange : bool       (* whether onRadiusChange was passed *)
}.

(** The [errors] object: an absent key is [None]. *)
Record errors := {
  latitude_error : option string;
  longitude_error : option string;
  radius_error : option string
}.

(** What a submission does to the outside. *)
Inductive effect : Type :=
| setErrors (e : errors)
| onLocationSelect (location : MapLocation)
| onRadiusChange (radius : Js.number)
| addToSearchHistory (query : string) (location : MapLocation) (type : string).

Section Submit.

(** The built-ins [parseFloat] and [String.prototype.trim]. *)
Variable parseFloat : string -> Js.number.
Variable trim : string -> string.

(** [!s] on a string. *)
Definition is_empty (s : string) : bool :=
  match s with EmptyString => true | _ => false end.

(** The [newErrors] object that [validateInputs] builds. *)
Definition newErrors (f : form) : errors :=
  {| latitude_error :=
       if is_empty (trim (latitude_input f)) then Some "Latitude is required"
       else if negb (validation.isValidLatitude parseFloat (Str (latitude_input f)))
         then Some "Invalid latitude (-90 to 90)"
       else None;
     longitude_error :=
       if is_empty (trim (longitude_input f)) then Some "Longitude is required"
       else if negb (validation.isValidLongitude parseFloat (Str (longitude_input f)))
         then Some "Invalid longitude (-180 to 180)"
       else None;
     radius_error :=
       if showRadius f then
         if is_empty (trim (radius_input f)) then Some "Radius is required"
         else if negb (validation.isValidRadius parseFloat (Str (radius_input f)))
           then Some "Invalid radius (1-5000 meters)"
         else None
       else None |}%string.

(** [Object.keys(newErrors).length === 0]. *)
Definition no_errors (e : errors) : bool :=
  match latitude_error e, longitude_error e, radius_error e with
  | None, None, None => true
  | _, _, _ => false
  end.

(** [validateInputs()]: stores the errors and answers whether there are none. *)
Definition validateInputs (f : form) : list effect * bool :=
  ([setErrors (newErrors f)], no_errors (newErrors f)).

(** [handleSubmit(e)]: the effects of a submission, in order. *)
Definition handleSubmit (f : form) : list effect :=
  let (validated, ok) := validateInputs f in
  if negb ok then validated
  else
    let location :=
      {| latitude := parseFloat (latitude_input f);
         longitude := parseFloat (longitude_input f);
         address := None |} in
    validated
    ++ [onLocationSelect location]
    ++ (if showRadius f && hasOnRadiusChange f
        then [onRadiusChange (parseFloat (radius_input f))] else [])
    ++ [addToSearchHistory
          (latitude_input f ++ ", " ++ longitude_input f)%string
          location "coordinates"%string].

(** [isFormValid], which enables the submit button. *)
Definition isFormValid (f : form) : bool :=
  validation.isValidLatitude parseFloat (Str (latitude_input f)) &&
  validation.isValidLongitude parseFloat (Str (longitude_input f)) &&
  (negb (showRadius f) ||
   validation.isValidRadius parseFloat (Str (radius_input f))).

End Submit.

End CoordinateInput.

(** ** [storage] of [src/lib/utils.ts]: the search history *)

Module storage.

Record MapLocation := {
  latitude : Js.number;
  longitude : Js.number;
  address : option string
}.

(** [SearchHistoryItem]; [type] is ['address' | 'coordinates']. *)
Record SearchHistoryItem := {
  id : string;
  query : string;
  location : MapLocation;
  timestamp : string;
  type : string
}.

(** What [localStorage] holds under the key ['nyc-parking-search-history'].
    The text that [JSON.stringify] wrote for a history is identified with
    that history: [JSON.parse] gives back its items with their strings
    unchanged (only a non-finite coordinate would come back as [null]).  A
    text that [JSON.parse] rejects is [Malformed]. *)
Inductive cell : Type :=
| Missing                                   (* getItem answers null *)
| Malformed                                 (* JSON.parse throws *)
| Stored (history : list SearchHistoryItem).

(** [getSearchHistory()].  [window] tells whether the call runs in a browser
    ([typeof window !== 'undefined']). *)
Definition getSearchHistory (window : bool) (c : cell)
  : list SearchHistoryItem :=
  if negb window then []
  else match c with
       | Missing => []                      (* history ? ... : [] *)
       | Malformed => []                    (* catch { return [] } *)
       | Stored history => history
       end.

(** [addToSearchHistory(query, location, type)].  The identifier and the
    timestamp of the new item come from [crypto.randomUUID()] and
    [new Date().toISOString()]; they are inputs here.  The result is the new
    content of the storage cell. *)
Definition addToSearchHistory (window : bool) (uuid now : string)
    (query : string) (location : MapLocation) (type : string) (c : cell)
  : cell :=
  if negb window then c
  else
    let history := getSearchHistory window c in
    let newItem :=
      {| id := uuid; query := query; location := location;
         timestamp := now; type := type |} in
    (* Remove duplicates and keep only the latest 20 items *)
    let filteredHistory :=
      Js.filter (fun item => negb (String.eqb item.(storage.query) query))
        history in
    let filteredHistory := newItem :: filteredHistory in       (* unshift *)
    let limitedHistory := firstn 20 filteredHistory in         (* slice(0, 20) *)
    Stored limitedHistory.

(** [clearSearchHistory()]. *)
Definition clearSearchHistory (window : bool) (c : cell) : cell :=
  if negb window then c else Missing.

(** The contents the storage cell can have when only this module writes to
    it, starting from a browser profile that has no history yet. *)
Inductive reachable : cell -> Prop :=
| reach_init : reachable Missing
| reach_add window uuid now query location type c :
    reachable c ->
    reachable (addToSearchHistory window uuid now query location type c)
| reach_clear window c :
    reachable c -> reachable (clearSearchHistory window c).

(** *** Bookmarks *)

(** [BookmarkedLocation]; [type] is ['parking_sign' | 'meter' | 'custom']. *)
Record BookmarkedLocation := {
  bookmark_id : string;              (* id *)
  bookmark_name : string;            (* name *)
  bookmark_latitude : Js.number;     (* latitude *)
  bookmark_longitude : Js.number;    (* longitude *)
  bookmark_address : string;         (* address *)
  bookmark_type : string;            (* type *)
  created_at : string
}.

(** What [localStorage] holds under ['nyc-parking-bookmarks'], read as the
    history cell is. *)
Inductive bookmarks_cell : Type :=
| NoBookmarks                               (* getItem answers null *)
| MalformedBookmarks                        (* JSON.parse throws *)
| StoredBookmarks (bookmarks : list BookmarkedLocation).

(** [getBookmarks()]. *)
Definition getBookmarks (window : bool) (c : bookmarks_cell)
  : list BookmarkedLocation :=
  if negb window then []
  else match c with
       | NoBookmarks => []
       | MalformedBookmarks => []
       | StoredBookmarks bookmarks => bookmarks
       end.

(** [saveBookmark(location)]: [location] has every field but [id] and
    [created_at], which [crypto.randomUUID()] and [new Date().toISOString()]
    supply; the new bookmark is pushed at the end. *)
Definition saveBookmark (window : bool) (uuid now : string)
    (name : string) (latitude longitude : Js.number) (address type : string)
    (c : bookmarks_cell) : bookmarks_cell :=
  if negb window then c
  else
    let bookmarks := getBookmarks window c in
    let newBookmark :=
      {| bookmark_id := uuid; bookmark_name := name;
         bookmark_latitude := latitude; bookmark_longitude := longitude;
         bookmark_address := address; bookmark_type := type;
         created_at := now |} in
    StoredBookmarks (bookmarks ++ [newBookmark]).

(** [removeBookmark(id)]. *)
Definition removeBookmark (window : bool) (id : string) (c : bookmarks_cell)
  : bookmarks_cell :=
  if negb window then c
  else
    StoredBookmarks
      (Js.filter (fun b => negb (String.eqb (bookmark_id b) id))
         (getBookmarks window c)).

End storage.

(** ** Untyped values: what a response body of type [any] can be *)

Module JsValue.

Inductive value : Type :=
| VUndefined
| VNull
| VBool (b : bool)
| VNum (n : Js.number)
| VStr (s : string)
| VArr (elements : list value)
| VObj (properties : list (string * value)).

Definition typeof (v : value) : string :=
  match v with
  | VUndefined => "undefined"
  | VNull => "object"
  | VBool _ => "boolean"
  | VNum _ => "number"
  | VStr _ => "string"
  | VArr _ | VObj _ => "object"
  end.

Definition isArray (v : value) : bool :=
  match v with VArr _ => true | _ => false end.

(** The elements of a value known to be an array. *)
Definition elements (v : value) : list value :=
  match v with VArr l => l | _ => [] end.

(** [null] or [undefined]. *)
Definition nullish (v : value) : bool :=
  match v with VUndefined | VNull => true | _ => false end.

(** [a ?? b]. *)
Definition coalesce (a b : value) : value := if nullish a then b else a.

Fixpoint assoc (key : string) (properties : list (string * value)) : value :=
  match properties with
  | [] => VUndefined
  | (k, v) :: rest => if String.eqb k key then v else assoc key rest
  end.

(** [v.key] on a value that is neither [null] nor [undefined].  The property
    names read in this file are data field names; none of them is an own or
    inherited property of an array, a string, a number or a boolean, so
    reading them there gives [undefined]. *)
Definition prop (v : value) (key : string) : value :=
  match v with
  | VObj properties => assoc key properties
  | _ => VUndefined
  end.

(** [v?.key]. *)
Definition opt_prop (v : value) (key : string) : value :=
  if nullish v then VUndefined else prop v key.

(** The index of [Array.prototype.map]'s callback, as a number. *)
Definition of_index (i : nat) : Js.number :=
  of_uint63 (Uint63Axioms.of_Z (Z.of_nat i)).

(** Whether an object has an own property named [key]. *)
Definition has_own (key : string) (properties : list (string * value))
  : bool :=
  existsb (fun p => String.eqb (fst p) key) properties.

Section Conversions.

(** The two string/number conversions of the language ([Number::toString]
    and [StringToNumber]) are taken as given. *)
Variable numberToString : Js.number -> string.
Variable stringToNumber : string -> Js.number.

(** [String(v)].  An array prints as its elements joined by commas, with
    nothing for [null] and [undefined] elements.  An object is asked for its
    [toString] method and then for [valueOf]: in an object read from a
    response body an own property [toString] is a piece of data, not a
    function, the inherited [valueOf] gives the object back, and the
    conversion throws a [TypeError]; without such a property the inherited
    [toString] answers ["[object Object]"]. *)
Fixpoint toString (v : value) : completion string :=
  match v with
  | VUndefined => Return "undefined"
  | VNull => Return "null"
  | VBool true => Return "true"
  | VBool false => Return "false"
  | VNum n => Return (numberToString n)
  | VStr s => Return s
  | VArr elements =>
      do parts <-
        (fix each (l : list value) : completion (list string) :=
           match l with
           | [] => Return []
           | e :: l' =>
               do s <- (if nullish e then Return "" else toString e) ;
               do rest <- each l' ;
               Return (s :: rest)
           end) elements ;
      Return (String.concat "," parts)
  | VObj properties =>
      if has_own "toString" properties then Throw "TypeError"
      else Return "[object Object]"
  end%string.

(** The strings of the elements of an array, [null] and [undefined] giving
    the empty string; the first element that cannot be converted throws. *)
Fixpoint strings_of (elements : list value) : completion (list string) :=
  match elements with
  | [] => Return []
  | e :: rest =>
      do s <- (if nullish e then Return ""%string else toString e) ;
      do strings <- strings_of rest ;
      Return (s :: strings)
  end.

(** [arr.join(separator)]. *)
Definition join (separator : string) (elements : list value)
  : completion string :=
  do parts <- strings_of elements ;
  Return (String.concat separator parts).

(** [Number(v)]: objects and arrays go through their string form, and throw
    when that throws. *)
Definition toNumber (v : value) : completion Js.number :=
  match v with
  | VUndefined => Return nan
  | VNull => Return 0
  | VBool true => Return 1
  | VBool false => Return 0
  | VNum n => Return n
  | VStr s => Return (stringToNumber s)
  | VArr _ | VObj _ => do s <- toString v ; Return (stringToNumber s)
  end.

End Conversions.

End JsValue.

(** ** The HTTP [api] client, shape-sniffing variant of [getParkingSigns] *)

Module apiClient.

Import JsValue.

Section GetParkingSigns.

Variable numberToString : Js.number -> string.
Variable stringToNumber : string -> Js.number.

Let Number_ := toNumber numberToString stringToNumber.
Let String_ := toString numberToString.

Infix "??" := coalesce (at level 45, left associativity).

(** The list found in the response body [raw]: the body itself, or the array
    under [results], [data], [parking_signs] or [signs], or the empty list. *)
Definition list_of (raw : value) : list value :=
  if isArray raw then elements raw
  else if isArray (opt_prop raw "results")
    then elements (opt_prop raw "results")
  else if isArray (opt_prop raw "data")
    then elements (opt_prop raw "data")
  else if isArray (opt_prop raw "parking_signs")
    then elements (opt_prop raw "parking_signs")
  else if isArray (opt_prop raw "signs")
    then elements (opt_prop raw "signs")
  else [].

(** [a ?? b] where evaluating [b] can throw: the right operand is evaluated
    only when the left one is [null] or [undefined]. *)
Definition coalesce_with (a : value) (b : completion value)
  : completion value :=
  if nullish a then b else Return a.

(** The callback of [list.map]: the [ParkingSign] object built from [item].
    The first thing it does is read a property of [item], which throws a
    [TypeError] when [item] is [null] or [undefined]; after that each
    [Number(...)] and [String(...)] can throw, and so can
    [item.regulations.join(' ')], which is evaluated only when
    [item.description] is [null] or [undefined]. *)
Definition toParkingSign (item : value) (index : nat) : completion value :=
  if nullish item then Throw "TypeError"
  else
    do latitude <- Number_ (prop item "latitude" ?? prop item "lat") ;
    do longitude <- Number_ (prop item "longitude" ?? prop item "lon") ;
    do distance <-
      Number_ (prop item "distance" ?? prop item "dist" ?? VNum 0) ;
    do street_name <-
      String_ (prop item "street_name" ?? prop item "street" ?? VStr "") ;
    do described <-
      coalesce_with (prop item "description")
        (match prop item "regulations" with
         | VArr regulations =>
             do joined <- join numberToString " " regulations ;
             Return (VStr joined)
         | _ => Return (VStr "")
         end) ;
    do description <- String_ (described ?? VStr "") ;
    do id <-
      String_
        (prop item "id" ?? prop item "sign_id"
         ?? VStr (numberToString latitude ++ "," ++
                  numberToString longitude ++ "," ++
                  numberToString (of_index index))) ;
    Return (VObj
      [ ("id", VStr id);
        ("latitude", VNum latitude);
        ("longitude", VNum longitude);
        ("distance", VNum distance);
        ("description", VStr description);
        ("street_name", VStr street_name);
        ("sign_type", prop item "sign_type");
        ("regulations",
         if isArray (prop item "regulations") then prop item "regulations"
         else VUndefined);
        ("borough", prop item "borough");
        ("created_at", prop item "created_at");
        ("updated_at", prop item "updated_at") ])%string.

(** [list.map(callback)] from position [index] on: the first callback that
    throws ends the call. *)
Fixpoint map_from (index : nat) (items : list value)
  : completion (list value) :=
  match items with
  | [] => Return []
  | item :: rest =>
      match toParkingSign item index with
      | Throw e => Throw e
      | Return sign =>
          match map_from (S index) rest with
          | Throw e => Throw e
          | Return signs => Return (sign :: signs)
          end
      end
  end.

(** [getParkingSigns(params)], given the body [raw] of the response. *)
Definition getParkingSigns (raw : value) : completion (list value) :=
  map_from 0 (list_of raw).

End GetParkingSigns.

End apiClient.

(** ** [constants] and [urlUtils] of [src/lib/utils.ts] *)

Module constants.

Definition NYC_CENTER : storage.MapLocation :=
  {| storage.latitude := 40.7128; storage.longitude := -74.0060;
     storage.address := None |}.

Definition DEFAULT_RADIUS : Js.number := 500.
Definition MAX_RADIUS : Js.number := 5000.

End constants.

(** A string is truthy when it is not empty; [null] is falsy. *)
Definition truthy (s : option string) : bool :=
  match s with
  | None | Some EmptyString => false
  | Some _ => true
  end.

Module urlUtils.

Section ParseLocation.

Variable parseFloat : string -> Js.number.

(** The test and the object shared by [parseLocationFromURL] and the pages:
    [lat && lon && isValidLatitude(lat) && isValidLongitude(lon)], then
    [{ latitude: parseFloat(lat), longitude: parseFloat(lon),
       address: address || undefined }]. *)
Definition locationFromParams (get : string -> option string)
  : option storage.MapLocation :=
  let lat := get "lat"%string in
  let lon := get "lon"%string in
  let address := get "address"%string in
  match lat, lon with
  | Some lat', Some lon' =>
      if truthy lat && truthy lon &&
         validation.isValidLatitude parseFloat (Str lat') &&
         validation.isValidLongitude parseFloat (Str lon')
      then Some {| storage.latitude := parseFloat lat';
                   storage.longitude := parseFloat lon';
                   storage.address :=
                     if truthy address then address else None |}
      else None
  | _, _ => None
  end.

(** [parseLocationFromURL()]; [get] is [URLSearchParams.get] on
    [window.location.search], which answers [null] for a missing name. *)
Definition parseLocationFromURL (window : bool)
    (get : string -> option string) : option storage.MapLocation :=
  if negb window then None else locationFromParams get.

End ParseLocation.

End urlUtils.

(** ** The parking-signs page ([ParkingSignsContent]) *)

Module ParkingSignsPage.

(** [ParkingSign], with the fields the page reads. *)
Record ParkingSign := {
  id : string;
  latitude : Js.number;
  longitude : Js.number;
  sign_distance : Js.number;       (* distance *)
  description : string;
  street_name : string;
  borough : option string
}.

#[export] Instance ParkingSign_HasDistance : HasDistance ParkingSign :=
  sign_distance.

(** The [sortBy] state: ['distance' | 'street_name']. *)
Inductive sort_key : Type := by_distance | by_street_name.

Section Page.

Variable parseFloat : string -> Js.number.

(** The built-ins [String.prototype.toLowerCase], [includes] and
    [localeCompare]. *)
Variable toLowerCase : string -> string.
Variable includes : string -> string -> bool.
Variable localeCompare : string -> string -> Js.number.

(** The initial [searchLocation]: the location of the URL parameters when
    they validate, [constants.NYC_CENTER] otherwise. *)
Definition initialSearchLocation (get : string -> option string)
  : storage.MapLocation :=
  match urlUtils.locationFromParams parseFloat get with
  | Some location => location
  | None => constants.NYC_CENTER
  end.

(** The [enabled] flag of the query. *)
Definition enabled (searchLocation : storage.MapLocation) : bool :=
  apiUtils.isValidCoordinate
    (storage.latitude searchLocation) (storage.longitude searchLocation).

(** The callback of the search-term filter. *)
Definition matches_term (term : string) (sign : ParkingSign) : bool :=
  includes (toLowerCase (description sign)) term ||
  includes (toLowerCase (street_name sign)) term ||
  match borough sign with
  | Some b => negb (CoordinateInput.is_empty b) &&
              includes (toLowerCase b) term
  | None => false
  end.

(** [filteredAndSortedSigns]: a copy of [parkingSigns], filtered by the
    search term when there is one and by borough unless it is ['all'], then
    sorted in place by the chosen key. *)
Definition filteredAndSortedSigns (parkingSigns : list ParkingSign)
    (searchTerm filterBorough : string) (sortBy : sort_key)
  : list ParkingSign :=
  let filtered := Js.spread parkingSigns in
  let filtered :=
    if negb (CoordinateInput.is_empty searchTerm) then
      let term := toLowerCase searchTerm in
      Js.filter (matches_term term) filtered
    else filtered in
  let filtered :=
    if negb (String.eqb filterBorough "all") then
      Js.filter
        (fun sign =>
           match borough sign with
           | Some b => String.eqb b filterBorough
           | None => false
           end)
        filtered
    else filtered in
  match sortBy with
  | by_distance => Js.sort (fun a b => distance a - distance b) filtered
  | by_street_name =>
      Js.sort (fun a b => localeCompare (street_name a) (street_name b))
        filtered
  end.

(** The same computation on references: [filtered] starts as the spread
    copy, each filter that applies makes a new array, and [filtered.sort]
    sorts the last one in place; the reference of [filtered] is returned. *)
Definition filteredAndSortedSigns_ref (parkingSigns : Heap.ref)
    (searchTerm filterBorough : string) (sortBy : sort_key)
  : Heap.M ParkingSign Heap.ref :=
  Heap.bind (Heap.Array_spread parkingSigns) (fun filtered =>
  Heap.bind
    (if negb (CoordinateInput.is_empty searchTerm) then
       let term := toLowerCase searchTerm in
       Heap.Array_filter (matches_term term) filtered
     else Heap.ret filtered) (fun filtered =>
  Heap.bind
    (if negb (String.eqb filterBorough "all") then
       Heap.Array_filter
         (fun sign =>
            match borough sign with
            | Some b => String.eqb b filterBorough
            | None => false
            end)
         filtered
     else Heap.ret filtered) (fun filtered =>
  match sortBy with
  | by_distance =>
      Heap.Array_sort (fun a b => distance a - distance b) filtered
  | by_street_name =>
      Heap.Array_sort
        (fun a b => localeCompare (street_name a) (street_name b)) filtered
  end))).

End Page.

End ParkingSignsPage.

(* ================================================================== *)
(** * Part II. Facts about binary64 comparison and subtraction         *)
(* ================================================================== *)

(** The primitive operations are specified by [FloatAxioms] through
    [Prim2SF] and the reference implementation of [SpecFloat]; every fact
    below is derived from that specification. *)

Module NumberFacts.

Local Open Scope Z_scope.

Definition SFnan (x : spec_float) : bool :=
  match x with S754_nan => true | _ => false end.

Ltac sf_destruct :=
  repeat match goal with
  | x : spec_float |- _ => destruct x as [[]|[]| |[] ? ?]
  end.

Ltac cmp_cases :=
  repeat match goal with
  | |- context [Z.compare ?a ?b] => destruct (Z.compare_spec a b)
  | H : context [Z.compare ?a ?b] |- _ => destruct (Z.compare_spec a b)
  | |- context [Pos.compare_cont Eq ?a ?b] =>
      change (Pos.compare_cont Eq a b) with (Pos.compare a b);
      destruct (Pos.compare_spec a b)
  | H : context [Pos.compare_cont Eq ?a ?b] |- _ =>
      change (Pos.compare_cont Eq a b) with (Pos.compare a b) in H;
      destruct (Pos.compare_spec a b)
  end.

Ltac some_inv :=
  repeat match goal with
  | H : Some _ = Some _ |- _ => injection H as H; try subst
  | H : Some _ = None |- _ => discriminate H
  | H : None = Some _ |- _ => discriminate H
  end.

Ltac sf_solve :=
  intros; sf_destruct; simpl in *; try congruence; some_inv; simpl;
  try congruence;
  cmp_cases; simpl in *; some_inv; simpl; try congruence; try lia.

(** *** [SFcompare] is a total preorder away from [NaN] *)

Lemma SFcompare_refl x : SFnan x = false -> SFcompare x x = Some Eq.
Proof. sf_solve. Qed.

Lemma SFcompare_none x y :
  SFcompare x y = None <-> SFnan x = true \/ SFnan y = true.
Proof. split; [|intros []]; sf_solve; auto. Qed.

Lemma SFcompare_antisym x y c :
  SFcompare x y = Some c -> SFcompare y x = Some (CompOpp c).
Proof. sf_solve. Qed.

Lemma SFcompare_lt_trans x y z :
  SFcompare x y = Some Lt -> SFcompare y z = Some Lt ->
  SFcompare x z = Some Lt.
Proof. sf_solve. Qed.

Lemma SFcompare_eq_l x y z c :
  SFcompare x y = Some Eq -> SFcompare y z = Some c ->
  SFcompare x z = Some c.
Proof. sf_solve. Qed.

Lemma SFcompare_eq_r x y z c :
  SFcompare x y = Some c -> SFcompare y z = Some Eq ->
  SFcompare x z = Some c.
Proof. sf_solve. Qed.

(** *** Shifts and digit counts of the reference implementation *)

Abbreviation emin := (SpecFloat.emin prec emax).
Abbreviation fexp := (SpecFloat.fexp prec emax).

Lemma emin_value : emin = -1074.
Proof. reflexivity. Qed.

Lemma fexp_spec k : fexp k = Z.max (k - 53) (-1074).
Proof. reflexivity. Qed.

Lemma digits2_size p : digits2_pos p = Pos.size p.
Proof. induction p; simpl; congruence. Qed.

Lemma digits2_lower p : 2 ^ (Z.pos (digits2_pos p) - 1) <= Z.pos p.
Proof.
  rewrite digits2_size.
  pose proof (Pos.size_le p) as H.
  apply Pos2Z.pos_le_pos in H. rewrite Pos2Z.inj_pow in H.
  replace (Z.pos (Pos.size p)) with (Z.succ (Z.pos (Pos.size p) - 1)) in H
    by lia.
  rewrite Z.pow_succ_r in H by lia. lia.
Qed.

Lemma digits2_upper p : Z.pos p < 2 ^ Z.pos (digits2_pos p).
Proof.
  rewrite digits2_size.
  pose proof (Pos.size_gt p) as H.
  apply Pos2Z.pos_lt_pos in H. now rewrite Pos2Z.inj_pow in H.
Qed.

Lemma iter_pos_nat {A} (f : A -> A) p x :
  iter_pos f p x = Nat.iter (Pos.to_nat p) f x.
Proof.
  revert x; induction p as [p IH|p IH|]; intros x; cbn [iter_pos].
  - rewrite !IH, Pos2Nat.inj_xI.
    replace (S (2 * Pos.to_nat p))
      with (Pos.to_nat p + (Pos.to_nat p + 1))%nat by lia.
    rewrite !Nat.iter_add. simpl. reflexivity.
  - rewrite !IH, Pos2Nat.inj_xO.
    replace (2 * Pos.to_nat p)%nat
      with (Pos.to_nat p + Pos.to_nat p)%nat by lia.
    now rewrite Nat.iter_add.
  - reflexivity.
Qed.

Lemma shr_1_m mrs : 0 <= shr_m mrs -> shr_m (shr_1 mrs) = shr_m mrs / 2.
Proof.
  destruct mrs as [m r s]; simpl. intros Hm.
  destruct m as [|[p|p|]|p]; simpl; try reflexivity; try lia.
  - rewrite Pos2Z.inj_xI. apply Z.div_unique with (r := 1); lia.
  - rewrite Pos2Z.inj_xO. apply Z.div_unique with (r := 0); lia.
Qed.

Lemma shr_iter_m n mrs :
  0 <= shr_m mrs ->
  shr_m (Nat.iter n shr_1 mrs) = shr_m mrs / 2 ^ Z.of_nat n.
Proof.
  intros Hm. induction n as [|n IH].
  - simpl. now rewrite Z.div_1_r.
  - rewrite Nat2Z.inj_succ. rewrite Z.pow_succ_r by apply Nat2Z.is_nonneg.
    rewrite Nat.iter_succ.
    assert (Hp : 0 < 2 ^ Z.of_nat n) by (apply Z.pow_pos_nonneg; lia).
    rewrite shr_1_m; rewrite IH.
    + rewrite Z.div_div by lia. f_equal; lia.
    + apply Z.div_pos; lia.
Qed.

(** Shifting right by fewer bits than the mantissa has leaves it positive. *)
Lemma shr_positive mrs e n :
  0 < shr_m mrs -> n < Zdigits2 (shr_m mrs) ->
  0 < shr_m (fst (shr mrs e n)) /\ e <= snd (shr mrs e n).
Proof.
  intros Hm Hn. destruct n as [|p|p]; simpl; try (split; [assumption|lia]).
  split; [|lia].
  rewrite iter_pos_nat, shr_iter_m, positive_nat_Z by lia.
  destruct (shr_m mrs) as [|q|q]; try lia. simpl in Hn.
  apply Z.div_str_pos. split; [apply Z.pow_pos_nonneg; lia|].
  transitivity (2 ^ (Z.pos (digits2_pos q) - 1)); [|apply digits2_lower].
  apply Z.pow_le_mono_r; lia.
Qed.

Lemma shr_record_of_loc_m m l : shr_m (shr_record_of_loc m l) = m.
Proof. now destruct l as [|[]]. Qed.

Lemma shr_fexp_positive m e l :
  emin <= e -> 0 < m ->
  0 < shr_m (fst (shr_fexp prec emax m e l)) /\
  emin <= snd (shr_fexp prec emax m e l).
Proof.
  intros He Hm. unfold shr_fexp.
  destruct (shr_positive (shr_record_of_loc m l) e
              (fexp (Zdigits2 m + e) - e)) as [H1 H2].
  - now rewrite shr_record_of_loc_m.
  - rewrite shr_record_of_loc_m, fexp_spec. rewrite emin_value in He.
    destruct m as [|q|q]; simpl Zdigits2; lia.
  - split; [assumption|lia].
Qed.

Lemma round_nearest_even_ge m l : m <= round_nearest_even m l.
Proof. destruct l as [|[]]; simpl; try destruct (Z.even m); lia. Qed.

(** A float is "signed [s]" when it is a non-zero finite number or an
    infinity, of sign [s]. *)
Definition SFsigned (s : bool) (x : spec_float) : Prop :=
  match x with
  | S754_finite s' _ _ | S754_infinity s' => s' = s
  | _ => False
  end.

(** Rounding a non-zero integer mantissa at an exponent that is not below
    [emin] never underflows to zero: the sign survives. *)
Lemma binary_round_aux_signed s m e l :
  emin <= e -> 0 < m -> SFsigned s (binary_round_aux prec emax s m e l).
Proof.
  intros He Hm. unfold binary_round_aux.
  destruct (shr_fexp_positive m e l He Hm) as [H1 H2].
  destruct (shr_fexp prec emax m e l) as [mrs' e']; simpl in H1, H2.
  pose proof (round_nearest_even_ge (shr_m mrs') (loc_of_shr_record mrs'))
    as Hr.
  destruct (shr_fexp_positive
              (round_nearest_even (shr_m mrs') (loc_of_shr_record mrs'))
              e' loc_Exact H2) as [H3 H4]; [lia|].
  destruct (shr_fexp prec emax _ e' loc_Exact) as [mrs'' e''];
    simpl in H3, H4.
  destruct (shr_m mrs'') as [|q|q]; try lia.
  destruct (e'' <=? emax - prec); reflexivity.
Qed.

Lemma shl_align_snd m e e' :
  emin <= e -> emin <= e' -> emin <= snd (shl_align m e e').
Proof. intros. unfold shl_align. destruct (e' - e); simpl; lia. Qed.

Lemma binary_round_signed s m e :
  emin <= e -> SFsigned s (binary_round prec emax s m e).
Proof.
  intros He. unfold binary_round.
  pose proof (shl_align_snd m e (fexp (Z.pos (digits2_pos m) + e)) He) as H.
  destruct (shl_align m e _) as [mz ez]; simpl in H.
  apply binary_round_aux_signed; [|lia].
  apply H. rewrite fexp_spec, emin_value. lia.
Qed.

Lemma iter_xO m d : Z.pos (Pos.iter xO m d) = Z.pos m * 2 ^ Z.pos d.
Proof.
  induction d as [|d IH] using Pos.peano_ind.
  - simpl. lia.
  - rewrite Pos.iter_succ, Pos2Z.inj_xO, IH, Pos2Z.inj_succ, Z.pow_succ_r;
      lia.
Qed.

Lemma shl_align_fst m e e' :
  e' <= e -> Z.pos (fst (shl_align m e e')) = Z.pos m * 2 ^ (e - e').
Proof.
  intros He. unfold shl_align.
  destruct (e' - e) as [|d|d] eqn:E; simpl; try lia.
  - replace (e - e') with 0 by lia. rewrite Z.pow_0_r. lia.
  - rewrite iter_xO. replace (e - e') with (Z.pos d) by lia. reflexivity.
Qed.

(** What validity says about a finite binary64: the exponent is at least
    [emin], the mantissa has at most 53 bits, and exactly 53 above [emin]. *)
Lemma valid_finite s m e :
  valid_binary (S754_finite s m e) = true ->
  emin <= e /\ Z.pos m < 2 ^ 53 /\ (emin < e -> 2 ^ 52 <= Z.pos m).
Proof.
  unfold valid_binary, bounded, canonical_mantissa.
  rewrite andb_true_iff, Z.eqb_eq, fexp_spec, emin_value. intros [Hc _].
  pose proof (digits2_lower m) as Hl. pose proof (digits2_upper m) as Hu.
  split; [lia|split].
  - eapply Z.lt_le_trans; [exact Hu|]. apply Z.pow_le_mono_r; lia.
  - intros He.
    replace (Z.pos (digits2_pos m) - 1) with 52 in Hl by lia. exact Hl.
Qed.

Lemma normalize_sign M e :
  emin <= e ->
  SFltb (S754_zero false) (binary_normalize prec emax M e false) = (0 <? M).
Proof.
  intros He. destruct M as [|p|p]; simpl; try reflexivity.
  - pose proof (binary_round_signed false p e He) as H.
    destruct (binary_round prec emax false p e) as [| | |];
      simpl in *; subst; easy.
  - pose proof (binary_round_signed true p e He) as H.
    destruct (binary_round prec emax true p e) as [| | |];
      simpl in *; subst; easy.
Qed.

Lemma pow2_ge_2 k : 0 < k -> 2 <= 2 ^ k.
Proof.
  intros Hk. change 2 with (2 ^ 1) at 1. apply Z.pow_le_mono_r; lia.
Qed.

(** On valid finite floats the order on (exponent, mantissa) pairs that
    [SFcompare] uses is the order of the mantissas aligned to a common
    exponent. *)
Lemma aligned_compare mx ex my ey :
  valid_binary (S754_finite false mx ex) = true ->
  valid_binary (S754_finite false my ey) = true ->
  let ez := Z.min ex ey in
  Z.compare (Z.pos (fst (shl_align mx ex ez)))
            (Z.pos (fst (shl_align my ey ez))) =
  match Z.compare ex ey with
  | Lt => Lt
  | Gt => Gt
  | Eq => Pos.compare_cont Eq mx my
  end.
Proof.
  intros Hx Hy ez.
  apply valid_finite in Hx, Hy.
  destruct Hx as (Hx1 & Hx2 & Hx3), Hy as (Hy1 & Hy2 & Hy3).
  rewrite !shl_align_fst by (unfold ez; lia).
  change (2 ^ 53) with 9007199254740992 in *.
  change (2 ^ 52) with 4503599627370496 in *.
  destruct (Z.compare_spec ex ey) as [E|E|E].
  - subst ey. unfold ez.
    rewrite Z.min_id, Z.sub_diag, Z.pow_0_r, !Z.mul_1_r. reflexivity.
  - unfold ez. rewrite Z.min_l, Z.sub_diag, Z.pow_0_r, Z.mul_1_r by lia.
    pose proof (pow2_ge_2 (ey - ex)). apply Z.compare_lt_iff. nia.
  - unfold ez. rewrite Z.min_r, Z.sub_diag, Z.pow_0_r, Z.mul_1_r by lia.
    pose proof (pow2_ge_2 (ex - ey)). apply Z.compare_gt_iff. nia.
Qed.

(** The sign of a difference is the outcome of the comparison: [x - y] is
    strictly positive exactly when [y < x].  This holds for every pair of
    valid binary64 values, [NaN] and the infinities included. *)
Lemma SFsub_sign x y :
  valid_binary x = true -> valid_binary y = true ->
  SFltb (S754_zero false) (SFsub prec emax x y) = SFltb y x.
Proof.
  intros Hx Hy.
  destruct x as [sx|sx| |sx mx ex], y as [sy|sy| |sy my ey];
    try reflexivity;
    try (destruct sx; reflexivity);
    try (destruct sy; reflexivity);
    try (destruct sx, sy; reflexivity).
  cbn [SFsub].
  pose proof (valid_finite _ _ _ Hx) as (Hx1 & _).
  pose proof (valid_finite _ _ _ Hy) as (Hy1 & _).
  rewrite normalize_sign by lia.
  pose proof (aligned_compare mx ex my ey Hx Hy) as Hc. cbn zeta in Hc.
  unfold SFltb, SFcompare.
  set (A := Z.pos (fst (shl_align mx ex (Z.min ex ey)))) in *.
  set (B := Z.pos (fst (shl_align my ey (Z.min ex ey)))) in *.
  assert (HA : 0 < A) by reflexivity. assert (HB : 0 < B) by reflexivity.
  clearbody A B.
  destruct (Z.compare_spec A B) as [E|E|E];
    destruct sx, sy; cbn [cond_Zopp];
    match goal with |- (0 <? ?X) = _ => destruct (Z.ltb_spec 0 X) end;
    try lia;
    cmp_cases; simpl; try congruence; try lia.
Qed.

Local Close Scope Z_scope.

(** *** The same facts on primitive floats *)

Lemma isNaN_spec x : Js.isNaN x = SFnan (Prim2SF x).
Proof.
  unfold Js.isNaN, is_nan. rewrite FloatAxioms.eqb_spec. unfold SFeqb.
  destruct (SFnan (Prim2SF x)) eqn:E.
  - destruct (Prim2SF x); try discriminate. reflexivity.
  - now rewrite SFcompare_refl.
Qed.

Lemma ltb_not_nan a b :
  (a <? b) = true -> Js.isNaN a = false /\ Js.isNaN b = false.
Proof.
  rewrite FloatAxioms.ltb_spec, !isNaN_spec. unfold SFltb.
  destruct (Prim2SF a), (Prim2SF b); simpl; auto; discriminate.
Qed.

Lemma leb_not_nan a b :
  (a <=? b) = true -> Js.isNaN a = false /\ Js.isNaN b = false.
Proof.
  rewrite FloatAxioms.leb_spec, !isNaN_spec. unfold SFleb.
  destruct (Prim2SF a), (Prim2SF b); simpl; auto; discriminate.
Qed.

Lemma leb_refl a : Js.isNaN a = false -> (a <=? a) = true.
Proof.
  rewrite FloatAxioms.leb_spec, isNaN_spec. unfold SFleb. intros H.
  now rewrite SFcompare_refl.
Qed.

(** Away from [NaN] the order is total: [a < b] is the negation of
    [b <= a]. *)
Lemma ltb_negb_leb a b :
  Js.isNaN a = false -> Js.isNaN b = false -> (a <? b) = negb (b <=? a).
Proof.
  rewrite FloatAxioms.ltb_spec, FloatAxioms.leb_spec, !isNaN_spec. unfold SFltb, SFleb.
  intros Ha Hb.
  destruct (SFcompare (Prim2SF a) (Prim2SF b)) as [c|] eqn:E.
  - rewrite (SFcompare_antisym _ _ _ E). now destruct c.
  - apply SFcompare_none in E. destruct E; congruence.
Qed.

Lemma ltb_leb a b : (a <? b) = true -> (a <=? b) = true.
Proof.
  rewrite FloatAxioms.ltb_spec, FloatAxioms.leb_spec. unfold SFltb, SFleb.
  now destruct (SFcompare _ _) as [[]|].
Qed.

Lemma ltb_asym a b : (a <? b) = true -> (b <=? a) = false.
Proof.
  intros H. destruct (ltb_not_nan _ _ H) as [Ha Hb].
  rewrite (ltb_negb_leb _ _ Ha Hb) in H. now destruct (b <=? a).
Qed.

Lemma leb_trans a b c :
  (a <=? b) = true -> (b <=? c) = true -> (a <=? c) = true.
Proof.
  rewrite !FloatAxioms.leb_spec. unfold SFleb.
  destruct (SFcompare (Prim2SF a) (Prim2SF b)) as [[]|] eqn:E1;
    try discriminate;
    destruct (SFcompare (Prim2SF b) (Prim2SF c)) as [[]|] eqn:E2;
    try discriminate; intros _ _.
  - now rewrite (SFcompare_eq_l _ _ _ _ E1 E2).
  - now rewrite (SFcompare_eq_l _ _ _ _ E1 E2).
  - now rewrite (SFcompare_eq_r _ _ _ _ E1 E2).
  - now rewrite (SFcompare_lt_trans _ _ _ E1 E2).
Qed.

Lemma ltb_leb_trans a b c :
  (a <? b) = true -> (b <=? c) = true -> (a <? c) = true.
Proof.
  rewrite !FloatAxioms.ltb_spec, FloatAxioms.leb_spec. unfold SFltb, SFleb.
  destruct (SFcompare (Prim2SF a) (Prim2SF b)) as [[]|] eqn:E1;
    try discriminate;
    destruct (SFcompare (Prim2SF b) (Prim2SF c)) as [[]|] eqn:E2;
    try discriminate; intros _ _.
  - now rewrite (SFcompare_eq_r _ _ _ _ E1 E2).
  - now rewrite (SFcompare_lt_trans _ _ _ E1 E2).
Qed.

Lemma leb_ltb_trans a b c :
  (a <=? b) = true -> (b <? c) = true -> (a <? c) = true.
Proof.
  rewrite !FloatAxioms.ltb_spec, FloatAxioms.leb_spec. unfold SFltb, SFleb.
  destruct (SFcompare (Prim2SF a) (Prim2SF b)) as [[]|] eqn:E1;
    try discriminate;
    destruct (SFcompare (Prim2SF b) (Prim2SF c)) as [[]|] eqn:E2;
    try discriminate; intros _ _.
  - now rewrite (SFcompare_eq_l _ _ _ _ E1 E2).
  - now rewrite (SFcompare_lt_trans _ _ _ E1 E2).
Qed.

Lemma ltb_trans a b c :
  (a <? b) = true -> (b <? c) = true -> (a <? c) = true.
Proof. intros H1 H2. eapply ltb_leb_trans; eauto using ltb_leb. Qed.

(** [==] on numbers is "neither is smaller". *)
Lemma eqb_leb a b : (a =? b) = (a <=? b) && (b <=? a).
Proof.
  rewrite FloatAxioms.eqb_spec, !FloatAxioms.leb_spec. unfold SFeqb, SFleb.
  destruct (SFcompare (Prim2SF a) (Prim2SF b)) as [c|] eqn:E.
  - rewrite (SFcompare_antisym _ _ _ E). now destruct c.
  - reflexivity.
Qed.

(** The comparator [a - b] of a numeric sort is positive exactly when
    [b < a], for all numbers ([NaN - x] is [NaN], which is not positive,
    and so is [Infinity - Infinity]). *)
Lemma sub_pos_ltb a b : (0 <? a - b) = (b <? a).
Proof.
  rewrite !FloatAxioms.ltb_spec, FloatAxioms.sub_spec.
  change (Prim2SF 0) with (S754_zero false).
  apply SFsub_sign; apply Prim2SF_valid.
Qed.

Lemma ltb_eqb_false a b d :
  (a <? b) = true -> (b =? d) = true -> (a =? d) = false.
Proof.
  intros Hab Hbd. rewrite eqb_leb in Hbd. apply andb_true_iff in Hbd.
  destruct Hbd as [Hbd _].
  rewrite eqb_leb. destruct (d <=? a) eqn:Hda; [|apply andb_false_r].
  pose proof (leb_ltb_trans _ _ _ Hda Hab) as Hlt.
  apply ltb_asym in Hlt. congruence.
Qed.

End NumberFacts.

(* ================================================================== *)
(** * Part III. The claims                                             *)
(* ================================================================== *)

(** ** C1: the borough classifier at Times Square *)

(** The first rule is the only one that answers ['manhattan']: it needs a
    latitude above 40.7589 and a longitude above -73.9441. *)
Lemma manhattan_rule (lat lon : Js.number) :
  apiUtils.getBoroughFromCoordinates lat lon = "manhattan"%string <->
  (40.7589 <? lat) = true /\ (-73.9441 <? lon) = true.
Proof.
  unfold apiUtils.getBoroughFromCoordinates, Js.gtb.
  destruct (40.7589 <? lat), (-73.9441 <? lon); cbn [andb];
    try (split; [tauto|reflexivity]);
    (split; [|intros [? ?]; discriminate]);
    repeat match goal with
    | |- context [if ?b then _ else _] => destruct b
    end; discriminate.
Qed.

(** The centre of the city, [constants.NYC_CENTER], lies below the
    ['manhattan'] rule and in the band of the ['queens'] rule. *)
Lemma city_centre_queens :
  apiUtils.getBoroughFromCoordinates
    (storage.latitude constants.NYC_CENTER)
    (storage.longitude constants.NYC_CENTER) = "queens"%string.
Proof. vm_compute. reflexivity. Qed.

(** C1: Times Square (latitude 40.7580, longitude -73.9855), the example
    point of the coordinate form, lies inside the bounding box of
    [isWithinNYC], and the classifier answers ['unknown'] there, not
    ['manhattan']: the ['manhattan'] rule starts above latitude 40.7589, the
    ['queens'] and ['brooklyn'] rules stop at 40.7394, and no rule covers the
    latitudes in between. *)
Theorem C1_times_square_unknown :
  apiUtils.isWithinNYC 40.7580 (-73.9855) = true /\
  apiUtils.getBoroughFromCoordinates 40.7580 (-73.9855) = "unknown"%string /\
  apiUtils.getBoroughFromCoordinates 40.7580 (-73.9855)
    <> "manhattan"%string.
Proof.
  split; [reflexivity|]. split; [vm_compute; reflexivity|].
  vm_compute. discriminate.
Qed.

(** ** C2: the radius filter *)

Section FilterByRadius.

Context {T : Type} `{HasDistance T}.

Lemma StronglySorted_map_S (idx : list nat) :
  StronglySorted lt idx -> StronglySorted lt (map S idx).
Proof.
  induction 1 as [|i idx Hs IH Hall]; simpl; constructor; auto.
  rewrite Forall_map. eapply Forall_impl; [|exact Hall]. simpl; lia.
Qed.

(** The positions kept by the filter: strictly increasing, exactly the
    positions of the records within the radius, and the output lists the
    records at those positions. *)
Lemma filterByRadius_positions (items : list T) (maxRadius : Js.number) :
  exists idx : list nat,
    StronglySorted lt idx /\
    (forall i, In i idx <->
       exists x, nth_error items i = Some x /\
                 (distance x <=? maxRadius) = true) /\
    map (nth_error items) idx =
    map Some (apiUtils.filterByRadius items maxRadius).
Proof.
  unfold apiUtils.filterByRadius, Js.filter.
  induction items as [|x items (idx & Hs & Hin & Hmap)].
  - exists []. repeat split; simpl; try constructor; try tauto.
    intros (x & Hx & _). now destruct i.
  - simpl. destruct (distance x <=? maxRadius) eqn:Hx.
    + exists (0%nat :: map S idx). repeat split.
      * constructor; [now apply StronglySorted_map_S|].
        rewrite Forall_map. apply Forall_forall. intros; lia.
      * intros [<-|Hi]; [now exists x|].
        apply in_map_iff in Hi. destruct Hi as (j & <- & Hj).
        simpl. now apply Hin.
      * intros (y & Hy & Hle). destruct i as [|j]; [now left|right].
        apply in_map. apply Hin. now exists y.
      * simpl. f_equal. rewrite map_map. exact Hmap.
    + exists (map S idx). repeat split.
      * now apply StronglySorted_map_S.
      * intros Hi. apply in_map_iff in Hi. destruct Hi as (j & <- & Hj).
        simpl. now apply Hin.
      * intros (y & Hy & Hle). destruct i as [|j].
        -- simpl in Hy. congruence.
        -- apply in_map. apply Hin. now exists y.
      * rewrite map_map. exact Hmap.
Qed.

(** C2: [filterByRadius] keeps exactly the records whose distance is at most
    the radius (a record at exactly the radius is kept), each once and in the
    input order: the output lists the records at a strictly increasing
    sequence of input positions, which are precisely the positions of the
    records within the radius.  The empty input gives the empty output. *)
Theorem C2_filterByRadius_exact (items : list T) (maxRadius : Js.number) :
  (exists idx : list nat,
     StronglySorted lt idx /\
     (forall i, In i idx <->
        exists x, nth_error items i = Some x /\
                  (distance x <=? maxRadius) = true) /\
     map (nth_error items) idx =
     map Some (apiUtils.filterByRadius items maxRadius)) /\
  (forall x, In x (apiUtils.filterByRadius items maxRadius) <->
             In x items /\ (distance x <=? maxRadius) = true) /\
  (forall x, (distance x =? maxRadius) = true -> In x items ->
             In x (apiUtils.filterByRadius items maxRadius)) /\
  apiUtils.filterByRadius (@nil T) maxRadius = [].
Proof.
  split; [apply filterByRadius_positions|].
  split; [intros x; apply filter_In|].
  split; [|reflexivity].
  intros x Hx Hin. apply filter_In. split; [assumption|].
  rewrite NumberFacts.eqb_leb in Hx. now apply andb_true_iff in Hx.
Qed.

End FilterByRadius.

(** ** C6: the ascending distance sort *)

Section SortByDistance.

Context {T : Type} `{HasDistance T}.

(** The comparator of [sortByDistance]. *)
Let byDistance (a b : T) : Js.number := distance a - distance b.

(** "[a] is not farther than [b]". *)
Definition notFarther (a b : T) : Prop :=
  (distance a <=? distance b) = true.

Lemma sort_insert_step x y l :
  Js.sort_insert byDistance x (y :: l) =
  if distance y <? distance x then y :: Js.sort_insert byDistance x l
  else x :: y :: l.
Proof.
  unfold byDistance. simpl. now rewrite NumberFacts.sub_pos_ltb.
Qed.

Lemma sort_insert_perm x l :
  Permutation (x :: l) (Js.sort_insert byDistance x l).
Proof.
  induction l as [|y l IH]; [reflexivity|].
  rewrite sort_insert_step. destruct (distance y <? distance x).
  - rewrite perm_swap. now constructor.
  - reflexivity.
Qed.

Lemma sort_perm l : Permutation l (Js.sort byDistance l).
Proof.
  induction l as [|x l IH]; simpl; [constructor|].
  rewrite <- sort_insert_perm. now constructor.
Qed.

(** Insertion only moves [x] past records that are strictly nearer, so the
    records at any one distance keep their order. *)
Lemma sort_insert_stable d x l :
  filter (fun r => distance r =? d) (Js.sort_insert byDistance x l) =
  filter (fun r => distance r =? d) (x :: l).
Proof.
  induction l as [|y l IH]; [reflexivity|].
  rewrite sort_insert_step. destruct (distance y <? distance x) eqn:Hyx.
  - cbn [filter] in *. rewrite IH.
    destruct (distance x =? d) eqn:Hx; [|reflexivity].
    now rewrite (NumberFacts.ltb_eqb_false _ _ _ Hyx Hx).
  - reflexivity.
Qed.

Lemma sort_stable d l :
  filter (fun r => distance r =? d) (Js.sort byDistance l) =
  filter (fun r => distance r =? d) l.
Proof.
  induction l as [|x l IH]; [reflexivity|].
  cbn [Js.sort fold_right]. rewrite sort_insert_stable.
  cbn [filter]. fold (Js.sort byDistance l). now rewrite IH.
Qed.

Lemma sort_insert_hd x y l :
  notFarther y x ->
  HdRel notFarther y l -> HdRel notFarther y (Js.sort_insert byDistance x l).
Proof.
  intros Hyx Hhd. destruct l as [|z l]; [now constructor|].
  rewrite sort_insert_step. inversion_clear Hhd.
  destruct (distance z <? distance x); now constructor.
Qed.

Lemma sort_insert_sorted x l :
  Js.isNaN (distance x) = false ->
  Forall (fun r => Js.isNaN (distance r) = false) l ->
  Sorted notFarther l -> Sorted notFarther (Js.sort_insert byDistance x l).
Proof.
  intros Hx Hl Hs. induction Hs as [|y l Hs IH Hhd]; [repeat constructor|].
  inversion_clear Hl as [|? ? Hy Hl'].
  rewrite sort_insert_step. destruct (distance y <? distance x) eqn:Hyx.
  - constructor; [now apply IH|].
    apply sort_insert_hd; [|assumption]. now apply NumberFacts.ltb_leb.
  - constructor; [now constructor|]. constructor. unfold notFarther.
    rewrite (NumberFacts.ltb_negb_leb _ _ Hy Hx) in Hyx.
    now destruct (distance x <=? distance y).
Qed.

Lemma sort_sorted l :
  Forall (fun r => Js.isNaN (distance r) = false) l ->
  Sorted notFarther (Js.sort byDistance l).
Proof.
  induction 1 as [|x l Hx Hl IH]; [constructor|].
  cbn [Js.sort fold_right]. apply sort_insert_sorted; try assumption.
  eapply Permutation_Forall; [apply sort_perm|exact Hl].
Qed.

Lemma Sorted_adjacent (R : T -> T -> Prop) l :
  Sorted R l ->
  forall i a b, nth_error l i = Some a -> nth_error l (S i) = Some b -> R a b.
Proof.
  induction 1 as [|x l Hs IH Hhd]; intros i a b Ha Hb.
  - now destruct i.
  - destruct i as [|i].
    + simpl in Ha, Hb. injection Ha as ->.
      destruct l as [|y l]; [discriminate|]. simpl in Hb. injection Hb as ->.
      now inversion_clear Hhd.
    + simpl in Ha. eapply IH; eauto.
Qed.

(** C6: on records whose distances are numbers (none is [NaN]),
    [sortByDistance] returns the records in ascending order of distance:
    every adjacent pair satisfies [result[i].distance <= result[i+1].distance].
    The sort is stable: for every distance value, the records at that distance
    appear in the output in their input order.  The output is a rearrangement
    of the input. *)
Theorem C6_sortByDistance_sorted_stable (items : list T) :
  Forall (fun r => Js.isNaN (distance r) = false) items ->
  (forall i a b,
      nth_error (apiUtils.sortByDistance items) i = Some a ->
      nth_error (apiUtils.sortByDistance items) (S i) = Some b ->
      (distance a <=? distance b) = true) /\
  (forall d,
      filter (fun r => distance r =? d) (apiUtils.sortByDistance items) =
      filter (fun r => distance r =? d) items) /\
  Permutation items (apiUtils.sortByDistance items).
Proof.
  intros Hnum. unfold apiUtils.sortByDistance, Js.spread.
  split; [|split].
  - apply (Sorted_adjacent notFarther). now apply sort_sorted.
  - intros d. apply sort_stable.
  - apply sort_perm.
Qed.

End SortByDistance.

(** ** C8: neither helper writes to its input array *)

Section NoMutation.

Context {T : Type} `{HasDistance T}.

Lemma lookup_alloc_old (h : Heap.store T) a r c :
  Heap.lookup h r = Some c -> Heap.lookup (h ++ [a]) r = Some c.
Proof.
  unfold Heap.lookup. intros Hr. rewrite nth_error_app1; [assumption|].
  apply nth_error_Some. congruence.
Qed.

Lemma lookup_alloc_new (h : Heap.store T) a :
  Heap.lookup (h ++ [a]) (List.length h) = Some a.
Proof.
  unfold Heap.lookup. rewrite nth_error_app2 by lia.
  now rewrite Nat.sub_diag.
Qed.

Lemma lookup_fresh (h : Heap.store T) : Heap.lookup h (List.length h) = None.
Proof. apply nth_error_None. lia. Qed.

Lemma lookup_update (h : Heap.store T) r a r0 :
  Heap.lookup (Heap.update h r a) r0 =
  if Nat.eqb r0 r then option_map (fun _ => a) (Heap.lookup h r)
  else Heap.lookup h r0.
Proof.
  unfold Heap.lookup. revert r r0.
  induction h as [|c h IH]; intros [|r] [|r0]; simpl; try reflexivity.
  - now destruct (Nat.eqb r0 r), r0.
  - apply IH.
Qed.

(** What a call leaves behind: the result is a reference that named no array
    before the call, it now holds [out], and every array that existed before
    the call (the input among them) has the elements it had. *)
Definition fresh_result (h : Heap.store T)
    (res : option (Heap.ref * Heap.store T)) (out : list T) : Prop :=
  exists r h',
    res = Some (r, h') /\
    Heap.lookup h r = None /\
    Heap.lookup h' r = Some out /\
    forall r0 a0, Heap.lookup h r0 = Some a0 -> Heap.lookup h' r0 = Some a0.

Lemma filterByRadius_fresh h items a maxRadius :
  Heap.lookup h items = Some a ->
  fresh_result h (Heap.filterByRadius items maxRadius h)
    (apiUtils.filterByRadius a maxRadius).
Proof.
  intros Ha.
  exists (List.length h), (h ++ [apiUtils.filterByRadius a maxRadius]).
  unfold Heap.filterByRadius, Heap.Array_filter, Heap.bind, Heap.read,
    Heap.alloc. rewrite Ha.
  repeat split.
  - apply lookup_fresh.
  - apply lookup_alloc_new.
  - intros r0 a0. apply lookup_alloc_old.
Qed.

Lemma sortByDistance_fresh h items a :
  Heap.lookup h items = Some a ->
  fresh_result h (Heap.sortByDistance items h) (apiUtils.sortByDistance a).
Proof.
  intros Ha.
  exists (List.length h),
    (Heap.update (h ++ [Js.spread a]) (List.length h)
       (apiUtils.sortByDistance a)).
  unfold Heap.sortByDistance, Heap.Array_spread, Heap.Array_sort, Heap.bind,
    Heap.read, Heap.write, Heap.alloc, Heap.ret.
  rewrite Ha. cbn iota beta. rewrite !lookup_alloc_new.
  repeat split.
  - apply lookup_fresh.
  - now rewrite lookup_update, Nat.eqb_refl, lookup_alloc_new.
  - intros r0 a0 Hr0. rewrite lookup_update.
    destruct (Nat.eqb_spec r0 (List.length h)) as [->|_].
    + rewrite lookup_fresh in Hr0. discriminate.
    + now apply lookup_alloc_old.
Qed.

(** C8: called on the reference [items] of an existing array with elements
    [a], both [filterByRadius] and [sortByDistance] return a reference that
    named no array before the call (a freshly allocated array, hence not the
    input), and afterwards every array that existed before the call holds the
    elements it held, in the same order; in particular the input still holds
    [a]. *)
Theorem C8_helpers_do_not_mutate_input
    (h : Heap.store T) (items : Heap.ref) (a : list T)
    (maxRadius : Js.number) :
  Heap.lookup h items = Some a ->
  (exists r h',
      Heap.filterByRadius items maxRadius h = Some (r, h') /\
      r <> items /\ Heap.lookup h r = None /\
      Heap.lookup h' items = Some a /\
      Heap.lookup h' r = Some (apiUtils.filterByRadius a maxRadius) /\
      forall r0 a0,
        Heap.lookup h r0 = Some a0 -> Heap.lookup h' r0 = Some a0) /\
  (exists r h',
      Heap.sortByDistance items h = Some (r, h') /\
      r <> items /\ Heap.lookup h r = None /\
      Heap.lookup h' items = Some a /\
      Heap.lookup h' r = Some (apiUtils.sortByDistance a) /\
      forall r0 a0,
        Heap.lookup h r0 = Some a0 -> Heap.lookup h' r0 = Some a0).
Proof.
  intros Ha. split.
  - destruct (filterByRadius_fresh h items a maxRadius Ha)
      as (r & h' & Hrun & Hnew & Hout & Hframe).
    exists r, h'. repeat split; auto. congruence.
  - destruct (sortByDistance_fresh h items a Ha)
      as (r & h' & Hrun & Hnew & Hout & Hframe).
    exists r, h'. repeat split; auto. congruence.
Qed.

End NoMutation.

(** ** C3 and C4: the nearest-meter scan of [getMeterRate] *)

Section NearestMeter.

Import apiShim.

Variable calculateDistance :
  Js.number * Js.number -> Js.number * Js.number -> Js.number.
Variable toLowerCase : string -> string.
Variable params : MeterRateRequest.

Let dist : MeterZone -> Js.number := distanceTo calculateDistance params.
Let step := scan_step calculateDistance params.

(** [b] is the first nearest row of the rows [seen] so far: it sits at some
    position [i], carries its own computed distance, no row is nearer, and
    every row before position [i] is strictly farther. *)
Definition first_nearest (seen : list MeterZone) (b : Best) : Prop :=
  exists i,
    nth_error seen i = Some (item b) /\
    best_distance b = dist (item b) /\
    (forall z, In z seen -> (dist (item b) <=? dist z) = true) /\
    (forall j z, (j < i)%nat -> nth_error seen j = Some z ->
                 (dist (item b) <? dist z) = true).

Lemma first_nearest_step seen b x :
  Js.isNaN (dist x) = false ->
  first_nearest seen b ->
  exists b', step (Some b) x = Some b' /\ first_nearest (seen ++ [x]) b'.
Proof.
  intros Hx (i & Hi & Hd & Hmin & Hbefore).
  assert (Hin : In (item b) seen) by (eapply nth_error_In; eauto).
  assert (Hb : Js.isNaN (dist (item b)) = false)
    by (apply (NumberFacts.leb_not_nan _ _ (Hmin _ Hin))).
  unfold step, scan_step. fold dist. rewrite Hd.
  destruct (dist x <? dist (item b)) eqn:Hlt.
  - eexists; split; [reflexivity|].
    exists (List.length seen). cbn [item best_distance]. repeat split.
    + rewrite nth_error_app2 by lia. now rewrite Nat.sub_diag.
    + intros z Hz. apply in_app_or in Hz. destruct Hz as [Hz|[<-|[]]].
      * apply NumberFacts.ltb_leb.
        eapply NumberFacts.ltb_leb_trans; [exact Hlt|now apply Hmin].
      * now apply NumberFacts.leb_refl.
    + intros j z Hj Hz. rewrite nth_error_app1 in Hz by assumption.
      eapply NumberFacts.ltb_leb_trans; [exact Hlt|].
      apply Hmin. eapply nth_error_In; eauto.
  - exists b; split; [reflexivity|].
    exists i. repeat split; try assumption.
    + rewrite nth_error_app1; [assumption|].
      apply nth_error_Some. congruence.
    + intros z Hz. apply in_app_or in Hz. destruct Hz as [Hz|[<-|[]]].
      * now apply Hmin.
      * rewrite (NumberFacts.ltb_negb_leb _ _ Hx Hb) in Hlt.
        now destruct (dist (item b) <=? dist x).
    + intros j z Hj Hz. apply (Hbefore j z Hj).
      rewrite nth_error_app1 in Hz; [assumption|].
      assert (i < List.length seen)%nat by (apply nth_error_Some; congruence).
      lia.
Qed.

Lemma first_nearest_scan rest :
  Forall (fun z => Js.isNaN (dist z) = false) rest ->
  forall seen b,
    first_nearest seen b ->
    exists b', fold_left step rest (Some b) = Some b' /\
               first_nearest (seen ++ rest) b'.
Proof.
  induction 1 as [|x rest Hx Hrest IH]; intros seen b Hb.
  - exists b. now rewrite app_nil_r.
  - destruct (first_nearest_step seen b x Hx Hb) as (b1 & Hstep & Hb1).
    destruct (IH _ _ Hb1) as (b' & Hfold & Hb').
    exists b'. cbn [fold_left]. rewrite Hstep.
    split; [exact Hfold|]. now rewrite <- app_assoc in Hb'.
Qed.

(** The scan never comes back empty-handed from a non-empty list, whatever
    the distances are, and what it holds is a row with its own distance. *)
Definition own_distance (b : Best) : Prop := best_distance b = dist (item b).

Lemma scan_step_some best x :
  (forall b, best = Some b -> own_distance b) ->
  exists b', step best x = Some b' /\ own_distance b' /\
             (item b' = x \/ best = Some b').
Proof.
  intros Hown. unfold step, scan_step. destruct best as [b|].
  - destruct (_ <? _); eexists; (split; [reflexivity|]); split; auto.
    reflexivity.
  - eexists; split; [reflexivity|]. split; [reflexivity|now left].
Qed.

Lemma scan_from_some rest b :
  own_distance b ->
  exists b', fold_left step rest (Some b) = Some b' /\ own_distance b' /\
             (item b' = item b \/ In (item b') rest).
Proof.
  revert b. induction rest as [|x rest IH]; intros b Hb.
  - exists b. split; [reflexivity|]. split; [assumption|now left].
  - cbn [fold_left].
    destruct (scan_step_some (Some b) x) as (b1 & -> & Hown1 & Hb1).
    { now intros ? [= <-]. }
    destruct (IH b1 Hown1) as (b' & Hfold & Hown' & Hb').
    exists b'. split; [exact Hfold|]. split; [assumption|].
    destruct Hb' as [->|Hin]; [|right; now right].
    destruct Hb1 as [<-|[= ->]]; [right|]; now left.
Qed.

(** The first nearest row, in terms of the scan's own bookkeeping. *)
Lemma scan_first_nearest (raw : list MeterZone) :
  raw <> [] ->
  Forall (fun z => Js.isNaN (dist z) = false) raw ->
  exists i z,
    nth_error raw i = Some z /\
    getMeterRate calculateDistance toLowerCase params raw =
      Return (toMeterRate toLowerCase
                {| item := z; best_distance := dist z |}) /\
    (forall z', In z' raw -> (dist z <=? dist z') = true) /\
    (forall j z', (j < i)%nat -> nth_error raw j = Some z' ->
                  (dist z <? dist z') = true).
Proof.
  intros Hne Hnum. destruct raw as [|x rest]; [congruence|].
  inversion_clear Hnum as [|? ? Hx Hrest].
  assert (H0 : first_nearest [x] {| item := x; best_distance := dist x |}).
  { exists 0%nat. cbn [item best_distance]. repeat split.
    - intros z [<-|[]]. now apply NumberFacts.leb_refl.
    - intros j z Hj. lia. }
  destruct (first_nearest_scan rest Hrest _ _ H0)
    as ([z d] & Hfold & i & Hi & Hd & Hmin & Hbefore).
  cbn [item best_distance] in *. subst d.
  exists i, z. repeat split; try assumption.
  unfold getMeterRate, scan. cbn [fold_left].
  change (scan_step calculateDistance params None x)
    with (Some {| item := x; best_distance := dist x |}).
  fold step. now rewrite Hfold.
Qed.

(** C3: the distance of a row to the centre is
    [calculateDistance([params.lat, params.lon], [row.lat, row.long])].  On a
    non-empty list of rows for which these distances are numbers (none is
    [NaN]), [getMeterRate] returns a meter that carries the number, the
    coordinates and the distance to the centre of the row at some position
    [i], such that no row of the list is nearer to the centre and every row
    before position [i] is strictly farther: the nearest row, and the first
    one in input order among the rows at the same minimal distance. *)
Theorem C3_getMeterRate_first_nearest (raw : list MeterZone) :
  raw <> [] ->
  Forall
    (fun row =>
       Js.isNaN
         (calculateDistance (lat params, lon params)
            (zone_lat row, zone_long row)) = false)
    raw ->
  exists i nearest meter,
    nth_error raw i = Some nearest /\
    getMeterRate calculateDistance toLowerCase params raw = Return meter /\
    apiShim.id meter = meter_number nearest /\
    apiShim.latitude meter = zone_lat nearest /\
    apiShim.longitude meter = zone_long nearest /\
    apiShim.distance meter =
      calculateDistance (lat params, lon params)
        (zone_lat nearest, zone_long nearest) /\
    (forall row,
        In row raw ->
        (calculateDistance (lat params, lon params)
           (zone_lat nearest, zone_long nearest)
         <=? calculateDistance (lat params, lon params)
               (zone_lat row, zone_long row)) = true) /\
    (forall j row,
        (j < i)%nat -> nth_error raw j = Some row ->
        (calculateDistance (lat params, lon params)
           (zone_lat nearest, zone_long nearest)
         <? calculateDistance (lat params, lon params)
              (zone_lat row, zone_long row)) = true).
Proof.
  intros Hne Hnum.
  destruct (scan_first_nearest raw Hne Hnum)
    as (i & nearest & Hi & Hret & Hmin & Hbefore).
  exists i, nearest. eexists.
  split; [exact Hi|]. split; [exact Hret|].
  repeat split; [exact Hmin|exact Hbefore].
Qed.

(** C4: [getMeterRate] throws its "No meter found" error exactly when the
    list of rows is empty (and throws nothing else); on every non-empty list
    it returns one meter, built from a row of the list with the distance
    computed for that row, whatever that distance is: there is no cutoff. *)
Theorem C4_getMeterRate_not_found_iff_empty (raw : list MeterZone) :
  (getMeterRate calculateDistance toLowerCase params raw
     = Throw "No meter found" <-> raw = []) /\
  ((exists message,
       getMeterRate calculateDistance toLowerCase params raw = Throw message)
     <-> raw = []) /\
  (raw <> [] ->
   exists z, In z raw /\
     getMeterRate calculateDistance toLowerCase params raw =
       Return (toMeterRate toLowerCase
                 {| item := z; best_distance := dist z |})).
Proof.
  assert (Hsome : raw <> [] ->
    exists z, In z raw /\
      getMeterRate calculateDistance toLowerCase params raw =
        Return (toMeterRate toLowerCase
                  {| item := z; best_distance := dist z |})).
  { intros Hne. destruct raw as [|x rest]; [congruence|].
    unfold getMeterRate, scan. cbn [fold_left].
    change (scan_step calculateDistance params None x)
      with (Some {| item := x; best_distance := dist x |}).
    fold step.
    destruct (scan_from_some rest {| item := x; best_distance := dist x |})
      as ([z d] & -> & Hown & Hz); [reflexivity|].
    unfold own_distance in Hown. cbn [item best_distance] in *. subst d.
    exists z. split; [|reflexivity].
    destruct Hz as [->|Hz]; [now left|now right]. }
  split; [|split; [|exact Hsome]].
  - split; [|now intros ->].
    intros Hthrow. destruct raw as [|x rest]; [reflexivity|].
    destruct Hsome as (z & _ & Hret); congruence.
  - split; [|intros ->; now exists "No meter found"%string].
    intros (message & Hthrow). destruct raw as [|x rest]; [reflexivity|].
    destruct Hsome as (z & _ & Hret); congruence.
Qed.

End NearestMeter.

(** ** C5: the haversine distance between two antipodal points *)

(** *** The true sines and cosines at the arguments of the call

    [calculateDistance(12, 0, -12, 180)] asks for the sine and the cosine
    of the double nearest to pi/15 (12 degrees) and for the sine of the
    double nearest to pi/2.  The lemmas below place the true values, over
    the real numbers, within half the spacing of the doubles around
    [0.20791169081775931], [0.9781476007338057] and [1]: these are the
    correctly rounded results. *)

Module TrueValues.

Import Reals Lra.
Local Open Scope R_scope.

(** The real number a double stands for ([0] for the infinities and
    [NaN]). *)
Definition real_value (x : float) : R :=
  match Prim2SF x with
  | S754_finite s m e => IZR (cond_Zopp s (Zpos m)) * powerRZ 2 e
  | _ => 0
  end.

Fixpoint factorial (k : nat) : Z :=
  match k with
  | O => 1
  | S k' => Z.of_nat k * factorial k'
  end%Z.

Lemma INR_fact (k : nat) : INR (fact k) = IZR (factorial k).
Proof.
  induction k as [|k IH]; [reflexivity|].
  rewrite fact_simpl, mult_INR, IH, INR_IZR_INZ. cbn [factorial].
  now rewrite mult_IZR.
Qed.

(** A partial sum of the sine or cosine series, written out. *)
Ltac expand_series :=
  unfold sin_approx, cos_approx; cbn [sum_f_R0];
  unfold sin_term, cos_term; cbn [Nat.mul Nat.add];
  rewrite !INR_fact;
  repeat match goal with
  | |- context [factorial ?k] =>
      let v := eval vm_compute in (factorial k) in
      change (factorial k) with v
  end.

(** The real values of the doubles of the call
    [calculateDistance(12, 0, -12, 180)]. *)
Lemma angle_value :
  real_value 0.20943951023931953%float = 7545853602163669 / 2 ^ 55.
Proof.
  unfold real_value.
  replace (Prim2SF 0.20943951023931953%float)
    with (S754_finite false 7545853602163669 (-55))
    by (vm_compute; reflexivity).
  cbn [cond_Zopp powerRZ]. change (Pos.to_nat 55) with 55%nat. lra.
Qed.

Lemma sine_value :
  real_value 0.20791169081775931%float = 7490808106342645 / 2 ^ 55.
Proof.
  unfold real_value.
  replace (Prim2SF 0.20791169081775931%float)
    with (S754_finite false 7490808106342645 (-55))
    by (vm_compute; reflexivity).
  cbn [cond_Zopp powerRZ]. change (Pos.to_nat 55) with 55%nat. lra.
Qed.

Lemma cosine_value :
  real_value 0.9781476007338057%float = 8810370340356224 / 2 ^ 53.
Proof.
  unfold real_value.
  replace (Prim2SF 0.9781476007338057%float)
    with (S754_finite false 8810370340356224 (-53))
    by (vm_compute; reflexivity).
  cbn [cond_Zopp powerRZ]. change (Pos.to_nat 53) with 53%nat. lra.
Qed.

Lemma right_angle_value :
  real_value 1.5707963267948966%float = 7074237752028440 / 2 ^ 52.
Proof.
  unfold real_value.
  replace (Prim2SF 1.5707963267948966%float)
    with (S754_finite false 7074237752028440 (-52))
    by (vm_compute; reflexivity).
  cbn [cond_Zopp powerRZ]. change (Pos.to_nat 52) with 52%nat. lra.
Qed.

Lemma opposite_value (x : float) : real_value (- x)%float = - real_value x.
Proof.
  unfold real_value. rewrite FloatAxioms.opp_spec.
  destruct (Prim2SF x) as [s|s| |[|] m e]; cbn [SFopp negb cond_Zopp];
    try lra; rewrite ?opp_IZR; cbn [Z.opp]; try lra.
Qed.

(** The true sine of the double nearest to pi/15 lies within half the
    spacing [2^-55] of the doubles around [0.2079...]. *)
Lemma sine_of_12_degrees :
  Rabs (sin (real_value 0.20943951023931953%float)
        - real_value 0.20791169081775931%float) < / 2 ^ 56.
Proof.
  rewrite angle_value, sine_value.
  set (x := 7545853602163669 / 2 ^ 55).
  assert (H0 : 0 <= x) by (unfold x; lra).
  assert (H4 : x <= 4) by (unfold x; lra).
  destruct (pre_sin_bound x 2 H0 H4) as [Hlo Hhi].
  cbn [Nat.mul Nat.add] in Hlo, Hhi.
  assert (L : 7490808106342645 / 2 ^ 55 - / 2 ^ 56 < sin_approx x 5)
    by (expand_series; unfold x; lra).
  assert (U : sin_approx x 6 < 7490808106342645 / 2 ^ 55 + / 2 ^ 56)
    by (expand_series; unfold x; lra).
  apply Rabs_def1; lra.
Qed.

(** Its true cosine lies within half the spacing [2^-53] of the doubles
    around [0.9781...]. *)
Lemma cosine_of_12_degrees :
  Rabs (cos (real_value 0.20943951023931953%float)
        - real_value 0.9781476007338057%float) < / 2 ^ 54.
Proof.
  rewrite angle_value, cosine_value.
  set (x := 7545853602163669 / 2 ^ 55).
  assert (H0 : -2 <= x) by (unfold x; lra).
  assert (H4 : x <= 2) by (unfold x; lra).
  destruct (pre_cos_bound x 3 H0 H4) as [Hlo Hhi].
  cbn [Nat.mul Nat.add] in Hlo, Hhi.
  assert (L : 8810370340356224 / 2 ^ 53 - / 2 ^ 54 < cos_approx x 7)
    by (expand_series; unfold x; lra).
  assert (U : cos_approx x 8 < 8810370340356224 / 2 ^ 53 + / 2 ^ 54)
    by (expand_series; unfold x; lra).
  apply Rabs_def1; lra.
Qed.

(** The same at the opposite angle: the sine is odd and the cosine even. *)
Lemma sine_of_minus_12_degrees :
  Rabs (sin (real_value (-0.20943951023931953)%float)
        - real_value (-0.20791169081775931)%float) < / 2 ^ 56.
Proof.
  change (-0.20943951023931953)%float
    with (PrimFloat.opp 0.20943951023931953%float).
  change (-0.20791169081775931)%float
    with (PrimFloat.opp 0.20791169081775931%float).
  rewrite !opposite_value, sin_neg.
  replace (- sin (real_value 0.20943951023931953%float)
           - - real_value 0.20791169081775931%float)
    with (- (sin (real_value 0.20943951023931953%float)
             - real_value 0.20791169081775931%float)) by lra.
  rewrite Rabs_Ropp. exact sine_of_12_degrees.
Qed.

Lemma cosine_of_minus_12_degrees :
  Rabs (cos (real_value (-0.20943951023931953)%float)
        - real_value 0.9781476007338057%float) < / 2 ^ 54.
Proof.
  change (-0.20943951023931953)%float
    with (PrimFloat.opp 0.20943951023931953%float).
  rewrite opposite_value, cos_neg. exact cosine_of_12_degrees.
Qed.

(** The true sine of the double nearest to pi/2 lies within [2^-54] of 1,
    half the distance from 1 to the double below it: the cosine there is
    below [2^-27] in size, and [sin >= sin^2 = 1 - cos^2]. *)
Lemma sine_of_90_degrees :
  1 - / 2 ^ 54 < sin (real_value 1.5707963267948966%float) <= 1.
Proof.
  rewrite right_angle_value.
  set (x := 7074237752028440 / 2 ^ 52).
  split; [|apply SIN_bound].
  assert (H0 : 0 <= x) by (unfold x; lra).
  assert (H4 : x <= 4) by (unfold x; lra).
  assert (Hm2 : -2 <= x) by lra.
  assert (H2 : x <= 2) by (unfold x; lra).
  destruct (pre_sin_bound x 0 H0 H4) as [Hsin _].
  destruct (pre_cos_bound x 3 Hm2 H2) as [Hlo Hhi].
  cbn [Nat.mul Nat.add] in Hsin, Hlo, Hhi.
  assert (S0 : 0 < sin_approx x 1) by (expand_series; unfold x; lra).
  assert (L : - / 2 ^ 27 < cos_approx x 7)
    by (expand_series; unfold x; lra).
  assert (U : cos_approx x 8 < / 2 ^ 27)
    by (expand_series; unfold x; lra).
  assert (Hcos : cos x * cos x < / 2 ^ 54).
  { replace (/ 2 ^ 54) with (/ 2 ^ 27 * / 2 ^ 27) by lra.
    assert (Hgap : 0 < (/ 2 ^ 27 - cos x) * (/ 2 ^ 27 + cos x))
      by (apply Rmult_lt_0_compat; lra).
    lra. }
  pose proof (sin2_cos2 x) as Hone. unfold Rsqr in Hone.
  pose proof (SIN_bound x) as [_ Hle].
  assert (Hsq : sin x * sin x <= sin x).
  { rewrite <- (Rmult_1_r (sin x)) at 3.
    apply Rmult_le_compat_l; lra. }
  lra.
Qed.

(** The doubles next to the three values: the spacing is [2^-55] around the
    sine, [2^-53] around the cosine, and [2^-53] below 1. *)
Lemma neighbouring_values :
  real_value (next_up 0.20791169081775931)%float
    = real_value 0.20791169081775931%float + / 2 ^ 55 /\
  real_value (next_down 0.20791169081775931)%float
    = real_value 0.20791169081775931%float - / 2 ^ 55 /\
  real_value (next_up 0.9781476007338057)%float
    = real_value 0.9781476007338057%float + / 2 ^ 53 /\
  real_value (next_down 0.9781476007338057)%float
    = real_value 0.9781476007338057%float - / 2 ^ 53 /\
  real_value 1%float = 1 /\
  real_value (next_down 1)%float = 1 - / 2 ^ 53.
Proof.
  rewrite sine_value, cosine_value. unfold real_value.
  replace (Prim2SF (next_up 0.20791169081775931)%float)
    with (S754_finite false 7490808106342646 (-55))
    by (vm_compute; reflexivity).
  replace (Prim2SF (next_down 0.20791169081775931)%float)
    with (S754_finite false 7490808106342644 (-55))
    by (vm_compute; reflexivity).
  replace (Prim2SF (next_up 0.9781476007338057)%float)
    with (S754_finite false 8810370340356225 (-53))
    by (vm_compute; reflexivity).
  replace (Prim2SF (next_down 0.9781476007338057)%float)
    with (S754_finite false 8810370340356223 (-53))
    by (vm_compute; reflexivity).
  replace (Prim2SF 1%float)
    with (S754_finite false 4503599627370496 (-52))
    by (vm_compute; reflexivity).
  replace (Prim2SF (next_down 1)%float)
    with (S754_finite false 9007199254740991 (-53))
    by (vm_compute; reflexivity).
  cbn [cond_Zopp powerRZ].
  change (Pos.to_nat 55) with 55%nat. change (Pos.to_nat 53) with 53%nat.
  change (Pos.to_nat 52) with 52%nat.
  repeat split; lra.
Qed.

End TrueValues.

Section HaversineAntipodes.

Variables Math_sin Math_cos Math_sqrt : Js.number -> Js.number.
Variable Math_atan2 : Js.number -> Js.number -> Js.number.

(** What the language fixes of [Math.sqrt] and [Math.atan2]: the square
    root of a number below zero is [NaN], and [Math.atan2] of a [NaN] is
    [NaN]. *)
Hypothesis sqrt_of_negative :
  forall x, (x <? 0) = true -> Js.isNaN (Math_sqrt x) = true.
Hypothesis atan2_of_NaN :
  forall y x, Js.isNaN x = true -> Js.isNaN (Math_atan2 y x) = true.

(** The sines and cosines that the call below asks for, correctly rounded:
    the values are the doubles nearest to the true sine and cosine of these
    arguments ([TrueValues.sine_of_minus_12_degrees],
    [TrueValues.cosine_of_12_degrees],
    [TrueValues.cosine_of_minus_12_degrees],
    [TrueValues.sine_of_90_degrees]). *)
Hypothesis sin_minus_12_degrees :
  Math_sin (-0.20943951023931953) = -0.20791169081775931.
Hypothesis cos_12_degrees :
  Math_cos 0.20943951023931953 = 0.9781476007338057.
Hypothesis cos_minus_12_degrees :
  Math_cos (-0.20943951023931953) = 0.9781476007338057.
Hypothesis sin_90_degrees :
  Math_sin 1.5707963267948966 = 1.

Lemma NaN_unique (x : Js.number) : Js.isNaN x = true -> x = nan.
Proof.
  rewrite NumberFacts.isNaN_spec. intros Hx. apply Prim2SF_inj.
  destruct (Prim2SF x); try discriminate Hx. reflexivity.
Qed.

(** C5: (12, 0) and (-12, 180) are valid coordinates, and the distance
    computed between them is [NaN].  The haversine term [a] comes out as
    [1 + 2^-52], just above 1; [1 - a] is below zero, its square root is
    [NaN], and so is everything computed from it: the formula is applied
    without keeping [a] within [0, 1]. *)
Theorem C5_calculateDistance_antipodes_NaN :
  apiUtils.isValidCoordinate 12 0 = true /\
  apiUtils.isValidCoordinate (-12) 180 = true /\
  Js.isNaN
    (apiUtils.calculateDistance Math_sin Math_cos Math_sqrt Math_atan2
       12 0 (-12) 180) = true.
Proof.
  split; [reflexivity|]. split; [reflexivity|].
  unfold apiUtils.calculateDistance. cbv zeta.
  replace ((-12 - 12) * apiUtils.Math_PI / 180 / 2)
    with (-0.20943951023931953) by reflexivity.
  replace (12 * apiUtils.Math_PI / 180)
    with 0.20943951023931953 by reflexivity.
  replace (-12 * apiUtils.Math_PI / 180)
    with (-0.20943951023931953) by reflexivity.
  replace ((180 - 0) * apiUtils.Math_PI / 180 / 2)
    with 1.5707963267948966 by reflexivity.
  rewrite sin_minus_12_degrees, cos_12_degrees, cos_minus_12_degrees,
    sin_90_degrees.
  replace (-0.20791169081775931 * -0.20791169081775931 +
           0.9781476007338057 * 0.9781476007338057 * 1 * 1)
    with 1.0000000000000002 by reflexivity.
  replace (1 - 1.0000000000000002) with (-2.220446049250313e-16)
    by reflexivity.
  assert (Hroot : Js.isNaN (Math_sqrt (-2.220446049250313e-16)) = true)
    by (apply sqrt_of_negative; reflexivity).
  rewrite (NaN_unique _
             (atan2_of_NaN (Math_sqrt 1.0000000000000002) _ Hroot)).
  reflexivity.
Qed.

End HaversineAntipodes.

(** ** C7: radius validation *)

Section RadiusValidation.

Variable parseFloat : string -> Js.number.
Variable trim : string -> string.

Lemma isValidRadius_iff (radius : string_or_number) :
  validation.isValidRadius parseFloat radius = true <->
  (0 <? validation.toNum parseFloat radius) = true /\
  (validation.toNum parseFloat radius <=? 5000) = true.
Proof.
  unfold validation.isValidRadius, Js.gtb. cbn zeta.
  rewrite !andb_true_iff. split; [tauto|].
  intros [Hpos Hmax]. repeat split; try assumption.
  destruct (NumberFacts.ltb_not_nan _ _ Hpos) as [_ ->]. reflexivity.
Qed.

Lemma isValidRadius_rejects (radius : string_or_number) :
  (validation.toNum parseFloat radius <=? 0) = true \/
  (5000 <? validation.toNum parseFloat radius) = true ->
  validation.isValidRadius parseFloat radius = false.
Proof.
  intros Hout.
  destruct (validation.isValidRadius parseFloat radius) eqn:Hv; [|reflexivity].
  apply isValidRadius_iff in Hv. destruct Hv as [Hpos Hmax].
  destruct Hout as [Hle|Hgt].
  - apply NumberFacts.ltb_asym in Hpos. congruence.
  - apply NumberFacts.ltb_asym in Hgt. congruence.
Qed.

(** A submission whose radius field is shown and does not validate only
    records the error: no location is selected, no radius is passed on,
    nothing is added to the history, so no search is started. *)
Lemma handleSubmit_rejects_radius (f : CoordinateInput.form) :
  CoordinateInput.showRadius f = true ->
  validation.isValidRadius parseFloat (Str (CoordinateInput.radius_input f))
    = false ->
  exists e,
    CoordinateInput.radius_error e <> None /\
    CoordinateInput.handleSubmit parseFloat trim f =
      [CoordinateInput.setErrors e].
Proof.
  intros Hshow Hbad.
  exists (CoordinateInput.newErrors parseFloat trim f).
  assert (Herr : CoordinateInput.radius_error
                   (CoordinateInput.newErrors parseFloat trim f) <> None).
  { unfold CoordinateInput.newErrors. cbn [CoordinateInput.radius_error].
    rewrite Hshow, Hbad.
    destruct (CoordinateInput.is_empty _); discriminate. }
  split; [exact Herr|].
  unfold CoordinateInput.handleSubmit, CoordinateInput.validateInputs,
    CoordinateInput.no_errors.
  set (e := CoordinateInput.newErrors parseFloat trim f) in *.
  destruct (CoordinateInput.radius_error e); [|congruence].
  destruct (CoordinateInput.latitude_error e),
    (CoordinateInput.longitude_error e); reflexivity.
Qed.

(** C7: [isValidRadius] accepts a radius exactly when its numeric value is
    strictly greater than 0 and at most 5000; every value that is [<= 0] or
    [> 5000] is refused; and the coordinate form, when it shows the radius
    field, turns a refused radius into a validation error before anything
    else happens: the submission selects no location and passes no radius
    on, so no search is made with it. *)
Theorem C7_radius_valid_iff_in_range :
  (forall radius,
      validation.isValidRadius parseFloat radius = true <->
      (0 <? validation.toNum parseFloat radius) = true /\
      (validation.toNum parseFloat radius <=? 5000) = true) /\
  (forall radius,
      (validation.toNum parseFloat radius <=? 0) = true \/
      (5000 <? validation.toNum parseFloat radius) = true ->
      validation.isValidRadius parseFloat radius = false) /\
  (forall f,
      CoordinateInput.showRadius f = true ->
      validation.isValidRadius parseFloat
        (Str (CoordinateInput.radius_input f)) = false ->
      exists e,
        CoordinateInput.radius_error e <> None /\
        CoordinateInput.handleSubmit parseFloat trim f =
          [CoordinateInput.setErrors e]).
Proof.
  split; [exact isValidRadius_iff|].
  split; [exact isValidRadius_rejects|exact handleSubmit_rejects_radius].
Qed.

End RadiusValidation.

(** ** C9: the stored search history *)

Section SearchHistory.

Import storage.

(** The queries of the stored items, in order. *)
Definition queries (c : cell) : list string :=
  map query (getSearchHistory true c).

(** At most 20 items, no two with the same query. *)
Definition history_ok (c : cell) : Prop :=
  (List.length (getSearchHistory true c) <= 20)%nat /\ NoDup (queries c).

(** Dropping items keeps the queries pairwise distinct. *)
Lemma distinct_queries_filter (keep : SearchHistoryItem -> bool) history :
  NoDup (map query history) -> NoDup (map query (Js.filter keep history)).
Proof.
  unfold Js.filter.
  induction history as [|entry history IH]; cbn [map filter]; intros Hdistinct.
  - constructor.
  - apply NoDup_cons_iff in Hdistinct. destruct Hdistinct as [Hfresh Hrest].
    destruct (keep entry); [|now apply IH].
    cbn [map]. apply NoDup_cons_iff. split; [|now apply IH].
    rewrite in_map_iff. intros (other & Hsame & Hkept).
    apply filter_In in Hkept. apply Hfresh.
    rewrite in_map_iff. exists other. tauto.
Qed.

Lemma NoDup_firstn {A} n (l : list A) : NoDup l -> NoDup (firstn n l).
Proof.
  revert n. induction l as [|x l IH]; intros [|n] Hnd; simpl;
    try constructor.
  - inversion_clear Hnd as [|? ? Hx Hl]. intros Hin. apply Hx.
    rewrite <- (firstn_skipn n l). apply in_or_app. now left.
  - inversion_clear Hnd. auto.
Qed.

(** One call, from any cell content: the new item comes first, at most 20
    items are kept, and the new item's query occurs nowhere else. *)
Lemma addToSearchHistory_head uuid now q loc ty c :
  exists rest,
    addToSearchHistory true uuid now q loc ty c =
      Stored ({| id := uuid; query := q; location := loc;
                 timestamp := now; type := ty |} :: rest) /\
    (List.length rest < 20)%nat /\
    ~ In q (map query rest) /\
    (NoDup (queries c) -> NoDup (map query rest)).
Proof.
  unfold addToSearchHistory. cbn [negb].
  set (kept := Js.filter _ (getSearchHistory true c)).
  exists (firstn 19 kept). split; [now rewrite firstn_cons|].
  split; [|split].
  - pose proof (firstn_le_length 19 kept). lia.
  - intros Hin. apply in_map_iff in Hin. destruct Hin as (y & Hy & Hin).
    assert (Hk : In y kept).
    { rewrite <- (firstn_skipn 19 kept). apply in_or_app. now left. }
    apply filter_In in Hk. destruct Hk as [_ Hk].
    rewrite Hy, String.eqb_refl in Hk. discriminate.
  - intros Hnd. rewrite <- firstn_map. apply NoDup_firstn.
    now apply distinct_queries_filter.
Qed.

Lemma addToSearchHistory_ok window uuid now q loc ty c :
  history_ok c -> history_ok (addToSearchHistory window uuid now q loc ty c).
Proof.
  intros [Hlen Hnd]. destruct window; [|now split].
  destruct (addToSearchHistory_head uuid now q loc ty c)
    as (rest & -> & Hrest & Hq & Hnd').
  split; unfold queries; cbn [getSearchHistory negb map query List.length].
  - lia.
  - constructor; auto.
Qed.

Lemma reachable_ok c : reachable c -> history_ok c.
Proof.
  induction 1 as [|window uuid now q loc ty c _ IH|window c _ IH].
  - split; [simpl; lia|constructor].
  - now apply addToSearchHistory_ok.
  - destruct window; [|exact IH]. split; [simpl; lia|constructor].
Qed.

(** C9: after a call to [addToSearchHistory] in a browser, whatever the
    storage held, the stored history has the new item first and holds at most
    20 items, and no other stored item has the new item's query (an item that
    had it is gone).  On a storage that only this module has written to, no
    two stored items have the same query. *)
Theorem C9_search_history_invariant uuid now q loc ty (c : cell) :
  exists rest,
    addToSearchHistory true uuid now q loc ty c =
      Stored ({| id := uuid; query := q; location := loc;
                 timestamp := now; type := ty |} :: rest) /\
    (List.length
       ({| id := uuid; query := q; location := loc;
           timestamp := now; type := ty |} :: rest) <= 20)%nat /\
    ~ In q (map query rest) /\
    (reachable c ->
     NoDup (map query
       ({| id := uuid; query := q; location := loc;
           timestamp := now; type := ty |} :: rest))).
Proof.
  destruct (addToSearchHistory_head uuid now q loc ty c)
    as (rest & Heq & Hrest & Hq & Hnd').
  exists rest. split; [exact Heq|]. split; [simpl; lia|].
  split; [exact Hq|].
  intros Hreach. apply reachable_ok in Hreach. destruct Hreach as [_ Hnd].
  cbn [map query]. constructor; auto.
Qed.

End SearchHistory.

(** ** C10: the shape-sniffing [getParkingSigns] *)

Section ParkingSigns.

Import JsValue apiClient.

Variable numberToString : Js.number -> string.
Variable stringToNumber : string -> Js.number.

Let getParkingSigns := getParkingSigns numberToString stringToNumber.
Let toParkingSign := toParkingSign numberToString stringToNumber.
Let map_from := map_from numberToString stringToNumber.

(** The keys under which the list is looked for. *)
Definition list_keys : list string :=
  ["results"; "data"; "parking_signs"; "signs"]%string.

(** A sign with a string [id] and numeric [latitude], [longitude] and
    [distance]. *)
Definition typed_sign (sign : value) : Prop :=
  typeof (prop sign "id") = "string"%string /\
  typeof (prop sign "latitude") = "number"%string /\
  typeof (prop sign "longitude") = "number"%string /\
  typeof (prop sign "distance") = "number"%string.

Lemma list_of_unrecognised raw :
  isArray raw = false ->
  (forall key, In key list_keys -> isArray (opt_prop raw key) = false) ->
  list_of raw = [].
Proof.
  intros Hraw Hkeys. unfold list_of.
  rewrite Hraw, !Hkeys by (simpl; tauto). reflexivity.
Qed.

(** The object literal the callback returns. *)
Definition sign_object (item : value) (id : string)
    (latitude longitude distance : Js.number)
    (description street_name : string) : value :=
  VObj
    [ ("id", VStr id);
      ("latitude", VNum latitude);
      ("longitude", VNum longitude);
      ("distance", VNum distance);
      ("description", VStr description);
      ("street_name", VStr street_name);
      ("sign_type", prop item "sign_type");
      ("regulations",
       if isArray (prop item "regulations") then prop item "regulations"
       else VUndefined);
      ("borough", prop item "borough");
      ("created_at", prop item "created_at");
      ("updated_at", prop item "updated_at") ]%string.

(** What a callback that returns has gone through: the item is an object (or
    at least not [null] or [undefined]) and each conversion returned. *)
Lemma toParkingSign_returns item index sign :
  toParkingSign item index = Return sign ->
  nullish item = false /\
  exists latitude longitude distance street_name described description id,
    toNumber numberToString stringToNumber
      (coalesce (prop item "latitude") (prop item "lat"))
      = Return latitude /\
    toNumber numberToString stringToNumber
      (coalesce (prop item "longitude") (prop item "lon"))
      = Return longitude /\
    toNumber numberToString stringToNumber
      (coalesce (coalesce (prop item "distance") (prop item "dist"))
         (VNum 0))
      = Return distance /\
    toString numberToString
      (coalesce (coalesce (prop item "street_name") (prop item "street"))
         (VStr ""))
      = Return street_name /\
    coalesce_with (prop item "description")
      (match prop item "regulations" with
       | VArr regulations =>
           do joined <- join numberToString " " regulations ;
           Return (VStr joined)
       | _ => Return (VStr ""%string)
       end)
      = Return described /\
    toString numberToString (coalesce described (VStr ""))
      = Return description /\
    toString numberToString
      (coalesce (coalesce (prop item "id") (prop item "sign_id"))
         (VStr (numberToString latitude ++ "," ++
                numberToString longitude ++ "," ++
                numberToString (of_index index))))
      = Return id /\
    sign = sign_object item id latitude longitude distance description
             street_name.
Proof.
  unfold toParkingSign, apiClient.toParkingSign.
  destruct (nullish item); [discriminate|].
  destruct (toNumber _ _ (coalesce (prop item "latitude") _))
    as [latitude|] eqn:Hla; [|discriminate].
  destruct (toNumber _ _ (coalesce (prop item "longitude") _))
    as [longitude|] eqn:Hlo; [|discriminate].
  destruct (toNumber _ _ (coalesce (coalesce (prop item "distance") _) _))
    as [distance|] eqn:Hd; [|discriminate].
  destruct (toString _ (coalesce (coalesce (prop item "street_name") _) _))
    as [street_name|] eqn:Hst; [|discriminate].
  destruct (coalesce_with (prop item "description") _)
    as [described|] eqn:Hde; [|discriminate].
  cbn [and_then].
  destruct (toString _ (coalesce described _))
    as [description|] eqn:Hds; [|discriminate].
  cbn [and_then].
  destruct (toString _ (coalesce (coalesce (prop item "id") _) _))
    as [id|] eqn:Hid; [|discriminate].
  cbn [and_then]. intros [= <-]. split; [reflexivity|].
  exists latitude, longitude, distance, street_name, described, description,
    id.
  repeat split; assumption.
Qed.

Lemma toParkingSign_typed item index sign :
  toParkingSign item index = Return sign -> typed_sign sign.
Proof.
  intros Hcall. apply toParkingSign_returns in Hcall.
  destruct Hcall as (_ & la & lo & d & st & de & ds & id & _ & _ & _ & _
                       & _ & _ & _ & ->).
  repeat split.
Qed.

Lemma toParkingSign_default_distance item index sign :
  toParkingSign item index = Return sign ->
  nullish (prop item "distance") = true ->
  nullish (prop item "dist") = true ->
  prop sign "distance" = VNum 0.
Proof.
  intros Hcall Hd Hdist. apply toParkingSign_returns in Hcall.
  destruct Hcall as (_ & la & lo & d & st & de & ds & id & _ & _ & Hnum & _
                       & _ & _ & _ & ->).
  unfold coalesce in Hnum. rewrite Hd, Hdist in Hnum.
  cbn in Hnum. injection Hnum as <-. reflexivity.
Qed.

Lemma map_from_typed items : forall index signs,
  map_from index items = Return signs -> Forall typed_sign signs.
Proof.
  unfold map_from.
  induction items as [|item items IH]; intros index signs;
    cbn [apiClient.map_from].
  - intros [= <-]. constructor.
  - destruct (apiClient.toParkingSign _ _ item index) as [sign|e] eqn:Hsign;
      [|discriminate].
    destruct (apiClient.map_from _ _ (S index) items) as [rest|e] eqn:Hrest;
      [|discriminate].
    intros [= <-]. constructor; [|now apply (IH (S index))].
    now apply (toParkingSign_typed item index).
Qed.

Lemma map_from_nth items : forall index signs i item,
  map_from index items = Return signs ->
  nth_error items i = Some item ->
  exists sign,
    nth_error signs i = Some sign /\
    toParkingSign item (index + i) = Return sign.
Proof.
  unfold map_from, toParkingSign.
  induction items as [|x items IH]; intros index signs i item;
    cbn [apiClient.map_from].
  - intros _ Hi. now destruct i.
  - destruct (apiClient.toParkingSign _ _ x index) as [sign|e] eqn:Hsign;
      [|discriminate].
    destruct (apiClient.map_from _ _ (S index) items) as [rest|e] eqn:Hrest;
      [|discriminate].
    intros [= <-] Hi. destruct i as [|i].
    + injection Hi as <-. exists sign. now rewrite Nat.add_0_r.
    + destruct (IH (S index) rest i item Hrest Hi) as (s & Hs & Hcall).
      exists s. split; [exact Hs|].
      now replace (index + S i)%nat with (S index + i)%nat by lia.
Qed.

(** C10: when the response body is not an array and carries no array under
    [results], [data], [parking_signs] or [signs], [getParkingSigns] returns
    the empty list (it does not throw).  Whenever it returns, every sign of
    the result has a string [id] and numbers as [latitude], [longitude] and
    [distance], and the sign made from an item that has neither [distance]
    nor its alias [dist] has distance 0. *)
Theorem C10_getParkingSigns_shapes :
  (forall raw,
      isArray raw = false ->
      (forall key, In key list_keys -> isArray (opt_prop raw key) = false) ->
      getParkingSigns raw = Return []) /\
  (forall raw signs,
      getParkingSigns raw = Return signs -> Forall typed_sign signs) /\
  (forall raw signs i item,
      getParkingSigns raw = Return signs ->
      nth_error (list_of raw) i = Some item ->
      nullish (prop item "distance") = true ->
      nullish (prop item "dist") = true ->
      exists sign,
        nth_error signs i = Some sign /\ prop sign "distance" = VNum 0).
Proof.
  split; [|split].
  - intros raw Hraw Hkeys. unfold getParkingSigns, apiClient.getParkingSigns.
    now rewrite (list_of_unrecognised raw Hraw Hkeys).
  - intros raw signs. apply map_from_typed.
  - intros raw signs i item Hret Hi Hd Hdist.
    destruct (map_from_nth (list_of raw) 0 signs i item Hret Hi)
      as (sign & Hs & Hcall).
    exists sign. split; [exact Hs|].
    now apply (toParkingSign_default_distance item (0 + i) sign).
Qed.

End ParkingSigns.

(* ================================================================== *)
(** * Part IV. The theorems at concrete inputs                         *)
(* ================================================================== *)

(** Records with a label and a distance in metres. *)
Record labelled := { label : string; metres : Js.number }.

#[local] Instance labelled_HasDistance : HasDistance labelled := metres.

Definition sign_a := {| label := "a"; metres := 600 |}.
Definition sign_b := {| label := "b"; metres := 100 |}.
Definition sign_c := {| label := "c"; metres := 1200 |}.
Definition sign_d := {| label := "d"; metres := 100 |}.
Definition sign_e := {| label := "e"; metres := 1000 |}.

Definition example_signs : list labelled :=
  [sign_a; sign_b; sign_c; sign_d; sign_e].

(** Records at 100 m, 600 m and 1200 m with radius 1000: the first two are
    kept; a record at exactly the radius is kept. *)
Example filterByRadius_scenario :
  apiUtils.filterByRadius [sign_b; sign_a; sign_c] 1000 = [sign_b; sign_a] /\
  apiUtils.filterByRadius example_signs 1000 =
    [sign_a; sign_b; sign_d; sign_e].
Proof. split; reflexivity. Qed.

Lemma C6_sortByDistance_sorted_stable_witness :
  Forall (fun r => Js.isNaN (distance r) = false) example_signs /\
  apiUtils.sortByDistance example_signs =
    [sign_b; sign_d; sign_a; sign_e; sign_c] /\
  Permutation example_signs (apiUtils.sortByDistance example_signs).
Proof.
  assert (Hnum : Forall (fun r => Js.isNaN (distance r) = false)
                   example_signs) by (repeat constructor).
  split; [exact Hnum|]. split; [reflexivity|].
  apply (C6_sortByDistance_sorted_stable example_signs Hnum).
Defined.

(** A store with one array, referenced by [0]. *)
Definition example_store : Heap.store labelled := [example_signs].

Lemma C8_helpers_do_not_mutate_input_witness :
  Heap.lookup example_store 0%nat = Some example_signs /\
  (exists r h',
      Heap.filterByRadius 0%nat 1000 example_store = Some (r, h') /\
      r <> 0%nat /\ Heap.lookup h' 0%nat = Some example_signs) /\
  (exists r h',
      Heap.sortByDistance 0%nat example_store = Some (r, h') /\
      r <> 0%nat /\ Heap.lookup h' 0%nat = Some example_signs).
Proof.
  assert (H0 : Heap.lookup example_store 0%nat = Some example_signs)
    by reflexivity.
  split; [exact H0|].
  destruct (C8_helpers_do_not_mutate_input example_store 0%nat
              example_signs 1000 H0)
    as [(r1 & h1 & Hrun1 & Hne1 & _ & Hin1 & _)
        (r2 & h2 & Hrun2 & Hne2 & _ & Hin2 & _)].
  split; [exists r1, h1|exists r2, h2]; auto.
Defined.

(** A stand-in for the distance function: the sum of the coordinate
    differences. *)
Definition planar (p q : Js.number * Js.number) : Js.number :=
  abs (fst q - fst p) + abs (snd q - snd p).

Definition zone (number : string) (la lo : Js.number) : apiShim.MeterZone :=
  {| apiShim.zone_lat := la; apiShim.zone_long := lo;
     apiShim.meter_number := number; apiShim.meter_hours := "9-5";
     apiShim.zone_status := Some "Active"%string;
     apiShim.on_street := "Broadway";
     apiShim.zone_borough := None |}.

Definition example_zones : list apiShim.MeterZone :=
  [ zone "m1" 40.75 (-73.99); zone "m2" 40.71 (-74.00);
    zone "m3" 40.71 (-74.00) ].

Definition example_params : apiShim.MeterRateRequest :=
  {| apiShim.lat := 40.7128; apiShim.lon := -74.0060 |}.

(** Five rows around the centre [example_params].  The third and the fourth
    are equally near and nearer than the others; the first has the smallest
    latitude and longitude, the second is the nearest to the origin. *)
Definition nearest_zones : list apiShim.MeterZone :=
  [ zone "m1" 40.70 (-74.05); zone "m2" 40.75 (-73.95);
    zone "m3" 40.72 (-74.00); zone "m4" 40.72 (-74.00);
    zone "m5" 40.71 (-74.02) ].

(** The third row is returned, with its distance to the centre. *)
Lemma C3_getMeterRate_first_nearest_witness :
  nearest_zones <> [] /\
  Forall
    (fun row =>
       Js.isNaN
         (planar (apiShim.lat example_params, apiShim.lon example_params)
            (apiShim.zone_lat row, apiShim.zone_long row)) = false)
    nearest_zones /\
  exists i nearest meter,
    nth_error nearest_zones i = Some nearest /\
    apiShim.getMeterRate planar (fun s => s) example_params nearest_zones
      = Return meter /\
    apiShim.id meter = apiShim.meter_number nearest /\
    apiShim.distance meter =
      planar (apiShim.lat example_params, apiShim.lon example_params)
        (apiShim.zone_lat nearest, apiShim.zone_long nearest) /\
    apiShim.id meter = "m3"%string /\
    (forall row,
        In row nearest_zones ->
        (planar (apiShim.lat example_params, apiShim.lon example_params)
           (apiShim.zone_lat nearest, apiShim.zone_long nearest)
         <=? planar (apiShim.lat example_params, apiShim.lon example_params)
               (apiShim.zone_lat row, apiShim.zone_long row)) = true).
Proof.
  assert (Hne : nearest_zones <> []) by discriminate.
  assert (Hnum : Forall
            (fun row =>
               Js.isNaN
                 (planar
                    (apiShim.lat example_params, apiShim.lon example_params)
                    (apiShim.zone_lat row, apiShim.zone_long row)) = false)
            nearest_zones) by (repeat constructor).
  split; [exact Hne|]. split; [exact Hnum|].
  destruct (C3_getMeterRate_first_nearest planar (fun s => s) example_params
              nearest_zones Hne Hnum)
    as (i & nearest & meter & Hi & Hret & Hid & _ & _ & Hd & Hmin & _).
  exists i, nearest, meter.
  split; [exact Hi|]. split; [exact Hret|]. split; [exact Hid|].
  split; [exact Hd|]. split; [|exact Hmin].
  vm_compute in Hret. injection Hret as <-. reflexivity.
Defined.

Lemma C4_getMeterRate_not_found_iff_empty_witness :
  apiShim.getMeterRate planar (fun s => s) example_params []
    = Throw "No meter found" /\
  exists z,
    In z example_zones /\
    apiShim.getMeterRate planar (fun s => s) example_params example_zones =
      Return (apiShim.toMeterRate (fun s => s)
                {| apiShim.item := z;
                   apiShim.best_distance :=
                     apiShim.distanceTo planar example_params z |}).
Proof.
  split.
  - now apply (C4_getMeterRate_not_found_iff_empty planar (fun s => s)
                 example_params []).
  - apply (C4_getMeterRate_not_found_iff_empty planar (fun s => s)
             example_params example_zones).
    discriminate.
Defined.

(** [Math] functions for a run of [calculateDistance(12, 0, -12, 180)]: the
    sine and cosine tabulated at the arguments of that call, the binary64
    square root, and an [atan2] that answers [NaN] on [NaN]. *)
Definition sample_sin (x : Js.number) : Js.number :=
  if x =? 0.20943951023931953 then 0.20791169081775931
  else if x =? -0.20943951023931953 then -0.20791169081775931
  else if x =? 1.5707963267948966 then 1
  else if x =? 0 then x
  else nan.

Definition sample_cos (x : Js.number) : Js.number :=
  if abs x =? 0.20943951023931953 then 0.9781476007338057
  else if x =? 0 then 1
  else nan.

Definition sample_atan2 (y x : Js.number) : Js.number :=
  if Js.isNaN y || Js.isNaN x then nan
  else if (y =? 0) && (0 <? x) then y
  else if (0 <? y) && (x =? 0) then 1.5707963267948966
  else nan.

Lemma sqrt_below_zero (x : Js.number) :
  (x <? 0) = true -> Js.isNaN (sqrt x) = true.
Proof.
  rewrite NumberFacts.isNaN_spec, FloatAxioms.sqrt_spec,
    FloatAxioms.ltb_spec.
  unfold SFltb. change (Prim2SF 0) with (S754_zero false).
  destruct (Prim2SF x) as [[|]| [|] | |[|] m e]; cbn; congruence.
Qed.

Lemma C5_calculateDistance_antipodes_NaN_witness :
  apiUtils.isValidCoordinate 12 0 = true /\
  apiUtils.isValidCoordinate (-12) 180 = true /\
  Js.isNaN
    (apiUtils.calculateDistance sample_sin sample_cos sqrt sample_atan2
       12 0 (-12) 180) = true.
Proof.
  apply (C5_calculateDistance_antipodes_NaN sample_sin sample_cos sqrt
           sample_atan2 sqrt_below_zero).
  - intros y x Hx. unfold sample_atan2. rewrite Hx, orb_true_r. reflexivity.
  - reflexivity.
  - reflexivity.
  - reflexivity.
  - reflexivity.
Defined.

Definition example_location : storage.MapLocation :=
  {| storage.latitude := 40.7128; storage.longitude := -74.0060;
     storage.address := None |}.

(** The storage after searching "a" and then "b" from an empty profile. *)
Definition example_cell : storage.cell :=
  storage.addToSearchHistory true "id2" "t2" "b" example_location "address"
    (storage.addToSearchHistory true "id1" "t1" "a" example_location
       "address" storage.Missing).

(** Searching "a" again puts the new "a" first and drops the old one. *)
Lemma C9_search_history_invariant_witness :
  storage.reachable example_cell /\
  map storage.query
    (storage.getSearchHistory true
       (storage.addToSearchHistory true "id3" "t3" "a" example_location
          "coordinates" example_cell)) = ["a"; "b"]%string /\
  exists rest,
    storage.addToSearchHistory true "id3" "t3" "a" example_location
      "coordinates" example_cell =
    storage.Stored
      ({| storage.id := "id3"; storage.query := "a";
          storage.location := example_location;
          storage.timestamp := "t3"; storage.type := "coordinates" |}
       :: rest) /\
    (List.length rest < 20)%nat /\
    NoDup ("a"%string :: map storage.query rest).
Proof.
  assert (Hreach : storage.reachable example_cell)
    by (repeat constructor).
  split; [exact Hreach|]. split; [reflexivity|].
  destruct (C9_search_history_invariant "id3" "t3" "a" example_location
              "coordinates" example_cell)
    as (rest & Heq & Hlen & _ & Hnd).
  exists rest. split; [exact Heq|]. split; [simpl in Hlen; lia|].
  exact (Hnd Hreach).
Defined.

(** A stand-in for [parseFloat] that knows three texts. *)
Definition parseFloat_example (s : string) : Js.number :=
  if String.eqb s "250" then 250
  else if String.eqb s "0" then 0
  else if String.eqb s "40.7128" then 40.7128
  else nan.

Definition example_form : CoordinateInput.form :=
  {| CoordinateInput.latitude_input := "40.7128";
     CoordinateInput.longitude_input := "40.7128";
     CoordinateInput.radius_input := "0";
     CoordinateInput.showRadius := true;
     CoordinateInput.hasOnRadiusChange := true |}.

Lemma C7_radius_valid_iff_in_range_witness :
  validation.isValidRadius parseFloat_example (Str "250") = true /\
  validation.isValidRadius parseFloat_example (Num 5000) = true /\
  validation.isValidRadius parseFloat_example (Num 5000.5) = false /\
  validation.isValidRadius parseFloat_example (Num 0) = false /\
  validation.isValidRadius parseFloat_example (Num nan) = false /\
  exists e,
    CoordinateInput.radius_error e <> None /\
    CoordinateInput.handleSubmit parseFloat_example (fun s => s) example_form
      = [CoordinateInput.setErrors e].
Proof.
  destruct (C7_radius_valid_iff_in_range parseFloat_example (fun s => s))
    as (Hiff & Hout & Hform).
  split; [apply Hiff; split; reflexivity|].
  split; [apply Hiff; split; reflexivity|].
  split; [apply Hout; right; reflexivity|].
  split; [apply Hout; left; reflexivity|].
  split; [reflexivity|].
  apply Hform; reflexivity.
Defined.

Definition example_body_unrecognised : JsValue.value :=
  JsValue.VObj [("items"%string, JsValue.VArr [JsValue.VNum 1])].

Definition example_item : JsValue.value :=
  JsValue.VObj [("lat"%string, JsValue.VNum 40.7);
                ("lon"%string, JsValue.VNum (-74));
                ("dist"%string, JsValue.VNull)].

Definition example_body : JsValue.value :=
  JsValue.VObj [("data"%string, JsValue.VArr [example_item])].

Lemma C10_getParkingSigns_shapes_witness :
  apiClient.getParkingSigns (fun _ => "n"%string) (fun _ => nan)
    example_body_unrecognised = Return [] /\
  exists signs sign,
    apiClient.getParkingSigns (fun _ => "n"%string) (fun _ => nan)
      example_body = Return signs /\
    Forall typed_sign signs /\
    nth_error signs 0 = Some sign /\
    JsValue.prop sign "distance" = JsValue.VNum 0.
Proof.
  destruct (C10_getParkingSigns_shapes (fun _ => "n"%string) (fun _ => nan))
    as (Hempty & Htyped & Hdefault).
  split.
  - apply Hempty; [reflexivity|].
    intros key Hin. simpl in Hin.
    destruct Hin as [<-|[<-|[<-|[<-|[]]]]]; reflexivity.
  - destruct (Hdefault example_body _ 0%nat example_item eq_refl eq_refl
                eq_refl eq_refl) as (sign & Hsign & Hdist).
    eexists; exists sign. split; [reflexivity|].
    split; [apply (Htyped example_body); reflexivity|].
    split; [exact Hsign|exact Hdist].
Defined.

(* ================================================================== *)
(** * Part V. More of the code                                         *)
(* ================================================================== *)

(** ** Ordering a number against literals *)

(** [x] is a number as soon as one comparison with it holds. *)
Ltac learn_number x :=
  match goal with
  | _ : Js.isNaN x = false |- _ => idtac
  | H : (_ <? x) = true |- _ =>
      pose proof (proj2 (NumberFacts.ltb_not_nan _ _ H))
  | H : (x <? _) = true |- _ =>
      pose proof (proj1 (NumberFacts.ltb_not_nan _ _ H))
  | H : (_ <=? x) = true |- _ =>
      pose proof (proj2 (NumberFacts.leb_not_nan _ _ H))
  | H : (x <=? _) = true |- _ =>
      pose proof (proj1 (NumberFacts.leb_not_nan _ _ H))
  | _ => idtac
  end.

(** On a number, a comparison with a literal that fails is the opposite
    comparison that holds. *)
Ltac flip_bounds x :=
  repeat match goal with
  | N : Js.isNaN x = false, H : (?c <? x) = false |- _ =>
      rewrite (NumberFacts.ltb_negb_leb c x eq_refl N) in H;
      apply negb_false_iff in H
  | N : Js.isNaN x = false, H : (x <? ?c) = false |- _ =>
      rewrite (NumberFacts.ltb_negb_leb x c N eq_refl) in H;
      apply negb_false_iff in H
  | N : Js.isNaN x = false, H : (x <=? ?c) = false |- _ =>
      apply (f_equal negb) in H;
      rewrite <- (NumberFacts.ltb_negb_leb c x eq_refl N) in H;
      cbn [negb] in H
  | N : Js.isNaN x = false, H : (?c <=? x) = false |- _ =>
      apply (f_equal negb) in H;
      rewrite <- (NumberFacts.ltb_negb_leb x c N eq_refl) in H;
      cbn [negb] in H
  end.

(** Two bounds on [x] that no number satisfies. *)
Ltac clash :=
  match goal with
  | H1 : (?c1 <? ?x) = true, H2 : (?x <=? ?c2) = true |- _ =>
      let H := fresh in
      pose proof (NumberFacts.ltb_leb_trans _ _ _ H1 H2) as H;
      vm_compute in H; discriminate H
  | H1 : (?c1 <? ?x) = true, H2 : (?x <? ?c2) = true |- _ =>
      let H := fresh in
      pose proof (NumberFacts.ltb_trans _ _ _ H1 H2) as H;
      vm_compute in H; discriminate H
  | H1 : (?c1 <=? ?x) = true, H2 : (?x <=? ?c2) = true |- _ =>
      let H := fresh in
      pose proof (NumberFacts.leb_trans _ _ _ H1 H2) as H;
      vm_compute in H; discriminate H
  | H1 : (?c1 <=? ?x) = true, H2 : (?x <? ?c2) = true |- _ =>
      let H := fresh in
      pose proof (NumberFacts.leb_ltb_trans _ _ _ H1 H2) as H;
      vm_compute in H; discriminate H
  end.

Ltac order_absurd x := learn_number x; flip_bounds x; clash.

(** ** The coordinate checks *)

Section CoordinateChecks.

Variable parseFloat : string -> Js.number.

Lemma isValidLatitude_iff (lat : string_or_number) :
  validation.isValidLatitude parseFloat lat = true <->
  (-90 <=? validation.toNum parseFloat lat) = true /\
  (validation.toNum parseFloat lat <=? 90) = true.
Proof.
  unfold validation.isValidLatitude, Js.geb. cbn zeta.
  rewrite !andb_true_iff. split; [tauto|].
  intros [Hlo Hhi]. repeat split; try assumption.
  destruct (NumberFacts.leb_not_nan _ _ Hhi) as [-> _]. reflexivity.
Qed.

Lemma isValidLongitude_iff (lon : string_or_number) :
  validation.isValidLongitude parseFloat lon = true <->
  (-180 <=? validation.toNum parseFloat lon) = true /\
  (validation.toNum parseFloat lon <=? 180) = true.
Proof.
  unfold validation.isValidLongitude, Js.geb. cbn zeta.
  rewrite !andb_true_iff. split; [tauto|].
  intros [Hlo Hhi]. repeat split; try assumption.
  destruct (NumberFacts.leb_not_nan _ _ Hhi) as [-> _]. reflexivity.
Qed.

(** X1: [apiUtils.isValidCoordinate], which has no [isNaN] test, accepts
    exactly the pairs that [validation.isValidLatitude] and
    [validation.isValidLongitude] accept as numbers; in particular it refuses
    [NaN] in either position. *)
Theorem X1_isValidCoordinate_agrees (lat lon : Js.number) :
  apiUtils.isValidCoordinate lat lon =
    validation.isValidLatitude parseFloat (Num lat) &&
    validation.isValidLongitude parseFloat (Num lon) /\
  (Js.isNaN lat = true \/ Js.isNaN lon = true ->
   apiUtils.isValidCoordinate lat lon = false).
Proof.
  assert (Hagree : apiUtils.isValidCoordinate lat lon =
    validation.isValidLatitude parseFloat (Num lat) &&
    validation.isValidLongitude parseFloat (Num lon)).
  { unfold apiUtils.isValidCoordinate, validation.isValidLatitude,
      validation.isValidLongitude, Js.geb. cbn [validation.toNum].
    destruct (-90 <=? lat) eqn:Hlat.
    - destruct (NumberFacts.leb_not_nan _ _ Hlat) as [_ ->].
      destruct (-180 <=? lon) eqn:Hlon.
      + destruct (NumberFacts.leb_not_nan _ _ Hlon) as [_ ->].
        cbn [negb andb]. now destruct (lat <=? 90).
      + cbn [negb andb]. destruct (lat <=? 90); cbn [andb];
          now rewrite ?andb_false_r.
    - cbn [andb]. now rewrite andb_false_r. }
  split; [exact Hagree|].
  rewrite Hagree.
  unfold validation.isValidLatitude, validation.isValidLongitude.
  cbn [validation.toNum].
  intros [-> | ->]; cbn [negb andb]; [reflexivity|apply andb_false_r].
Qed.

(** X2: every point inside the New York bounding box is a valid coordinate,
    so [isWithinNYC] is the stricter test. *)
Theorem X2_isWithinNYC_valid (lat lon : Js.number) :
  apiUtils.isWithinNYC lat lon = true ->
  apiUtils.isValidCoordinate lat lon = true.
Proof.
  unfold apiUtils.isWithinNYC, apiUtils.isValidCoordinate, Js.geb.
  rewrite !andb_true_iff. intros [[[Hs Hn] Hw] He].
  repeat split.
  - exact (NumberFacts.leb_trans (-90) 40.4774 lat eq_refl Hs).
  - exact (NumberFacts.leb_trans lat 40.9176 90 Hn eq_refl).
  - exact (NumberFacts.leb_trans (-180) (-74.2591) lon eq_refl Hw).
  - exact (NumberFacts.leb_trans lon (-73.7004) 180 He eq_refl).
Qed.

End CoordinateChecks.

Lemma X2_isWithinNYC_valid_witness :
  apiUtils.isWithinNYC 40.7580 (-73.9855) = true /\
  apiUtils.isValidCoordinate 40.7580 (-73.9855) = true.
Proof.
  split; [reflexivity|].
  apply X2_isWithinNYC_valid. reflexivity.
Defined.

(** ** The regions of the borough classifier *)

(** X3: the region of each label of [getBoroughFromCoordinates], read off the
    rule chain with its priorities.  ['queens'] is the band of latitudes
    (40.6892, 40.7394] west of -73.8648; ['brooklyn'], tested after it, is
    left with (40.5706, 40.6892]; ['bronx'] is reached only when the
    ['manhattan'] rule failed on the longitude, so it lies west of -73.9441;
    ['staten_island'] is every latitude up to 40.5706, whatever the
    longitude. *)
Theorem X3_borough_regions (lat lon : Js.number) :
  (apiUtils.getBoroughFromCoordinates lat lon = "manhattan"%string <->
     (40.7589 <? lat) = true /\ (-73.9441 <? lon) = true) /\
  (apiUtils.getBoroughFromCoordinates lat lon = "queens"%string <->
     (40.6892 <? lat) = true /\ (lat <=? 40.7394) = true /\
     (lon <=? -73.8648) = true) /\
  (apiUtils.getBoroughFromCoordinates lat lon = "brooklyn"%string <->
     (40.5706 <? lat) = true /\ (lat <=? 40.6892) = true /\
     (lon <=? -73.8648) = true) /\
  (apiUtils.getBoroughFromCoordinates lat lon = "bronx"%string <->
     (40.7896 <? lat) = true /\ (lon <=? -73.9441) = true) /\
  (apiUtils.getBoroughFromCoordinates lat lon = "staten_island"%string <->
     (lat <=? 40.5706) = true).
Proof.
  unfold apiUtils.getBoroughFromCoordinates, Js.gtb.
  destruct (40.7589 <? lat) eqn:HA, (-73.9441 <? lon) eqn:HM,
    (40.6892 <? lat) eqn:HQ, (lat <=? 40.7394) eqn:HB,
    (lon <=? -73.8648) eqn:HW, (40.5706 <? lat) eqn:HS,
    (40.7896 <? lat) eqn:HX, (lat <=? 40.5706) eqn:HT,
    (lat <=? 40.6892) eqn:HQ', (lon <=? -73.9441) eqn:HM';
    cbn [andb];
    try (exfalso; order_absurd lat; fail);
    try (exfalso; order_absurd lon; fail);
    repeat split; intros; try discriminate; try reflexivity;
    repeat match goal with H : _ /\ _ |- _ => destruct H end;
    try discriminate.
Qed.

(** X4: no rule covers the latitudes in (40.7394, 40.7589]: there the
    classifier answers ['unknown'] for every longitude (Times Square lies in
    this band), and it also answers ['unknown'] when the latitude is [NaN]. *)
Theorem X4_borough_unknown_band (lat lon : Js.number) :
  ((40.7394 <? lat) = true /\ (lat <=? 40.7589) = true) \/
  Js.isNaN lat = true ->
  apiUtils.getBoroughFromCoordinates lat lon = "unknown"%string.
Proof.
  intros Hband.
  unfold apiUtils.getBoroughFromCoordinates, Js.gtb.
  destruct (40.7589 <? lat) eqn:HA, (lat <=? 40.7394) eqn:HB,
    (40.7896 <? lat) eqn:HX, (lat <=? 40.5706) eqn:HT;
    cbn [andb]; rewrite ?andb_false_r; cbn [andb];
    try reflexivity;
    exfalso;
    (destruct Hband as [[Hlo Hhi]|Hnan];
     [order_absurd lat
     |repeat match goal with
       | H : (_ <? lat) = true |- _ =>
           apply NumberFacts.ltb_not_nan in H; destruct H; congruence
       | H : (lat <=? _) = true |- _ =>
           apply NumberFacts.leb_not_nan in H; destruct H; congruence
       end]).
Qed.

Lemma X4_borough_unknown_band_witness :
  ((40.7394 <? 40.7580) = true /\ (40.7580 <=? 40.7589) = true) /\
  apiUtils.getBoroughFromCoordinates 40.7580 (-73.9855) = "unknown"%string /\
  apiUtils.getBoroughFromCoordinates nan (-73.9855) = "unknown"%string.
Proof.
  split; [split; reflexivity|].
  split; apply X4_borough_unknown_band.
  - left. split; reflexivity.
  - right. reflexivity.
Defined.

(** ** The other validators *)

Section Validators.

Variable parseFloat : string -> Js.number.
Variable parseInt : string -> Js.number.

(** X5: [isValidLatitude] accepts exactly the values whose number (the
    argument, or its [parseFloat] when it is a string) lies in [-90, 90], and
    [isValidLongitude] those in [-180, 180]; a text that parses to [NaN] is
    refused by both. *)
Theorem X5_latitude_longitude_ranges (x : string_or_number) :
  (validation.isValidLatitude parseFloat x = true <->
     (-90 <=? validation.toNum parseFloat x) = true /\
     (validation.toNum parseFloat x <=? 90) = true) /\
  (validation.isValidLongitude parseFloat x = true <->
     (-180 <=? validation.toNum parseFloat x) = true /\
     (validation.toNum parseFloat x <=? 180) = true) /\
  (Js.isNaN (validation.toNum parseFloat x) = true ->
     validation.isValidLatitude parseFloat x = false /\
     validation.isValidLongitude parseFloat x = false).
Proof.
  split; [apply isValidLatitude_iff|].
  split; [apply isValidLongitude_iff|].
  unfold validation.isValidLatitude, validation.isValidLongitude.
  cbn zeta. now intros ->.
Qed.

(** The number [isValidYear] tests. *)
Definition yearNum (year : string_or_number) : Js.number :=
  match year with Str s => parseInt s | Num n => n end.

(** X6: [isValidYear] accepts exactly the years from 2018 to the current
    year, both included; when the clock's year is before 2018, or is not a
    number, no year at all is accepted. *)
Theorem X6_isValidYear_range (currentYear : Js.number)
    (year : string_or_number) :
  (validation.isValidYear parseInt currentYear year = true <->
     (2018 <=? yearNum year) = true /\
     (yearNum year <=? currentYear) = true) /\
  ((currentYear <? 2018) = true \/ Js.isNaN currentYear = true ->
     validation.isValidYear parseInt currentYear year = false).
Proof.
  assert (Hiff : validation.isValidYear parseInt currentYear year = true <->
     (2018 <=? yearNum year) = true /\
     (yearNum year <=? currentYear) = true).
  { unfold validation.isValidYear, Js.geb. fold (yearNum year). cbn zeta.
    rewrite !andb_true_iff. split; [tauto|].
    intros [Hlo Hhi]. repeat split; try assumption.
    destruct (NumberFacts.leb_not_nan _ _ Hhi) as [-> _]. reflexivity. }
  split; [exact Hiff|].
  intros Hclock. apply not_true_is_false. intros Hv.
  apply Hiff in Hv. destruct Hv as [Hlo Hhi].
  pose proof (NumberFacts.leb_trans _ _ _ Hlo Hhi) as Hle.
  destruct Hclock as [Hlt|Hnan].
  - apply NumberFacts.ltb_asym in Hlt. congruence.
  - destruct (NumberFacts.leb_not_nan _ _ Hle). congruence.
Qed.

End Validators.

(** ** How the radius filter and the distance sort compose *)

Section FilterSortLaws.

Context {T : Type} `{HasDistance T}.

(** X7: filtering twice with the same radius changes nothing more, and
    filtering an already filtered list with a smaller or equal radius gives
    what filtering the original list with it gives: a search can be narrowed
    on the previous result. *)
Theorem X7_filterByRadius_narrowing (items : list T) :
  (forall r,
      apiUtils.filterByRadius (apiUtils.filterByRadius items r) r =
      apiUtils.filterByRadius items r) /\
  (forall r1 r2,
      (r1 <=? r2) = true ->
      apiUtils.filterByRadius (apiUtils.filterByRadius items r2) r1 =
      apiUtils.filterByRadius items r1).
Proof.
  unfold apiUtils.filterByRadius, Js.filter. split.
  - intros r. induction items as [|x items IH]; [reflexivity|].
    cbn [filter]. destruct (distance x <=? r) eqn:Hx; [|exact IH].
    cbn [filter]. now rewrite Hx, IH.
  - intros r1 r2 Hr. induction items as [|x items IH]; [reflexivity|].
    cbn [filter]. destruct (distance x <=? r1) eqn:H1.
    + rewrite (NumberFacts.leb_trans _ _ _ H1 Hr). cbn [filter].
      now rewrite H1, IH.
    + destruct (distance x <=? r2); [|exact IH].
      cbn [filter]. now rewrite H1.
Qed.

Lemma notFarther_trans (a b c : T) :
  notFarther a b -> notFarther b c -> notFarther a c.
Proof. unfold notFarther. apply NumberFacts.leb_trans. Qed.

Lemma sorted_strongly (l : list T) :
  Sorted notFarther l -> StronglySorted notFarther l.
Proof.
  apply Sorted_StronglySorted. intros a b c. apply notFarther_trans.
Qed.

(** Inserting before a record that is not strictly nearer leaves the list
    as it is. *)
Lemma sort_insert_front x y l :
  (distance y <? distance x) = false ->
  Js.sort_insert (fun a b => distance a - distance b) x (y :: l) = x :: y :: l.
Proof. intros Hyx. now rewrite sort_insert_step, Hyx. Qed.

Lemma notFarther_not_nearer (x y : T) :
  notFarther x y -> (distance y <? distance x) = false.
Proof.
  unfold notFarther. intros Hxy.
  destruct (distance y <? distance x) eqn:Hlt; [|reflexivity].
  apply NumberFacts.ltb_asym in Hlt. congruence.
Qed.

Lemma sort_of_sorted (l : list T) :
  Sorted notFarther l ->
  Js.sort (fun a b => distance a - distance b) l = l.
Proof.
  induction 1 as [|x l Hs IH Hhd]; [reflexivity|].
  cbn [Js.sort fold_right]. fold (Js.sort (fun a b => distance a - distance b) l).
  rewrite IH. destruct Hhd as [|y l Hxy]; [reflexivity|].
  apply sort_insert_front. now apply notFarther_not_nearer.
Qed.

(** X8: [sortByDistance] returns an ascending list as it is, and sorting its
    own result again changes nothing (distances being numbers). *)
Theorem X8_sortByDistance_idempotent (items : list T) :
  (Sorted notFarther items -> apiUtils.sortByDistance items = items) /\
  (Forall (fun r => Js.isNaN (distance r) = false) items ->
   apiUtils.sortByDistance (apiUtils.sortByDistance items) =
   apiUtils.sortByDistance items).
Proof.
  unfold apiUtils.sortByDistance, Js.spread. split.
  - apply sort_of_sorted.
  - intros Hnum. apply sort_of_sorted. now apply sort_sorted.
Qed.

(** In an ascending list, inserting [x] and then keeping the records that
    satisfy [keep] is keeping them first and then inserting [x] if it is
    kept. *)
Lemma filter_sort_insert (keep : T -> bool) x l :
  StronglySorted notFarther l ->
  filter keep (Js.sort_insert (fun a b => distance a - distance b) x l) =
  if keep x
  then Js.sort_insert (fun a b => distance a - distance b) x (filter keep l)
  else filter keep l.
Proof.
  induction 1 as [|y l Hs IH Hall].
  - cbn [Js.sort_insert filter]. now destruct (keep x).
  - rewrite sort_insert_step. destruct (distance y <? distance x) eqn:Hyx.
    + cbn [filter]. rewrite IH.
      destruct (keep x); [|reflexivity].
      destruct (keep y); [|reflexivity].
      now rewrite sort_insert_step, Hyx.
    + change (filter keep (x :: y :: l))
        with (if keep x then x :: filter keep (y :: l)
              else filter keep (y :: l)).
      destruct (keep x); [|reflexivity].
      assert (Hfront : forall m,
                 Forall (fun z => (distance z <? distance x) = false) m ->
                 Js.sort_insert (fun a b => distance a - distance b) x m
                 = x :: m).
      { intros m Hm. destruct Hm as [|z m Hz _]; [reflexivity|].
        now apply sort_insert_front. }
      rewrite Hfront; [reflexivity|].
      apply (incl_Forall (incl_filter keep (y :: l))).
      constructor; [exact Hyx|].
      eapply Forall_impl; [|exact Hall]. intros z Hyz.
      destruct (distance z <? distance x) eqn:Hzx; [|reflexivity].
      pose proof (NumberFacts.leb_ltb_trans _ _ _ Hyz Hzx). congruence.
Qed.

(** X9: on records whose distances are numbers, filtering by radius and
    sorting by distance can be done in either order: the nearest-first list
    of the records within the radius is the same. *)
Theorem X9_filter_sort_commute (items : list T) (maxRadius : Js.number) :
  Forall (fun r => Js.isNaN (distance r) = false) items ->
  apiUtils.filterByRadius (apiUtils.sortByDistance items) maxRadius =
  apiUtils.sortByDistance (apiUtils.filterByRadius items maxRadius).
Proof.
  unfold apiUtils.filterByRadius, apiUtils.sortByDistance, Js.spread,
    Js.filter.
  induction 1 as [|x items Hx Hnum IH]; [reflexivity|].
  cbn [Js.sort fold_right].
  fold (Js.sort (fun a b => distance a - distance b) items).
  rewrite filter_sort_insert
    by (apply sorted_strongly; now apply sort_sorted).
  rewrite IH. cbn [filter]. now destruct (distance x <=? maxRadius).
Qed.

Lemma find_filter (f : T -> bool) (l : list T) :
  find f l = hd_error (filter f l).
Proof.
  induction l as [|x l IH]; [reflexivity|].
  cbn [find filter]. now destruct (f x).
Qed.

(** X10: on a non-empty list of records whose distances are numbers, the
    first record of [sortByDistance]'s result is a nearest one, and among
    the records at that distance it is the one that comes first in the
    input: the same record a first-wins scan for the minimum finds. *)
Theorem X10_sortByDistance_head (items : list T) :
  items <> [] ->
  Forall (fun r => Js.isNaN (distance r) = false) items ->
  exists nearest,
    hd_error (apiUtils.sortByDistance items) = Some nearest /\
    (forall r, In r items -> (distance nearest <=? distance r) = true) /\
    find (fun r => distance r =? distance nearest) items = Some nearest.
Proof.
  intros Hne Hnum.
  pose proof (sort_sorted items Hnum) as Hsorted.
  apply sorted_strongly in Hsorted.
  pose proof (sort_perm items) as Hperm.
  pose proof (sort_stable) as Hstable.
  unfold apiUtils.sortByDistance, Js.spread.
  destruct (Js.sort (fun a b => distance a - distance b) items)
    as [|nearest rest] eqn:Hout.
  { apply Permutation_sym, Permutation_nil in Hperm. contradiction. }
  assert (Hn : Js.isNaN (distance nearest) = false).
  { apply (proj1 (Forall_forall _ _) Hnum nearest).
    eapply Permutation_in; [apply Permutation_sym; exact Hperm|now left]. }
  exists nearest. split; [reflexivity|]. split.
  - intros r Hr. apply (Permutation_in _ Hperm) in Hr.
    destruct Hr as [<-|Hr]; [now apply NumberFacts.leb_refl|].
    inversion_clear Hsorted as [|? ? _ Hall].
    exact (proj1 (Forall_forall _ _) Hall r Hr).
  - rewrite find_filter, <- (Hstable (distance nearest) items), Hout.
    cbn [filter]. rewrite NumberFacts.eqb_leb.
    now rewrite (NumberFacts.leb_refl _ Hn).
Qed.

End FilterSortLaws.

(** ** Bookmarks and the search history *)

Section StorageLaws.

Import storage.

Lemma filter_all_kept {A} (keep : A -> bool) (l : list A) :
  Forall (fun a => keep a = true) l -> filter keep l = l.
Proof.
  induction 1 as [|a l Ha Hl IH]; [reflexivity|].
  cbn [filter]. now rewrite Ha, IH.
Qed.

(** X11: removing the bookmark that was just saved gives back the bookmarks
    there were, provided the new identifier is not the identifier of an
    older bookmark; and whatever the storage held, after [removeBookmark(id)]
    no bookmark with that identifier is left. *)
Theorem X11_bookmark_save_remove (c : bookmarks_cell) (uuid : string) :
  (forall now name latitude longitude address type,
      ~ In uuid (map bookmark_id (getBookmarks true c)) ->
      getBookmarks true
        (removeBookmark true uuid
           (saveBookmark true uuid now name latitude longitude address type
              c))
      = getBookmarks true c) /\
  ~ In uuid (map bookmark_id (getBookmarks true (removeBookmark true uuid c))).
Proof.
  split.
  - intros now name latitude longitude address type Hfresh.
    unfold removeBookmark, saveBookmark, Js.filter.
    cbn [negb getBookmarks].
    set (old := match c with StoredBookmarks b => b | _ => [] end) in *.
    rewrite filter_app. cbn [filter bookmark_id].
    rewrite String.eqb_refl. cbn [negb]. rewrite app_nil_r.
    apply filter_all_kept. apply Forall_forall. intros b Hb.
    apply negb_true_iff. apply String.eqb_neq. intros Heq.
    apply Hfresh. apply in_map_iff. now exists b.
  - unfold removeBookmark, Js.filter. cbn [negb getBookmarks].
    rewrite in_map_iff. intros (b & Hid & Hb).
    apply filter_In in Hb. destruct Hb as [_ Hb].
    rewrite Hid, String.eqb_refl in Hb. discriminate.
Qed.

(** X12: searching for the same query twice in a row refreshes the first
    entry and changes nothing else: the second call replaces the item the
    first call put in front by its own, and the items behind it are the
    same. *)
Theorem X12_addToSearchHistory_again
    uuid1 now1 loc1 ty1 uuid2 now2 loc2 ty2 q (c : cell) :
  exists rest,
    addToSearchHistory true uuid1 now1 q loc1 ty1 c =
      Stored ({| id := uuid1; query := q; location := loc1;
                 timestamp := now1; type := ty1 |} :: rest) /\
    addToSearchHistory true uuid2 now2 q loc2 ty2
      (addToSearchHistory true uuid1 now1 q loc1 ty1 c) =
      Stored ({| id := uuid2; query := q; location := loc2;
                 timestamp := now2; type := ty2 |} :: rest).
Proof.
  destruct (addToSearchHistory_head uuid1 now1 q loc1 ty1 c)
    as (rest & Heq & Hlen & Hq & _).
  exists rest. split; [exact Heq|].
  rewrite Heq. unfold addToSearchHistory, Js.filter.
  cbn [negb getSearchHistory filter query].
  rewrite String.eqb_refl. cbn [negb].
  rewrite filter_all_kept.
  - rewrite firstn_cons. f_equal. f_equal. apply firstn_all2. lia.
  - apply Forall_forall. intros item Hitem.
    apply negb_true_iff. apply String.eqb_neq. intros Hsame.
    apply Hq. apply in_map_iff. now exists item.
Qed.

(** X13: on a storage that only this module has written to, what
    [getSearchHistory] returns, in a browser or not, always has at most 20
    items and no two items with the same query. *)
Theorem X13_getSearchHistory_bounded (window : bool) (c : cell) :
  reachable c ->
  (List.length (getSearchHistory window c) <= 20)%nat /\
  NoDup (map query (getSearchHistory window c)).
Proof.
  intros Hreach. destruct window; [|split; [simpl; lia|constructor]].
  exact (reachable_ok c Hreach).
Qed.

End StorageLaws.

Lemma X11_bookmark_save_remove_witness :
  let c :=
    storage.saveBookmark true "b1" "t1" "Home" 40.7128 (-74.0060)
      "City Hall" "custom" storage.NoBookmarks in
  ~ In "b2"%string
      (map storage.bookmark_id (storage.getBookmarks true c)) /\
  storage.getBookmarks true
    (storage.removeBookmark true "b2"
       (storage.saveBookmark true "b2" "t2" "Work" 40.7580 (-73.9855)
          "Times Square" "custom" c))
  = storage.getBookmarks true c.
Proof.
  cbv zeta.
  assert (Hfresh : ~ In "b2"%string
            (map storage.bookmark_id
               (storage.getBookmarks true
                  (storage.saveBookmark true "b1" "t1" "Home" 40.7128
                     (-74.0060) "City Hall" "custom" storage.NoBookmarks)))).
  { simpl. intros [Heq|[]]. discriminate Heq. }
  split; [exact Hfresh|].
  apply (proj1 (X11_bookmark_save_remove _ "b2")). exact Hfresh.
Defined.

Lemma X13_getSearchHistory_bounded_witness :
  storage.reachable example_cell /\
  (List.length (storage.getSearchHistory true example_cell) <= 20)%nat /\
  NoDup (map storage.query (storage.getSearchHistory true example_cell)).
Proof.
  assert (Hreach : storage.reachable example_cell) by (repeat constructor).
  split; [exact Hreach|].
  exact (X13_getSearchHistory_bounded true example_cell Hreach).
Defined.

(** ** What the coordinate form submits *)

Section FormLaws.

Import CoordinateInput.

Variable parseFloat : string -> Js.number.
Variable trim : string -> string.

Lemma no_errors_inv (e : errors) :
  no_errors e = true ->
  latitude_error e = None /\ longitude_error e = None /\
  radius_error e = None.
Proof.
  unfold no_errors.
  destruct (latitude_error e), (longitude_error e), (radius_error e);
    try discriminate; auto.
Qed.

(** The fields that passed [validateInputs]. *)
Lemma validateInputs_ok (f : form) :
  snd (validateInputs parseFloat trim f) = true ->
  validation.isValidLatitude parseFloat (Str (latitude_input f)) = true /\
  validation.isValidLongitude parseFloat (Str (longitude_input f)) = true /\
  (showRadius f = true ->
   validation.isValidRadius parseFloat (Str (radius_input f)) = true).
Proof.
  unfold validateInputs. cbn [snd]. intros Hok.
  apply no_errors_inv in Hok. destruct Hok as (Hlat & Hlon & Hrad).
  unfold newErrors in Hlat, Hlon, Hrad.
  cbn [latitude_error longitude_error radius_error] in Hlat, Hlon, Hrad.
  repeat split.
  - destruct (is_empty (trim (latitude_input f))); [discriminate|].
    destruct (validation.isValidLatitude _ _); [reflexivity|discriminate].
  - destruct (is_empty (trim (longitude_input f))); [discriminate|].
    destruct (validation.isValidLongitude _ _); [reflexivity|discriminate].
  - intros Hshow. rewrite Hshow in Hrad.
    destruct (is_empty (trim (radius_input f))); [discriminate|].
    destruct (validation.isValidRadius _ _); [reflexivity|discriminate].
Qed.

(** The two shapes of a submission. *)
Lemma handleSubmit_cases (f : form) :
  (snd (validateInputs parseFloat trim f) = false /\
   handleSubmit parseFloat trim f =
     [setErrors (newErrors parseFloat trim f)]) \/
  (snd (validateInputs parseFloat trim f) = true /\
   handleSubmit parseFloat trim f =
     setErrors (newErrors parseFloat trim f)
     :: onLocationSelect
          {| latitude := parseFloat (latitude_input f);
             longitude := parseFloat (longitude_input f);
             address := None |}
     :: (if showRadius f && hasOnRadiusChange f
         then [onRadiusChange (parseFloat (radius_input f))] else [])
        ++ [addToSearchHistory
              (latitude_input f ++ ", " ++ longitude_input f)%string
              {| latitude := parseFloat (latitude_input f);
                 longitude := parseFloat (longitude_input f);
                 address := None |}
              "coordinates"%string]).
Proof.
  unfold handleSubmit, validateInputs. cbn [snd].
  destruct (no_errors (newErrors parseFloat trim f)); cbn [negb];
    [right|left]; split; reflexivity.
Qed.

Ltac break_In :=
  repeat match goal with
  | H : In _ [] |- _ => destruct H
  | H : In _ (_ :: _) |- _ => destruct H as [H|H]
  | H : In _ (_ ++ _) |- _ => apply in_app_or in H; destruct H as [H|H]
  | H : In _ (if ?b then _ else _) |- _ => destruct b eqn:?
  end.

(** X14: whatever is typed into the form, a submission hands over only
    validated data: a location passed to [onLocationSelect] is a valid
    coordinate, a radius passed to [onRadiusChange] is greater than 0 and at
    most 5000, and an entry is added to the search history only for a
    location that was selected. *)
Theorem X14_handleSubmit_validated (f : form) :
  (forall location,
      In (onLocationSelect location) (handleSubmit parseFloat trim f) ->
      apiUtils.isValidCoordinate (latitude location) (longitude location)
        = true) /\
  (forall radius,
      In (onRadiusChange radius) (handleSubmit parseFloat trim f) ->
      (0 <? radius) = true /\ (radius <=? 5000) = true) /\
  (forall query location type,
      In (addToSearchHistory query location type)
         (handleSubmit parseFloat trim f) ->
      In (onLocationSelect location) (handleSubmit parseFloat trim f)).
Proof.
  destruct (handleSubmit_cases f) as [[_ ->]|[Hok ->]].
  { repeat split; intros; break_In; discriminate. }
  destruct (validateInputs_ok f Hok) as (Hlat & Hlon & Hrad).
  apply (isValidLatitude_iff parseFloat) in Hlat.
  apply (isValidLongitude_iff parseFloat) in Hlon.
  cbn [validation.toNum] in Hlat, Hlon.
  split; [|split].
  - intros location Hin. break_In; try discriminate.
    injection Hin as <-. cbn [latitude longitude].
    unfold apiUtils.isValidCoordinate, Js.geb.
    destruct Hlat as [-> ->], Hlon as [-> ->]. reflexivity.
  - intros radius Hin. break_In; try discriminate.
    injection Hin as <-.
    apply (isValidRadius_iff parseFloat (Str (radius_input f))).
    apply Hrad.
    match goal with E : (showRadius f && _) = true |- _ =>
      apply andb_true_iff in E; tauto end.
  - intros query location type Hin. break_In; try discriminate.
    injection Hin as _ <- _. right. now left.
Qed.

(** X15: the test that enables the submit button and the validation run on
    submission agree.  A form that passes [validateInputs] satisfies
    [isFormValid]; and, [parseFloat] giving [NaN] on blank text, a form that
    satisfies [isFormValid] passes [validateInputs]. *)
Theorem X15_isFormValid_validateInputs (f : form) :
  (snd (validateInputs parseFloat trim f) = true -> isFormValid parseFloat f = true) /\
  ((forall s, is_empty (trim s) = true -> Js.isNaN (parseFloat s) = true) ->
   isFormValid parseFloat f = true ->
   snd (validateInputs parseFloat trim f) = true).
Proof.
  split.
  - intros Hok. destruct (validateInputs_ok f Hok) as (Hlat & Hlon & Hrad).
    unfold isFormValid. rewrite Hlat, Hlon. cbn [andb].
    destruct (showRadius f); [now rewrite Hrad|reflexivity].
  - intros Hblank. unfold isFormValid.
    rewrite !andb_true_iff. intros [[Hlat Hlon] Hrad].
    assert (Hfilled : forall s validator,
      (validator = validation.isValidLatitude parseFloat \/
       validator = validation.isValidLongitude parseFloat \/
       validator = validation.isValidRadius parseFloat) ->
      validator (Str s) = true -> is_empty (trim s) = false).
    { intros s validator Hwhich Hvalid.
      destruct (is_empty (trim s)) eqn:He; [|reflexivity].
      apply Hblank in He.
      destruct Hwhich as [ -> | [ -> | -> ] ];
        unfold validation.isValidLatitude, validation.isValidLongitude,
          validation.isValidRadius in Hvalid;
        cbn [validation.toNum] in Hvalid; rewrite He in Hvalid;
        discriminate. }
    unfold validateInputs, no_errors, newErrors.
    cbn [snd latitude_error longitude_error radius_error].
    rewrite (Hfilled _ _ (or_introl eq_refl) Hlat), Hlat.
    rewrite (Hfilled _ _ (or_intror (or_introl eq_refl)) Hlon), Hlon.
    cbn [negb].
    destruct (showRadius f); [|reflexivity].
    cbn [negb orb] in Hrad.
    now rewrite (Hfilled _ _ (or_intror (or_intror eq_refl)) Hrad), Hrad.
Qed.

(** X16: when the radius field is not shown, its text plays no role: the
    submission does the same with any other text in it, and it never calls
    [onRadiusChange]. *)
Theorem X16_hidden_radius_ignored (f : form) (other : string) :
  showRadius f = false ->
  handleSubmit parseFloat trim f =
  handleSubmit parseFloat trim
    {| latitude_input := latitude_input f;
       longitude_input := longitude_input f;
       radius_input := other;
       showRadius := showRadius f;
       hasOnRadiusChange := hasOnRadiusChange f |} /\
  forall radius,
    ~ In (onRadiusChange radius) (handleSubmit parseFloat trim f).
Proof.
  intros Hshow. split.
  - unfold handleSubmit, validateInputs, newErrors.
    cbn [latitude_input longitude_input radius_input showRadius
         hasOnRadiusChange].
    rewrite Hshow. reflexivity.
  - intros radius Hin.
    destruct (handleSubmit_cases f) as [[_ Heq]|[_ Heq]];
      rewrite Heq, ?Hshow in Hin; cbn [andb] in Hin;
      break_In; discriminate.
Qed.

End FormLaws.

(** ** More on the shape-sniffing [getParkingSigns] *)

(** A value that [String(...)] and [Number(...)] cannot convert: an object
    with an own property [toString], or an array that holds such a value at
    any depth. *)
Fixpoint unprintable (v : JsValue.value) : bool :=
  match v with
  | JsValue.VObj properties => JsValue.has_own "toString" properties
  | JsValue.VArr elements =>
      (fix some (l : list JsValue.value) : bool :=
         match l with
         | [] => false
         | e :: l' => unprintable e || some l'
         end) elements
  | _ => false
  end.

(** The items on which the callback of [getParkingSigns] throws: [null] and
    [undefined], and the items in which a value that gets converted cannot
    be.  The [regulations] are converted only when there is no
    [description]. *)
Definition refused (item : JsValue.value) : bool :=
  JsValue.nullish item
  || unprintable
       (JsValue.coalesce (JsValue.prop item "latitude")
          (JsValue.prop item "lat"))
  || unprintable
       (JsValue.coalesce (JsValue.prop item "longitude")
          (JsValue.prop item "lon"))
  || unprintable
       (JsValue.coalesce (JsValue.prop item "distance")
          (JsValue.prop item "dist"))
  || unprintable
       (JsValue.coalesce (JsValue.prop item "street_name")
          (JsValue.prop item "street"))
  || (if JsValue.nullish (JsValue.prop item "description")
      then JsValue.isArray (JsValue.prop item "regulations")
           && unprintable (JsValue.prop item "regulations")
      else unprintable (JsValue.prop item "description"))
  || unprintable
       (JsValue.coalesce (JsValue.prop item "id")
          (JsValue.prop item "sign_id")).

Section ParkingSignsLaws.

Import JsValue apiClient.

Variable numberToString : Js.number -> string.
Variable stringToNumber : string -> Js.number.

(** A call that throws, throws a [TypeError], and it throws exactly when
    [cannot] says so. *)
Definition throws_when {A} (c : completion A) (cannot : bool) : Prop :=
  match c with
  | Return _ => cannot = false
  | Throw message => message = "TypeError"%string /\ cannot = true
  end.

Lemma unprintable_elements l : unprintable (VArr l) = existsb unprintable l.
Proof.
  induction l as [|e l IH]; [reflexivity|].
  cbn [existsb]. rewrite <- IH. reflexivity.
Qed.

Lemma unprintable_nullish v : nullish v = true -> unprintable v = false.
Proof. now destruct v. Qed.

Lemma unprintable_default a d :
  unprintable d = false ->
  unprintable (coalesce a d) = unprintable a.
Proof.
  intros Hd. unfold coalesce. destruct (nullish a) eqn:Ha; [|reflexivity].
  now rewrite Hd, (unprintable_nullish a Ha).
Qed.

Lemma toString_outcome : forall v,
  throws_when (toString numberToString v) (unprintable v).
Proof.
  fix IH 1. intros [ | |[|]|n|s|l|properties]; try reflexivity.
  - cbn [toString unprintable].
    assert (Heach : throws_when
              ((fix each (l0 : list value) : completion (list string) :=
                  match l0 with
                  | [] => Return []
                  | e :: l' =>
                      do s <- (if nullish e then Return ""%string
                               else toString numberToString e) ;
                      do rest <- each l' ;
                      Return (s :: rest)
                  end) l)
              ((fix some (l0 : list value) : bool :=
                  match l0 with
                  | [] => false
                  | e :: l' => unprintable e || some l'
                  end) l)).
    { induction l as [|e l IHl]; [reflexivity|].
      destruct (nullish e) eqn:He.
      - rewrite (unprintable_nullish e He). cbn [and_then orb].
        destruct ((fix each (l0 : list value) := _) l); exact IHl.
      - pose proof (IH e) as Hhead.
        destruct (toString numberToString e) as [s|message];
          cbn [and_then throws_when] in *.
        + rewrite Hhead. cbn [orb].
          destruct ((fix each (l0 : list value) := _) l); exact IHl.
        + destruct Hhead as [-> ->]. now split. }
    destruct ((fix each (l0 : list value) := _) l); exact Heach.
  - cbn [toString unprintable]. now destruct (has_own "toString" properties).
Qed.

Lemma strings_of_outcome l :
  throws_when (strings_of numberToString l) (existsb unprintable l).
Proof.
  induction l as [|e l IH]; [reflexivity|]. cbn [strings_of existsb].
  destruct (nullish e) eqn:He.
  - rewrite (unprintable_nullish e He). cbn [and_then orb].
    destruct (strings_of numberToString l); exact IH.
  - pose proof (toString_outcome e) as Hhead.
    destruct (toString numberToString e) as [s|message];
      cbn [and_then throws_when] in *.
    + rewrite Hhead. cbn [orb].
      destruct (strings_of numberToString l); exact IH.
    + destruct Hhead as [-> ->]. now split.
Qed.

Lemma join_outcome separator l :
  throws_when (join numberToString separator l) (unprintable (VArr l)).
Proof.
  rewrite unprintable_elements. unfold join.
  pose proof (strings_of_outcome l) as H.
  destruct (strings_of numberToString l); exact H.
Qed.

Lemma toNumber_outcome v :
  throws_when (toNumber numberToString stringToNumber v) (unprintable v).
Proof.
  pose proof (toString_outcome v) as H.
  destruct v as [ | |[|]|n|s|l|properties]; try reflexivity;
    unfold toNumber; destruct (toString numberToString _); exact H.
Qed.

(** The [description]: of the item, or joined from its [regulations]. *)
Lemma description_outcome item :
  throws_when
    (do described <-
       coalesce_with (prop item "description")
         (match prop item "regulations" with
          | VArr regulations =>
              do joined <- join numberToString " " regulations ;
              Return (VStr joined)
          | _ => Return (VStr ""%string)
          end) ;
     toString numberToString (coalesce described (VStr "")))
    (if nullish (prop item "description")
     then isArray (prop item "regulations")
          && unprintable (prop item "regulations")
     else unprintable (prop item "description")).
Proof.
  unfold coalesce_with.
  destruct (nullish (prop item "description")) eqn:Hd.
  - destruct (prop item "regulations") as [ | |b|n|s|l|properties];
      try reflexivity.
    cbn [isArray andb]. pose proof (join_outcome " " l) as Hjoin.
    destruct (join numberToString " " l) as [joined|message]; exact Hjoin.
  - cbn [and_then]. unfold coalesce. rewrite Hd. apply toString_outcome.
Qed.

(** The callback throws exactly on the refused items. *)
Lemma toParkingSign_outcome item index :
  throws_when (toParkingSign numberToString stringToNumber item index)
    (refused item).
Proof.
  unfold toParkingSign, refused.
  destruct (nullish item); [now split|]. cbn [orb].
  pose proof (toNumber_outcome
                (coalesce (prop item "latitude") (prop item "lat"))) as H1.
  destruct (toNumber _ _ (coalesce (prop item "latitude") _))
    as [latitude|message]; cbn [and_then throws_when] in *;
    [rewrite H1; cbn [orb]|destruct H1 as [-> ->]; now split].
  pose proof (toNumber_outcome
                (coalesce (prop item "longitude") (prop item "lon"))) as H2.
  destruct (toNumber _ _ (coalesce (prop item "longitude") _))
    as [longitude|message]; cbn [and_then throws_when] in *;
    [rewrite H2; cbn [orb]|destruct H2 as [-> ->]; now split].
  pose proof (toNumber_outcome
                (coalesce (coalesce (prop item "distance")
                             (prop item "dist")) (VNum 0))) as H3.
  rewrite unprintable_default in H3 by reflexivity.
  destruct (toNumber _ _ (coalesce (coalesce (prop item "distance") _) _))
    as [distance|message]; cbn [and_then throws_when] in *;
    [rewrite H3; cbn [orb]|destruct H3 as [-> ->]; now split].
  pose proof (toString_outcome
                (coalesce (coalesce (prop item "street_name")
                             (prop item "street")) (VStr ""))) as H4.
  rewrite unprintable_default in H4 by reflexivity.
  destruct (toString _ (coalesce (coalesce (prop item "street_name") _) _))
    as [street_name|message]; cbn [and_then throws_when] in *;
    [rewrite H4; cbn [orb]|destruct H4 as [-> ->]; now split].
  pose proof (description_outcome item) as H5.
  destruct (coalesce_with (prop item "description") _)
    as [described|message]; cbn [and_then throws_when] in *;
    [|destruct H5 as [-> ->]; now split].
  destruct (toString _ (coalesce described _))
    as [description|message]; cbn [and_then throws_when] in *;
    [rewrite H5; cbn [orb]|destruct H5 as [-> ->]; now split].
  pose proof (toString_outcome
                (coalesce (coalesce (prop item "id") (prop item "sign_id"))
                   (VStr (numberToString latitude ++ "," ++
                          numberToString longitude ++ "," ++
                          numberToString (of_index index))))) as H6.
  rewrite unprintable_default in H6 by reflexivity.
  destruct (toString _ (coalesce (coalesce (prop item "id") _) _))
    as [id|message]; cbn [and_then throws_when] in *;
    [exact H6|destruct H6 as [-> ->]; now split].
Qed.

Lemma map_from_outcome items : forall index,
  match map_from numberToString stringToNumber index items with
  | Return signs =>
      List.length signs = List.length items /\
      Forall (fun item => refused item = false) items
  | Throw message =>
      message = "TypeError"%string /\
      Exists (fun item => refused item = true) items
  end.
Proof.
  induction items as [|item items IH]; intros index; cbn [map_from].
  - split; [reflexivity|constructor].
  - pose proof (toParkingSign_outcome item index) as Hitem.
    destruct (toParkingSign numberToString stringToNumber item index)
      as [sign|message]; cbn [throws_when] in Hitem.
    + specialize (IH (S index)).
      destruct (map_from numberToString stringToNumber (S index) items)
        as [signs|message].
      * destruct IH as [Hlen Hall]. split; [simpl; congruence|].
        now constructor.
      * destruct IH as [Hmsg Hex]. split; [exact Hmsg|]. now right.
    + destruct Hitem as [-> Hitem]. split; [reflexivity|]. now left.
Qed.

(** X17: [getParkingSigns] throws exactly when the list it found holds a
    refused item: one that is [null] or [undefined], or one in which a value
    that gets converted is an object with an own [toString] property (or an
    array holding one).  What it throws is a [TypeError]; otherwise it
    returns one sign for each item of the list. *)
Theorem X17_getParkingSigns_throws_iff (raw : value) :
  ((exists message,
       getParkingSigns numberToString stringToNumber raw = Throw message)
   <-> Exists (fun item => refused item = true) (list_of raw)) /\
  (forall message,
      getParkingSigns numberToString stringToNumber raw = Throw message ->
      message = "TypeError"%string) /\
  (forall signs,
      getParkingSigns numberToString stringToNumber raw = Return signs ->
      List.length signs = List.length (list_of raw)).
Proof.
  unfold getParkingSigns.
  pose proof (map_from_outcome (list_of raw) 0) as Hout.
  destruct (map_from numberToString stringToNumber 0 (list_of raw))
    as [signs|message].
  - destruct Hout as [Hlen Hall]. split; [|split].
    + split; [intros [message Hthrow]; discriminate Hthrow|].
      intros Hex. apply Exists_exists in Hex.
      destruct Hex as (item & Hin & Hrefused).
      rewrite (proj1 (Forall_forall _ _) Hall item Hin) in Hrefused.
      discriminate.
    + intros message Hthrow. discriminate Hthrow.
    + intros signs' [= <-]. exact Hlen.
  - destruct Hout as [Hmsg Hex]. split; [|split].
    + split; [intros _; exact Hex|intros _; now exists message].
    + intros message' [= <-]. exact Hmsg.
    + intros signs Hret. discriminate Hret.
Qed.

(** An item that already has the fields of a [ParkingSign]. *)
Definition well_formed_item (item : value)
    (id : string) (latitude longitude distance : Js.number)
    (description street_name : string) : Prop :=
  prop item "id" = VStr id /\
  prop item "latitude" = VNum latitude /\
  prop item "longitude" = VNum longitude /\
  prop item "distance" = VNum distance /\
  prop item "description" = VStr description /\
  prop item "street_name" = VStr street_name.

Lemma well_formed_returns item index
    id latitude longitude distance description street_name :
  well_formed_item item id latitude longitude distance description
    street_name ->
  toParkingSign numberToString stringToNumber item index =
  Return (sign_object item id latitude longitude distance description
            street_name).
Proof.
  intros (Hid & Hla & Hlo & Hd & Hdesc & Hstreet).
  unfold toParkingSign, coalesce_with.
  destruct item as [ | |b|n|s|l|properties]; try discriminate Hid.
  now rewrite Hid, Hla, Hlo, Hd, Hdesc, Hstreet.
Qed.

(** X18: an item that already has a string [id], numbers as [latitude],
    [longitude] and [distance], and strings as [description] and
    [street_name] is never refused, whatever else it holds, and it comes out
    with exactly these values: the conversions and fallbacks leave
    well-formed data alone.  (Its [regulations] are not joined: the right
    operand of [??] is evaluated only when [item.description] is [null] or
    [undefined].) *)
Theorem X18_getParkingSigns_well_formed (item : value)
    id latitude longitude distance description street_name :
  well_formed_item item id latitude longitude distance description
    street_name ->
  (forall index,
      exists sign,
        toParkingSign numberToString stringToNumber item index
          = Return sign /\
        well_formed_item sign id latitude longitude distance description
          street_name) /\
  (forall raw signs i,
      getParkingSigns numberToString stringToNumber raw = Return signs ->
      nth_error (list_of raw) i = Some item ->
      exists sign,
        nth_error signs i = Some sign /\
        well_formed_item sign id latitude longitude distance description
          street_name).
Proof.
  intros Hitem.
  assert (Hsign : well_formed_item
                    (sign_object item id latitude longitude distance
                       description street_name)
                    id latitude longitude distance description street_name)
    by (repeat split).
  split.
  - intros index. eexists. split; [|exact Hsign].
    now apply well_formed_returns.
  - intros raw signs i Hret Hi.
    destruct (map_from_nth numberToString stringToNumber (list_of raw) 0
                signs i item Hret Hi) as (sign & Hnth & Hcall).
    exists sign. split; [exact Hnth|].
    rewrite (well_formed_returns item (0 + i) _ _ _ _ _ _ Hitem) in Hcall.
    injection Hcall as <-. exact Hsign.
Qed.

End ParkingSignsLaws.

(** ** The nearest meter does not depend on the order of the rows *)

Section NearestMeterLaws.

Import apiShim.

Variable calculateDistance :
  Js.number * Js.number -> Js.number * Js.number -> Js.number.
Variable toLowerCase : string -> string.
Variable params : MeterRateRequest.

Let dist : MeterZone -> Js.number := distanceTo calculateDistance params.

(** The meter returned is built from a row that no row beats. *)
Lemma getMeterRate_minimal (raw : list MeterZone) :
  raw <> [] ->
  Forall (fun z => Js.isNaN (dist z) = false) raw ->
  exists z,
    In z raw /\
    getMeterRate calculateDistance toLowerCase params raw =
      Return (toMeterRate toLowerCase
                {| item := z; best_distance := dist z |}) /\
    forall z', In z' raw -> (dist z <=? dist z') = true.
Proof.
  intros Hne Hnum. destruct raw as [|x rest]; [congruence|].
  inversion_clear Hnum as [|? ? Hx Hrest].
  assert (H0 : first_nearest calculateDistance params [x]
                 {| item := x; best_distance := dist x |}).
  { exists 0%nat. cbn [item best_distance]. repeat split.
    - intros z [<-|[]]. now apply NumberFacts.leb_refl.
    - intros j z Hj. lia. }
  destruct (first_nearest_scan calculateDistance params rest Hrest _ _ H0)
    as ([z d] & Hfold & i & Hi & Hd & Hmin & _).
  cbn [item best_distance] in *. subst d.
  exists z. split; [eapply nth_error_In; exact Hi|]. split; [|exact Hmin].
  unfold getMeterRate, scan. cbn [fold_left].
  change (scan_step calculateDistance params None x)
    with (Some {| item := x; best_distance := dist x |}).
  now rewrite Hfold.
Qed.

(** X19: with distances that are numbers, the distance of the meter that
    [getMeterRate] returns does not depend on the order of the rows: on two
    orderings of the same rows the two answers are equally far (they can be
    different meters only when several rows are at the minimal distance). *)
Theorem X19_getMeterRate_order_independent (raw raw' : list MeterZone) :
  Permutation raw raw' ->
  raw <> [] ->
  Forall (fun z => Js.isNaN (dist z) = false) raw ->
  exists meter meter',
    getMeterRate calculateDistance toLowerCase params raw = Return meter /\
    getMeterRate calculateDistance toLowerCase params raw' = Return meter' /\
    (apiShim.distance meter =? apiShim.distance meter') = true.
Proof.
  intros Hperm Hne Hnum.
  assert (Hne' : raw' <> []).
  { intros ->. apply Permutation_sym, Permutation_nil in Hperm.
    contradiction. }
  assert (Hnum' : Forall (fun z => Js.isNaN (dist z) = false) raw')
    by (eapply Permutation_Forall; eauto).
  destruct (getMeterRate_minimal raw Hne Hnum) as (z & Hz & -> & Hmin).
  destruct (getMeterRate_minimal raw' Hne' Hnum') as (z' & Hz' & -> & Hmin').
  do 2 eexists. split; [reflexivity|]. split; [reflexivity|].
  cbn [toMeterRate apiShim.distance best_distance].
  rewrite NumberFacts.eqb_leb. apply andb_true_iff. split.
  - apply Hmin. eapply Permutation_in; [apply Permutation_sym|]; eauto.
  - apply Hmin'. eapply Permutation_in; eauto.
Qed.

End NearestMeterLaws.

(** ** Locations read from the URL *)

Section UrlLaws.

Variable parseFloat : string -> Js.number.

Lemma locationFromParams_valid get location :
  urlUtils.locationFromParams parseFloat get = Some location ->
  apiUtils.isValidCoordinate
    (storage.latitude location) (storage.longitude location) = true /\
  truthy (get "lat"%string) = true /\ truthy (get "lon"%string) = true.
Proof.
  unfold urlUtils.locationFromParams.
  destruct (get "lat"%string) as [lat|]; [|discriminate].
  destruct (get "lon"%string) as [lon|]; [|discriminate].
  destruct (truthy (Some lat)); [|discriminate].
  destruct (truthy (Some lon)); [|discriminate].
  cbn [andb].
  destruct (validation.isValidLatitude parseFloat (Str lat)) eqn:Hlat;
    [|discriminate].
  destruct (validation.isValidLongitude parseFloat (Str lon)) eqn:Hlon;
    [|discriminate].
  cbn [andb]. intros [= <-]. cbn [storage.latitude storage.longitude].
  apply (isValidLatitude_iff parseFloat) in Hlat.
  apply (isValidLongitude_iff parseFloat) in Hlon.
  cbn [validation.toNum] in Hlat, Hlon.
  unfold apiUtils.isValidCoordinate, Js.geb.
  destruct Hlat as [-> ->], Hlon as [-> ->]. auto.
Qed.

(** X20: a location that [parseLocationFromURL] returns is a valid
    coordinate, and it returns one only in a browser and when both the
    [lat] and the [lon] parameter are present and not empty. *)
Theorem X20_parseLocationFromURL_valid (window : bool)
    (get : string -> option string) (location : storage.MapLocation) :
  urlUtils.parseLocationFromURL parseFloat window get = Some location ->
  apiUtils.isValidCoordinate
    (storage.latitude location) (storage.longitude location) = true /\
  window = true /\
  truthy (get "lat"%string) = true /\ truthy (get "lon"%string) = true.
Proof.
  unfold urlUtils.parseLocationFromURL.
  destruct window; cbn [negb]; [|discriminate].
  intros Hloc. apply locationFromParams_valid in Hloc. tauto.
Qed.

(** X21: whatever the URL parameters are, the parking-signs page starts
    from a valid coordinate, so its query is enabled from the first render:
    parameters that do not validate are replaced by the city centre. *)
Theorem X21_initialSearchLocation_enabled (get : string -> option string) :
  ParkingSignsPage.enabled
    (ParkingSignsPage.initialSearchLocation parseFloat get) = true.
Proof.
  unfold ParkingSignsPage.enabled, ParkingSignsPage.initialSearchLocation.
  destruct (urlUtils.locationFromParams parseFloat get) as [location|]
    eqn:Hloc; [|reflexivity].
  now apply locationFromParams_valid in Hloc.
Qed.

End UrlLaws.

(** ** The list shown by the parking-signs page *)

Section PageLaws.

Import ParkingSignsPage.

Variable toLowerCase : string -> string.
Variable includes : string -> string -> bool.
Variable localeCompare : string -> string -> Js.number.

(** Whatever the comparator answers, the model of [sort] rearranges. *)
Lemma sort_rearranges {A} (comparefn : A -> A -> Js.number) (l : list A) :
  Permutation l (Js.sort comparefn l).
Proof.
  induction l as [|x l IH]; [constructor|].
  cbn [Js.sort fold_right]. fold (Js.sort comparefn l).
  transitivity (x :: Js.sort comparefn l); [now constructor|].
  generalize (Js.sort comparefn l). clear.
  induction l as [|y l IH]; [reflexivity|].
  cbn [Js.sort_insert]. destruct (0 <? comparefn x y); [|reflexivity].
  rewrite perm_swap. now constructor.
Qed.

(** The signs left after the two filters. *)
Definition shown_unsorted (parkingSigns : list ParkingSign)
    (searchTerm filterBorough : string) : list ParkingSign :=
  let filtered :=
    if negb (CoordinateInput.is_empty searchTerm)
    then filter (matches_term toLowerCase includes (toLowerCase searchTerm))
           parkingSigns
    else parkingSigns in
  if negb (String.eqb filterBorough "all")
  then filter
         (fun sign =>
            match borough sign with
            | Some b => String.eqb b filterBorough
            | None => false
            end)
         filtered
  else filtered.

Lemma shown_rearranged parkingSigns searchTerm filterBorough sortBy :
  Permutation
    (shown_unsorted parkingSigns searchTerm filterBorough)
    (filteredAndSortedSigns toLowerCase includes localeCompare parkingSigns
       searchTerm filterBorough sortBy).
Proof.
  unfold filteredAndSortedSigns, shown_unsorted, Js.spread, Js.filter.
  destruct sortBy; apply sort_rearranges.
Qed.

Lemma shown_unsorted_incl parkingSigns searchTerm filterBorough :
  incl (shown_unsorted parkingSigns searchTerm filterBorough) parkingSigns /\
  (List.length (shown_unsorted parkingSigns searchTerm filterBorough)
     <= List.length parkingSigns)%nat.
Proof.
  unfold shown_unsorted.
  destruct (negb (CoordinateInput.is_empty searchTerm)),
    (negb (String.eqb filterBorough "all")); split;
    try apply incl_refl; try apply Nat.le_refl;
    try apply incl_filter; try apply filter_length_le.
  - eapply incl_tran; apply incl_filter.
  - etransitivity; apply filter_length_le.
Qed.

(** X22: the list the page shows is made of signs of the fetched list, never
    more of them than were fetched; when a borough is chosen every shown sign
    is of that borough; with no search term and the borough filter on
    ['all'] the shown list is a rearrangement of the fetched list; and
    sorted by distance, with distances that are numbers, it is in ascending
    order. *)
Theorem X22_filteredAndSortedSigns
    (parkingSigns : list ParkingSign) (searchTerm filterBorough : string)
    (sortBy : sort_key) :
  (forall sign,
      In sign (filteredAndSortedSigns toLowerCase includes localeCompare
                 parkingSigns searchTerm filterBorough sortBy) ->
      In sign parkingSigns) /\
  (List.length (filteredAndSortedSigns toLowerCase includes localeCompare
                  parkingSigns searchTerm filterBorough sortBy)
     <= List.length parkingSigns)%nat /\
  (filterBorough <> "all"%string ->
   forall sign,
     In sign (filteredAndSortedSigns toLowerCase includes localeCompare
                parkingSigns searchTerm filterBorough sortBy) ->
     borough sign = Some filterBorough) /\
  (searchTerm = ""%string -> filterBorough = "all"%string ->
   Permutation parkingSigns
     (filteredAndSortedSigns toLowerCase includes localeCompare
        parkingSigns searchTerm filterBorough sortBy)) /\
  (sortBy = by_distance ->
   Forall (fun sign => Js.isNaN (distance sign) = false) parkingSigns ->
   Sorted notFarther
     (filteredAndSortedSigns toLowerCase includes localeCompare
        parkingSigns searchTerm filterBorough sortBy)).
Proof.
  pose proof (shown_rearranged parkingSigns searchTerm filterBorough sortBy)
    as Hperm.
  destruct (shown_unsorted_incl parkingSigns searchTerm filterBorough)
    as [Hincl Hlen].
  split; [|split; [|split; [|split]]].
  - intros sign Hin. apply Hincl.
    eapply Permutation_in; [apply Permutation_sym; exact Hperm|exact Hin].
  - now rewrite <- (Permutation_length Hperm).
  - intros Hchosen sign Hin.
    apply (Permutation_in _ (Permutation_sym Hperm)) in Hin.
    unfold shown_unsorted in Hin.
    apply String.eqb_neq in Hchosen. rewrite Hchosen in Hin.
    cbn [negb] in Hin. apply filter_In in Hin. destruct Hin as [_ Hb].
    destruct (borough sign) as [b|]; [|discriminate].
    apply String.eqb_eq in Hb. now subst b.
  - intros -> ->. exact Hperm.
  - intros -> Hnum.
    unfold filteredAndSortedSigns. apply sort_sorted.
    fold (shown_unsorted parkingSigns searchTerm filterBorough).
    eapply incl_Forall; [exact Hincl|exact Hnum].
Qed.

End PageLaws.

(** ** The added theorems at concrete inputs *)

Lemma X7_filterByRadius_narrowing_witness :
  (500 <=? 1000) = true /\
  apiUtils.filterByRadius (apiUtils.filterByRadius example_signs 1000) 500 =
  apiUtils.filterByRadius example_signs 500 /\
  apiUtils.filterByRadius example_signs 500 = [sign_b; sign_d].
Proof.
  split; [reflexivity|]. split; [|reflexivity].
  apply (proj2 (X7_filterByRadius_narrowing example_signs)). reflexivity.
Defined.

Lemma X8_sortByDistance_idempotent_witness :
  Forall (fun r => Js.isNaN (distance r) = false) example_signs /\
  apiUtils.sortByDistance (apiUtils.sortByDistance example_signs) =
  apiUtils.sortByDistance example_signs.
Proof.
  assert (Hnum : Forall (fun r => Js.isNaN (distance r) = false)
                   example_signs) by (repeat constructor).
  split; [exact Hnum|].
  exact (proj2 (X8_sortByDistance_idempotent example_signs) Hnum).
Defined.

Lemma X9_filter_sort_commute_witness :
  Forall (fun r => Js.isNaN (distance r) = false) example_signs /\
  apiUtils.filterByRadius (apiUtils.sortByDistance example_signs) 1000 =
  apiUtils.sortByDistance (apiUtils.filterByRadius example_signs 1000) /\
  apiUtils.filterByRadius (apiUtils.sortByDistance example_signs) 1000 =
  [sign_b; sign_d; sign_a; sign_e].
Proof.
  assert (Hnum : Forall (fun r => Js.isNaN (distance r) = false)
                   example_signs) by (repeat constructor).
  split; [exact Hnum|]. split; [|reflexivity].
  exact (X9_filter_sort_commute example_signs 1000 Hnum).
Defined.

Lemma X10_sortByDistance_head_witness :
  example_signs <> [] /\
  Forall (fun r => Js.isNaN (distance r) = false) example_signs /\
  exists nearest,
    hd_error (apiUtils.sortByDistance example_signs) = Some nearest /\
    (forall r, In r example_signs ->
               (distance nearest <=? distance r) = true) /\
    find (fun r => distance r =? distance nearest) example_signs
      = Some nearest.
Proof.
  assert (Hne : example_signs <> []) by discriminate.
  assert (Hnum : Forall (fun r => Js.isNaN (distance r) = false)
                   example_signs) by (repeat constructor).
  split; [exact Hne|]. split; [exact Hnum|].
  exact (X10_sortByDistance_head example_signs Hne Hnum).
Defined.

Definition example_form_hidden : CoordinateInput.form :=
  {| CoordinateInput.latitude_input := "40.7128";
     CoordinateInput.longitude_input := "40.7128";
     CoordinateInput.radius_input := "0";
     CoordinateInput.showRadius := false;
     CoordinateInput.hasOnRadiusChange := true |}.

Lemma X15_isFormValid_validateInputs_witness :
  (forall s, CoordinateInput.is_empty s = true ->
             Js.isNaN (parseFloat_example s) = true) /\
  CoordinateInput.isFormValid parseFloat_example example_form_hidden = true /\
  snd (CoordinateInput.validateInputs parseFloat_example (fun s => s)
         example_form_hidden) = true.
Proof.
  assert (Hblank : forall s, CoordinateInput.is_empty s = true ->
                             Js.isNaN (parseFloat_example s) = true).
  { intros [|a s]; [reflexivity|discriminate]. }
  split; [exact Hblank|]. split; [reflexivity|].
  apply (proj2 (X15_isFormValid_validateInputs parseFloat_example
                  (fun s => s) example_form_hidden) Hblank).
  reflexivity.
Defined.

Lemma X16_hidden_radius_ignored_witness :
  CoordinateInput.showRadius example_form_hidden = false /\
  CoordinateInput.handleSubmit parseFloat_example (fun s => s)
    example_form_hidden =
  CoordinateInput.handleSubmit parseFloat_example (fun s => s)
    {| CoordinateInput.latitude_input := "40.7128";
       CoordinateInput.longitude_input := "40.7128";
       CoordinateInput.radius_input := "250";
       CoordinateInput.showRadius := false;
       CoordinateInput.hasOnRadiusChange := true |}.
Proof.
  split; [reflexivity|].
  apply (X16_hidden_radius_ignored parseFloat_example (fun s => s)
           example_form_hidden "250" eq_refl).
Defined.

(** A well-formed item whose [regulations] hold an object that cannot be
    converted: [{"toString": 1}]. *)
Definition example_sign_item : JsValue.value :=
  JsValue.VObj
    [("id"%string, JsValue.VStr "S-1");
     ("latitude"%string, JsValue.VNum 40.7128);
     ("longitude"%string, JsValue.VNum (-74.0060));
     ("distance"%string, JsValue.VNum 120);
     ("description"%string, JsValue.VStr "NO PARKING");
     ("street_name"%string, JsValue.VStr "Broadway");
     ("regulations"%string,
      JsValue.VArr [JsValue.VObj [("toString"%string, JsValue.VNum 1)]])].

Lemma X18_getParkingSigns_well_formed_witness :
  well_formed_item example_sign_item "S-1" 40.7128 (-74.0060) 120
    "NO PARKING" "Broadway" /\
  unprintable (JsValue.prop example_sign_item "regulations") = true /\
  exists signs sign,
    apiClient.getParkingSigns (fun _ => "n"%string) (fun _ => nan)
      (JsValue.VArr [example_sign_item]) = Return signs /\
    nth_error signs 0 = Some sign /\
    well_formed_item sign "S-1" 40.7128 (-74.0060) 120 "NO PARKING"
      "Broadway".
Proof.
  assert (Hitem : well_formed_item example_sign_item "S-1" 40.7128
                    (-74.0060) 120 "NO PARKING" "Broadway")
    by (repeat split).
  split; [exact Hitem|]. split; [reflexivity|].
  destruct (proj2 (X18_getParkingSigns_well_formed
                     (fun _ => "n"%string) (fun _ => nan)
                     example_sign_item
                     "S-1" 40.7128 (-74.0060) 120 "NO PARKING" "Broadway"
                     Hitem)
              (JsValue.VArr [example_sign_item]) _ 0%nat
              eq_refl eq_refl)
    as (sign & Hsign & Hfields).
  eexists; exists sign. split; [reflexivity|]. split; assumption.
Defined.

Lemma X19_getMeterRate_order_independent_witness :
  Permutation example_zones (rev example_zones) /\
  example_zones <> [] /\
  Forall (fun z =>
            Js.isNaN (apiShim.distanceTo planar example_params z) = false)
         example_zones /\
  exists meter meter',
    apiShim.getMeterRate planar (fun s => s) example_params example_zones
      = Return meter /\
    apiShim.getMeterRate planar (fun s => s) example_params
      (rev example_zones) = Return meter' /\
    (apiShim.distance meter =? apiShim.distance meter') = true /\
    apiShim.id meter = "m2"%string /\ apiShim.id meter' = "m3"%string.
Proof.
  assert (Hperm : Permutation example_zones (rev example_zones))
    by apply Permutation_rev.
  assert (Hne : example_zones <> []) by discriminate.
  assert (Hnum : Forall (fun z =>
            Js.isNaN (apiShim.distanceTo planar example_params z) = false)
            example_zones) by (repeat constructor).
  split; [exact Hperm|]. split; [exact Hne|]. split; [exact Hnum|].
  destruct (X19_getMeterRate_order_independent planar (fun s => s)
              example_params example_zones (rev example_zones)
              Hperm Hne Hnum)
    as (meter & meter' & Hm & Hm' & Heq).
  exists meter, meter'. repeat split; try assumption.
  - vm_compute in Hm. injection Hm as <-. reflexivity.
  - vm_compute in Hm'. injection Hm' as <-. reflexivity.
Defined.

(** URL parameters [?lat=40.7128&lon=40.7128]. *)
Definition example_get (name : string) : option string :=
  if String.eqb name "lat" then Some "40.7128"%string
  else if String.eqb name "lon" then Some "40.7128"%string
  else None.

Lemma X20_parseLocationFromURL_valid_witness :
  exists location,
    urlUtils.parseLocationFromURL parseFloat_example true example_get
      = Some location /\
    apiUtils.isValidCoordinate
      (storage.latitude location) (storage.longitude location) = true.
Proof.
  eexists. split; [reflexivity|].
  eapply (X20_parseLocationFromURL_valid parseFloat_example true example_get).
  reflexivity.
Defined.

(** ** The page does not write to the fetched list *)

Section PageStore.

Import ParkingSignsPage.

Variable toLowerCase : string -> string.
Variable includes : string -> string -> bool.
Variable localeCompare : string -> string -> Js.number.

Lemma spread_fresh {A} (h : Heap.store A) items a :
  Heap.lookup h items = Some a ->
  fresh_result h (Heap.Array_spread items h) a.
Proof.
  intros Ha. exists (List.length h), (h ++ [a]).
  unfold Heap.Array_spread, Heap.bind, Heap.read, Heap.alloc, Js.spread.
  rewrite Ha. repeat split.
  - apply lookup_fresh.
  - apply lookup_alloc_new.
  - intros r0 a0. apply lookup_alloc_old.
Qed.

(** A filter applied to the result of an earlier step. *)
Lemma filter_step {A} (h : Heap.store A) r hc cur keep :
  fresh_result h (Some (r, hc)) cur ->
  fresh_result h (Heap.Array_filter keep r hc) (Js.filter keep cur).
Proof.
  intros (r' & h' & [= <- <-] & Hnew & Hcur & Hframe).
  exists (List.length hc), (hc ++ [Js.filter keep cur]).
  unfold Heap.Array_filter, Heap.bind, Heap.read, Heap.alloc.
  rewrite Hcur. repeat split.
  - destruct (Heap.lookup h (List.length hc)) as [a0|] eqn:Hold;
      [|reflexivity].
    apply Hframe in Hold. rewrite lookup_fresh in Hold. discriminate.
  - apply lookup_alloc_new.
  - intros r0 a0 Hr0. apply lookup_alloc_old. now apply Hframe.
Qed.

(** An in-place sort of the result of an earlier step. *)
Lemma sort_step {A} (h : Heap.store A) r hc cur comparefn :
  fresh_result h (Some (r, hc)) cur ->
  fresh_result h (Heap.Array_sort comparefn r hc) (Js.sort comparefn cur).
Proof.
  intros (r' & h' & [= <- <-] & Hnew & Hcur & Hframe).
  exists r, (Heap.update hc r (Js.sort comparefn cur)).
  unfold Heap.Array_sort, Heap.bind, Heap.read, Heap.write, Heap.ret.
  rewrite Hcur. cbn iota beta. rewrite Hcur. repeat split.
  - exact Hnew.
  - now rewrite lookup_update, Nat.eqb_refl, Hcur.
  - intros r0 a0 Hr0. rewrite lookup_update.
    destruct (Nat.eqb_spec r0 r) as [->|_]; [congruence|].
    now apply Hframe.
Qed.

Lemma bind_fresh {A} (h : Heap.store A) m k cur out :
  fresh_result h m cur ->
  (forall r hc, fresh_result h (Some (r, hc)) cur ->
                fresh_result h (k r hc) out) ->
  fresh_result h (match m with Some (r, hc) => k r hc | None => None end)
    out.
Proof.
  intros Hm Hk. destruct Hm as (r & hc & -> & Hrest).
  apply Hk. exists r, hc. now split.
Qed.

(** X23: computing the shown list never writes to the fetched list, even
    when no filter applies and the list is sorted in place: the sort works
    on the spread copy or on a filter's result.  The list returned is a new
    array holding [filteredAndSortedSigns] of the fetched signs, and every
    array that existed before has the elements it had. *)
Theorem X23_page_does_not_mutate
    (h : Heap.store ParkingSign) (parkingSigns : Heap.ref)
    (a : list ParkingSign) (searchTerm filterBorough : string)
    (sortBy : sort_key) :
  Heap.lookup h parkingSigns = Some a ->
  exists r h',
    filteredAndSortedSigns_ref toLowerCase includes localeCompare
      parkingSigns searchTerm filterBorough sortBy h = Some (r, h') /\
    r <> parkingSigns /\
    Heap.lookup h' parkingSigns = Some a /\
    Heap.lookup h' r =
      Some (filteredAndSortedSigns toLowerCase includes localeCompare a
              searchTerm filterBorough sortBy) /\
    forall r0 a0, Heap.lookup h r0 = Some a0 -> Heap.lookup h' r0 = Some a0.
Proof.
  intros Ha.
  assert (Hres : fresh_result h
            (filteredAndSortedSigns_ref toLowerCase includes localeCompare
               parkingSigns searchTerm filterBorough sortBy h)
            (filteredAndSortedSigns toLowerCase includes localeCompare a
               searchTerm filterBorough sortBy)).
  { unfold filteredAndSortedSigns_ref, filteredAndSortedSigns, Js.spread.
    destruct (negb (CoordinateInput.is_empty searchTerm)),
      (negb (String.eqb filterBorough "all")), sortBy;
      (unfold Heap.bind at 1;
       eapply bind_fresh; [apply spread_fresh; exact Ha|];
       intros r1 h1 H1; unfold Heap.bind at 1;
       eapply bind_fresh;
         [first [apply filter_step; exact H1|exact H1]|];
       intros r2 h2 H2; unfold Heap.bind at 1;
       eapply bind_fresh;
         [first [apply filter_step; exact H2|exact H2]|];
       intros r3 h3 H3; apply sort_step; exact H3). }
  destruct Hres as (r & h' & Hrun & Hnew & Hout & Hframe).
  exists r, h'. repeat split; auto. congruence.
Qed.

End PageStore.

Definition example_page_signs : list ParkingSignsPage.ParkingSign :=
  [ {| ParkingSignsPage.id := "s1"; ParkingSignsPage.latitude := 40.71;
       ParkingSignsPage.longitude := -74.0;
       ParkingSignsPage.sign_distance := 300;
       ParkingSignsPage.description := "NO PARKING";
       ParkingSignsPage.street_name := "Broadway";
       ParkingSignsPage.borough := Some "manhattan"%string |};
    {| ParkingSignsPage.id := "s2"; ParkingSignsPage.latitude := 40.72;
       ParkingSignsPage.longitude := -74.0;
       ParkingSignsPage.sign_distance := 100;
       ParkingSignsPage.description := "NO STANDING";
       ParkingSignsPage.street_name := "Canal St";
       ParkingSignsPage.borough := None |} ].

Lemma X23_page_does_not_mutate_witness :
  Heap.lookup [example_page_signs] 0%nat = Some example_page_signs /\
  exists r h',
    ParkingSignsPage.filteredAndSortedSigns_ref (fun s => s)
      (fun _ _ => true) (fun _ _ => 0) 0%nat "" "all"
      ParkingSignsPage.by_distance [example_page_signs] = Some (r, h') /\
    r <> 0%nat /\
    Heap.lookup h' 0%nat = Some example_page_signs /\
    Heap.lookup h' r = Some (rev example_page_signs).
Proof.
  assert (H0 : Heap.lookup [example_page_signs] 0%nat
               = Some example_page_signs) by reflexivity.
  split; [exact H0|].
  destruct (X23_page_does_not_mutate (fun s => s) (fun _ _ => true)
              (fun _ _ => 0) [example_page_signs] 0%nat example_page_signs
              "" "all" ParkingSignsPage.by_distance H0)
    as (r & h' & Hrun & Hne & Hin & Hout & _).
  exists r, h'. repeat split; assumption.
Defined.

(** ** Further concrete runs *)

Lemma X1_isValidCoordinate_agrees_witness :
  Js.isNaN nan = true /\
  apiUtils.isValidCoordinate nan (-74.0060) = false.
Proof.
  split; [reflexivity|].
  apply (proj2 (X1_isValidCoordinate_agrees parseFloat_example nan
                  (-74.0060))).
  left. reflexivity.
Defined.

Lemma X6_isValidYear_range_witness :
  (2018 <=? 2020) = true /\ (2020 <=? 2026) = true /\
  validation.isValidYear (fun _ => nan) 2026 (Num 2020) = true /\
  (2017 <? 2018) = true /\
  validation.isValidYear (fun _ => nan) 2017 (Num 2017) = false.
Proof.
  split; [reflexivity|]. split; [reflexivity|]. split.
  - apply (proj1 (X6_isValidYear_range (fun _ => nan) 2026 (Num 2020))).
    split; reflexivity.
  - split; [reflexivity|].
    apply (proj2 (X6_isValidYear_range (fun _ => nan) 2017 (Num 2017))).
    left. reflexivity.
Defined.

(** The form with a radius field that holds [250]. *)
Definition example_form_shown : CoordinateInput.form :=
  {| CoordinateInput.latitude_input := "40.7128";
     CoordinateInput.longitude_input := "40.7128";
     CoordinateInput.radius_input := "250";
     CoordinateInput.showRadius := true;
     CoordinateInput.hasOnRadiusChange := true |}.

Lemma X14_handleSubmit_validated_witness :
  In (CoordinateInput.onRadiusChange 250)
     (CoordinateInput.handleSubmit parseFloat_example (fun s => s)
        example_form_shown) /\
  (0 <? 250) = true /\ (250 <=? 5000) = true.
Proof.
  assert (Hin : In (CoordinateInput.onRadiusChange 250)
                  (CoordinateInput.handleSubmit parseFloat_example
                     (fun s => s) example_form_shown)).
  { right. right. left. reflexivity. }
  split; [exact Hin|].
  exact (proj1 (proj2 (X14_handleSubmit_validated parseFloat_example
                         (fun s => s) example_form_shown)) 250 Hin).
Defined.

(** Two items the callback refuses: one whose [latitude] is the object
    [{"toString": 1}], and one with no [description] whose [regulations]
    hold such an object. *)
Definition example_refused_items : list JsValue.value :=
  [ JsValue.VObj
      [("latitude"%string,
        JsValue.VObj [("toString"%string, JsValue.VNum 1)])];
    JsValue.VObj
      [("id"%string, JsValue.VStr "S-2");
       ("regulations"%string,
        JsValue.VArr
          [JsValue.VStr "NO PARKING";
           JsValue.VObj [("toString"%string, JsValue.VNum 1)]])] ].

Lemma X17_getParkingSigns_throws_iff_witness :
  Forall (fun item =>
            JsValue.nullish item = false /\
            apiClient.getParkingSigns (fun _ => "n"%string) (fun _ => nan)
              (JsValue.VArr [example_sign_item; item]) = Throw "TypeError")
    example_refused_items /\
  apiClient.getParkingSigns (fun _ => "n"%string) (fun _ => nan)
    (JsValue.VArr [example_sign_item; JsValue.VNull]) = Throw "TypeError".
Proof.
  assert (Hthrows : forall item,
            refused item = true ->
            apiClient.getParkingSigns (fun _ => "n"%string) (fun _ => nan)
              (JsValue.VArr [example_sign_item; item]) = Throw "TypeError").
  { intros item Hitem.
    destruct (proj2 (proj1 (X17_getParkingSigns_throws_iff
                              (fun _ => "n"%string) (fun _ => nan)
                              (JsValue.VArr [example_sign_item; item]))))
      as [message Hthrow].
    { apply Exists_cons_tl. apply Exists_cons_hd. exact Hitem. }
    rewrite Hthrow. f_equal.
    apply (proj1 (proj2 (X17_getParkingSigns_throws_iff
                           (fun _ => "n"%string) (fun _ => nan)
                           (JsValue.VArr [example_sign_item; item])))
             message Hthrow). }
  split.
  - repeat constructor; apply Hthrows; reflexivity.
  - apply Hthrows. reflexivity.
Defined.

Lemma X22_filteredAndSortedSigns_witness :
  Forall (fun sign => Js.isNaN (ParkingSignsPage.sign_distance sign) = false)
    example_page_signs /\
  Sorted (@notFarther _ ParkingSignsPage.ParkingSign_HasDistance)
    (ParkingSignsPage.filteredAndSortedSigns (fun s => s) (fun _ _ => true)
       (fun _ _ => 0) example_page_signs "" "all"
       ParkingSignsPage.by_distance) /\
  Permutation example_page_signs
    (ParkingSignsPage.filteredAndSortedSigns (fun s => s) (fun _ _ => true)
       (fun _ _ => 0) example_page_signs "" "all"
       ParkingSignsPage.by_distance) /\
  ParkingSignsPage.filteredAndSortedSigns (fun s => s) (fun _ _ => true)
    (fun _ _ => 0) example_page_signs "" "all" ParkingSignsPage.by_distance
  = rev example_page_signs.
Proof.
  assert (Hnum : Forall (fun sign =>
                     Js.isNaN (ParkingSignsPage.sign_distance sign) = false)
                   example_page_signs) by (repeat constructor).
  destruct (X22_filteredAndSortedSigns (fun s => s) (fun _ _ => true)
              (fun _ _ => 0) example_page_signs "" "all"
              ParkingSignsPage.by_distance)
    as (_ & _ & _ & Hperm & Hsorted).
  split; [exact Hnum|]. split; [exact (Hsorted eq_refl Hnum)|].
  split; [exact (Hperm eq_refl eq_refl)|reflexivity].
Defined.

(** ** The haversine distance does not depend on the order of the points *)

(** *** Signs in binary64 arithmetic *)

Lemma binary_round_aux_opp s m e l :
  binary_round_aux prec emax (negb s) m e l
  = SFopp (binary_round_aux prec emax s m e l).
Proof.
  unfold binary_round_aux.
  destruct (shr_fexp prec emax m e l) as [mrs' e'].
  destruct (shr_fexp prec emax _ e' loc_Exact) as [mrs'' e''].
  destruct (shr_m mrs''); [reflexivity| |reflexivity].
  now destruct (e'' <=? emax - prec)%Z.
Qed.

Lemma SFmul_opp_l x y :
  SFmul prec emax (SFopp x) y = SFopp (SFmul prec emax x y).
Proof.
  destruct x as [sx|sx| |sx mx ex], y as [sy|sy| |sy my ey];
    cbn [SFmul SFopp]; rewrite <- ?negb_xorb_l; try reflexivity.
  apply binary_round_aux_opp.
Qed.

Lemma SFmul_comm x y : SFmul prec emax x y = SFmul prec emax y x.
Proof.
  destruct x as [sx|sx| |sx mx ex], y as [sy|sy| |sy my ey];
    cbn [SFmul]; rewrite 1?xorb_comm; try reflexivity.
  now rewrite Pos.mul_comm, Z.add_comm.
Qed.

Lemma SFdiv_opp_l x y :
  SFdiv prec emax (SFopp x) y = SFopp (SFdiv prec emax x y).
Proof.
  destruct x as [sx|sx| |sx mx ex], y as [sy|sy| |sy my ey];
    cbn [SFdiv SFopp]; rewrite <- ?negb_xorb_l; try reflexivity.
  destruct (SFdiv_core_binary prec emax (Z.pos mx) ex (Z.pos my) ey)
    as [[mz ez] lz].
  apply binary_round_aux_opp.
Qed.

Lemma binary_normalize_opp m e :
  m <> 0%Z ->
  binary_normalize prec emax (- m) e false
  = SFopp (binary_normalize prec emax m e false).
Proof.
  destruct m as [|p|p]; [congruence| |]; intros _;
    cbn [Z.opp binary_normalize]; unfold binary_round;
    destruct (shl_align p e (fexp prec emax (Z.pos (digits2_pos p) + e)))
      as [mz ez].
  - apply (binary_round_aux_opp false).
  - apply (binary_round_aux_opp true).
Qed.

(** [x - y] is the opposite of [y - x], except that both are [+0] when the
    difference is zero. *)
Lemma SFsub_swap x y :
  SFsub prec emax x y = SFopp (SFsub prec emax y x) \/
  (SFsub prec emax x y = S754_zero false /\
   SFsub prec emax y x = S754_zero false).
Proof.
  destruct x as [[|]|[|]| |sx mx ex], y as [[|]|[|]| |sy my ey];
    cbn [SFsub SFopp negb]; rewrite ?negb_involutive; auto.
  rewrite (Z.min_comm ey ex).
  set (ez := Z.min ex ey).
  set (X := cond_Zopp sx (Z.pos (fst (shl_align mx ex ez)))).
  set (Y := cond_Zopp sy (Z.pos (fst (shl_align my ey ez)))).
  destruct (Z.eq_dec (Y - X) 0) as [Hz|Hnz].
  - right. replace (X - Y)%Z with 0%Z by lia. rewrite Hz. now split.
  - left. replace (X - Y)%Z with (- (Y - X))%Z by lia.
    now apply binary_normalize_opp.
Qed.

(** *** The same on primitive floats *)

Lemma float_opp_opp (x : float) : - - x = x.
Proof.
  apply Prim2SF_inj. rewrite !FloatAxioms.opp_spec.
  now destruct (Prim2SF x) as [[|]|[|]| |[|] m e].
Qed.

Lemma float_mul_opp_l (x y : float) : (- x) * y = - (x * y).
Proof.
  apply Prim2SF_inj.
  rewrite FloatAxioms.opp_spec, !FloatAxioms.mul_spec, FloatAxioms.opp_spec.
  apply SFmul_opp_l.
Qed.

Lemma float_mul_comm (x y : float) : x * y = y * x.
Proof.
  apply Prim2SF_inj. rewrite !FloatAxioms.mul_spec. apply SFmul_comm.
Qed.

Lemma float_mul_opp_r (x y : float) : x * (- y) = - (x * y).
Proof. now rewrite float_mul_comm, float_mul_opp_l, (float_mul_comm y). Qed.

Lemma float_div_opp_l (x y : float) : (- x) / y = - (x / y).
Proof.
  apply Prim2SF_inj.
  rewrite FloatAxioms.opp_spec, !FloatAxioms.div_spec, FloatAxioms.opp_spec.
  apply SFdiv_opp_l.
Qed.

Lemma float_sub_swap (x y : float) :
  x - y = - (y - x) \/ (x - y = 0 /\ y - x = 0).
Proof.
  destruct (SFsub_swap (Prim2SF x) (Prim2SF y)) as [H|[H1 H2]].
  - left. apply Prim2SF_inj.
    now rewrite FloatAxioms.opp_spec, !FloatAxioms.sub_spec.
  - right. split; apply Prim2SF_inj; rewrite FloatAxioms.sub_spec;
      assumption.
Qed.

Section HaversineSymmetry.

Variables Math_sin Math_cos Math_sqrt : Js.number -> Js.number.
Variable Math_atan2 : Js.number -> Js.number -> Js.number.

(** The sine is odd.  The language does not ask for it; the usual
    implementations reduce the argument and evaluate an odd polynomial, and
    have it exactly. *)
Hypothesis sin_odd : forall x, Math_sin (- x) = - Math_sin x.

(** The half angle between [x] and [y], in radians, taken both ways. *)
Lemma half_angle_swap (x y : Js.number) :
  (x - y) * apiUtils.Math_PI / 180 / 2
    = - ((y - x) * apiUtils.Math_PI / 180 / 2) \/
  (x - y) * apiUtils.Math_PI / 180 / 2
    = (y - x) * apiUtils.Math_PI / 180 / 2.
Proof.
  destruct (float_sub_swap x y) as [->|[-> ->]]; [left|now right].
  now rewrite float_mul_opp_l, !float_div_opp_l.
Qed.

Lemma squared_sine_swap (c d d' : Js.number) :
  d' = - d \/ d' = d ->
  c * Math_sin d' * Math_sin d' = c * Math_sin d * Math_sin d.
Proof.
  intros [->| ->]; [|reflexivity].
  now rewrite sin_odd, !float_mul_opp_r, float_mul_opp_l, float_opp_opp.
Qed.

Lemma sine_squared_swap (d d' : Js.number) :
  d' = - d \/ d' = d ->
  Math_sin d' * Math_sin d' = Math_sin d * Math_sin d.
Proof.
  intros [->| ->]; [|reflexivity].
  now rewrite sin_odd, float_mul_opp_r, float_mul_opp_l, float_opp_opp.
Qed.

(** X24: when the sine is odd, the distance from the first point to the
    second is exactly the distance from the second to the first, for all
    arguments. *)
Theorem X24_calculateDistance_symmetric (lat1 lon1 lat2 lon2 : Js.number) :
  apiUtils.calculateDistance Math_sin Math_cos Math_sqrt Math_atan2
    lat1 lon1 lat2 lon2
  = apiUtils.calculateDistance Math_sin Math_cos Math_sqrt Math_atan2
      lat2 lon2 lat1 lon1.
Proof.
  unfold apiUtils.calculateDistance. cbv zeta.
  rewrite (sine_squared_swap _ _ (half_angle_swap lat2 lat1)).
  rewrite (squared_sine_swap _ _ _ (half_angle_swap lon2 lon1)).
  now rewrite (float_mul_comm (Math_cos (lat1 * apiUtils.Math_PI / 180))).
Qed.

End HaversineSymmetry.

(** ** The haversine distance from a point to itself *)

(** *** Products that do not overflow *)

Section NoOverflow.

Local Open Scope Z_scope.

Lemma round_nearest_even_le m l : round_nearest_even m l <= m + 1.
Proof. destruct l as [|[]]; simpl; try destruct (Z.even m); lia. Qed.

Lemma Zdigits2_le m k : 0 <= k -> 0 <= m < 2 ^ k -> Zdigits2 m <= k.
Proof.
  intros Hk Hm. destruct m as [|p|p]; simpl; try lia.
  pose proof (NumberFacts.digits2_lower p) as Hl.
  destruct (Z_le_gt_dec (Z.pos (digits2_pos p)) k) as [|Hgt]; [assumption|].
  assert (2 ^ k <= 2 ^ (Z.pos (digits2_pos p) - 1))
    by (apply Z.pow_le_mono_r; lia).
  lia.
Qed.

(** A shift to the working precision: the mantissa does not grow and the
    exponent is the larger of the given one and the canonical one. *)
Lemma shr_fexp_bounds m e l :
  0 <= m ->
  0 <= shr_m (fst (shr_fexp prec emax m e l)) <= m /\
  snd (shr_fexp prec emax m e l)
    = Z.max e (SpecFloat.fexp prec emax (Zdigits2 m + e)).
Proof.
  intros Hm. unfold shr_fexp, shr.
  destruct (SpecFloat.fexp prec emax (Zdigits2 m + e) - e) as [|p|p] eqn:E;
    cbn [fst snd]; rewrite ?NumberFacts.shr_record_of_loc_m;
    try (split; lia).
  rewrite NumberFacts.iter_pos_nat, NumberFacts.shr_iter_m
    by (rewrite NumberFacts.shr_record_of_loc_m; lia).
  rewrite NumberFacts.shr_record_of_loc_m.
  assert (Hp : 0 < 2 ^ Z.of_nat (Pos.to_nat p))
    by (apply Z.pow_pos_nonneg; lia).
  split; [|lia]. split; [apply Z.div_pos; lia|].
  apply Z.div_le_upper_bound; nia.
Qed.

(** Rounding a mantissa of at most 200 bits at an exponent that is not above
    zero gives a zero or a finite number: it cannot overflow. *)
Definition SFfinite (x : spec_float) : Prop :=
  match x with
  | S754_zero _ | S754_finite _ _ _ => True
  | _ => False
  end.

Lemma binary_round_aux_finite s m e l :
  0 < m -> Zdigits2 m <= 200 -> e <= 0 ->
  SFfinite (binary_round_aux prec emax s m e l).
Proof.
  intros Hm Hd He. unfold binary_round_aux.
  destruct (shr_fexp_bounds m e l) as [[H1 H2] H3]; [lia|].
  destruct (shr_fexp prec emax m e l) as [mrs' e']. cbn [fst snd] in *.
  set (m2 := round_nearest_even (shr_m mrs') (loc_of_shr_record mrs')).
  assert (Hm2 : 0 <= m2 <= m + 1).
  { unfold m2.
    pose proof (NumberFacts.round_nearest_even_ge (shr_m mrs')
                  (loc_of_shr_record mrs')).
    pose proof (round_nearest_even_le (shr_m mrs')
                  (loc_of_shr_record mrs')).
    lia. }
  destruct (shr_fexp_bounds m2 e' loc_Exact) as [[H4 H5] H6]; [lia|].
  destruct (shr_fexp prec emax m2 e' loc_Exact) as [mrs'' e''].
  cbn [fst snd] in *.
  assert (Hd2 : Zdigits2 m2 <= 201).
  { apply Zdigits2_le; [lia|]. split; [lia|].
    assert (m < 2 ^ 200).
    { destruct m as [|p|p]; try lia.
      eapply Z.lt_le_trans; [apply NumberFacts.digits2_upper|].
      apply Z.pow_le_mono_r; simpl in Hd; lia. }
    change (2 ^ 201) with (2 * 2 ^ 200). lia. }
  rewrite NumberFacts.fexp_spec in H3, H6.
  destruct (shr_m mrs'') as [|q|q]; [exact I| |lia].
  replace (e'' <=? emax - prec) with true; [exact I|].
  symmetry. apply Z.leb_le. change (emax - prec) with 971. lia.
Qed.

(** The product of two numbers that are at most 1 in size. *)
Definition SFsmall (x : spec_float) : Prop :=
  match x with
  | S754_zero _ => True
  | S754_finite _ m e => Z.pos m < 2 ^ 53 /\ e <= -52
  | _ => False
  end.

Lemma SFmul_small x y :
  SFsmall x -> SFsmall y -> SFfinite (SFmul prec emax x y).
Proof.
  destruct x as [sx|sx| |sx mx ex], y as [sy|sy| |sy my ey];
    cbn [SFsmall SFmul SFfinite]; try tauto.
  intros [Hmx Hex] [Hmy Hey].
  apply binary_round_aux_finite; [lia| |lia].
  apply Zdigits2_le; [lia|]. split; [lia|].
  rewrite Pos2Z.inj_mul.
  assert (Z.pos mx * Z.pos my < 2 ^ 53 * 2 ^ 53) by nia.
  change (2 ^ 53 * 2 ^ 53) with (2 ^ 106) in *.
  eapply Z.lt_le_trans; [eassumption|].
  apply Z.pow_le_mono_r; lia.
Qed.

(** Zero times a finite number is a zero, and [+0] plus a zero is [+0]. *)
Lemma SFmul_zero_r x :
  SFfinite x ->
  exists s, SFmul prec emax x (S754_zero false) = S754_zero s.
Proof.
  destruct x as [s|s| |s m e]; cbn [SFfinite SFmul]; try tauto; eauto.
Qed.

End NoOverflow.

(** *** The same on primitive floats *)

Lemma float_small_spec (c : float) :
  (abs c <=? 1) = true -> SFsmall (Prim2SF c).
Proof.
  rewrite FloatAxioms.leb_spec, FloatAxioms.abs_spec.
  replace (Prim2SF 1) with (S754_finite false 4503599627370496 (-52))
    by (vm_compute; reflexivity).
  pose proof (FloatAxioms.Prim2SF_valid c) as Hvalid.
  destruct (Prim2SF c) as [s|s| |s m e];
    unfold SFleb, SFabs, SFcompare, SFsmall; try discriminate; auto.
  intros Hle.
  destruct (NumberFacts.valid_finite s m e Hvalid) as (_ & Hm & _).
  split; [exact Hm|].
  destruct (Z.compare_spec e (-52)); first [lia|discriminate].
Qed.

Lemma float_mul_small (c d : float) :
  (abs c <=? 1) = true -> (abs d <=? 1) = true ->
  SFfinite (Prim2SF (c * d)).
Proof.
  intros Hc Hd. rewrite FloatAxioms.mul_spec.
  apply SFmul_small; now apply float_small_spec.
Qed.

Lemma float_mul_zero (y : float) :
  SFfinite (Prim2SF y) -> SFfinite (Prim2SF (y * 0)).
Proof.
  intros Hy. rewrite FloatAxioms.mul_spec.
  destruct (SFmul_zero_r (Prim2SF y) Hy) as [s Hs].
  change (Prim2SF 0) with (S754_zero false).
  unfold SF64mul. now rewrite Hs.
Qed.

Lemma float_mul_zero_zero (y : float) :
  SFfinite (Prim2SF y) -> 0 + y * 0 = 0.
Proof.
  intros Hy. apply Prim2SF_inj.
  rewrite FloatAxioms.add_spec, FloatAxioms.mul_spec.
  destruct (SFmul_zero_r (Prim2SF y) Hy) as [s Hs].
  change (Prim2SF 0) with (S754_zero false).
  unfold SF64mul. rewrite Hs. now destruct s.
Qed.

Lemma float_sub_self (x : float) : SFfinite (Prim2SF x) -> x - x = 0.
Proof.
  intros Hx. apply Prim2SF_inj. rewrite FloatAxioms.sub_spec.
  change (Prim2SF 0) with (S754_zero false).
  destruct (Prim2SF x) as [[|]|s| |s m e]; cbn in Hx |- *; try tauto.
  now rewrite Z.sub_diag.
Qed.

Lemma float_in_range_finite (x lo hi : float) :
  (lo <=? x) = true -> (x <=? hi) = true ->
  SFfinite (Prim2SF lo) -> SFfinite (Prim2SF hi) ->
  SFfinite (Prim2SF x).
Proof.
  rewrite !FloatAxioms.leb_spec.
  destruct (Prim2SF x) as [s|[|]| |s m e]; cbn; auto;
    destruct (Prim2SF lo) as [|[|]| |[|]], (Prim2SF hi) as [|[|]| |[|]];
    cbn; try discriminate; tauto.
Qed.

Section SamePoint.

Variables Math_sin Math_cos Math_sqrt : Js.number -> Js.number.
Variable Math_atan2 : Js.number -> Js.number -> Js.number.

(** What the language fixes: the sine and the square root of [+0] are
    [+0], and [Math.atan2(+0, x)] is [+0] for [x > 0]. *)
Hypothesis sin_zero : Math_sin 0 = 0.
Hypothesis sqrt_zero : Math_sqrt 0 = 0.
Hypothesis atan2_zero :
  forall x, (0 <? x) = true -> Math_atan2 0 x = 0.

(** What every implementation has: the square root of 1 is above zero, and
    the cosine of a latitude between -90 and 90 degrees, converted to
    radians the way the function does it, is at most 1 in size. *)
Hypothesis sqrt_one : (0 <? Math_sqrt 1) = true.
Hypothesis cos_bounded :
  forall lat,
    (-90 <=? lat) = true -> (lat <=? 90) = true ->
    (abs (Math_cos (lat * apiUtils.Math_PI / 180)) <=? 1) = true.

(** X25: the distance from a valid coordinate to itself is exactly [+0]:
    both differences are [+0], their sines are [+0], the cosines are
    multiplied by zero, and the square roots and [Math.atan2] are taken at
    the values the language fixes. *)
Theorem X25_calculateDistance_same_point (lat lon : Js.number) :
  apiUtils.isValidCoordinate lat lon = true ->
  apiUtils.calculateDistance Math_sin Math_cos Math_sqrt Math_atan2
    lat lon lat lon = 0.
Proof.
  unfold apiUtils.isValidCoordinate, Js.geb.
  rewrite !andb_true_iff. intros [[[Hlat1 Hlat2] Hlon1] Hlon2].
  assert (Flat : SFfinite (Prim2SF lat))
    by (apply (float_in_range_finite lat (-90) 90); auto; exact I).
  assert (Flon : SFfinite (Prim2SF lon))
    by (apply (float_in_range_finite lon (-180) 180); auto; exact I).
  pose proof (cos_bounded lat Hlat1 Hlat2) as Hcos.
  unfold apiUtils.calculateDistance. cbv zeta.
  rewrite (float_sub_self lat Flat), (float_sub_self lon Flon).
  change (0 * apiUtils.Math_PI / 180 / 2) with 0.
  rewrite sin_zero. change (0 * 0) with 0.
  set (c := Math_cos (lat * apiUtils.Math_PI / 180)) in *.
  rewrite (float_mul_zero_zero (c * c * 0)
             (float_mul_zero (c * c) (float_mul_small c c Hcos Hcos))).
  rewrite sqrt_zero. change (1 - 0) with 1.
  rewrite (atan2_zero _ sqrt_one). reflexivity.
Qed.

End SamePoint.

(** *** The two theorems at concrete points *)

Lemma X24_calculateDistance_symmetric_witness :
  (forall x : Js.number, (fun y : Js.number => y) (- x) = - x) /\
  apiUtils.calculateDistance (fun x => x) (fun _ => 1) sqrt (fun y _ => y)
    40.7580 (-73.9855) 40.7128 (-74.0060)
  = apiUtils.calculateDistance (fun x => x) (fun _ => 1) sqrt (fun y _ => y)
      40.7128 (-74.0060) 40.7580 (-73.9855).
Proof.
  split; [reflexivity|].
  apply (X24_calculateDistance_symmetric (fun x => x) (fun _ => 1) sqrt
           (fun y _ => y)).
  reflexivity.
Defined.

Lemma X25_calculateDistance_same_point_witness :
  apiUtils.isValidCoordinate 40.7580 (-73.9855) = true /\
  apiUtils.calculateDistance (fun x => x) (fun _ => 1) sqrt (fun y _ => y)
    40.7580 (-73.9855) 40.7580 (-73.9855) = 0.
Proof.
  split; [reflexivity|].
  apply (X25_calculateDistance_same_point (fun x => x) (fun _ => 1) sqrt
           (fun y _ => y)); reflexivity.
Defined.
